(** * fastnumbers: the float scanner of [parsing.h] and the type checks of
      [implementation.cpp], embedded in Rocq.

    The C part ([string_contains_non_overflowing_float] with the macros of
    [parsing.h]) works on [const char *] cursors into a NUL-terminated
    buffer.  A buffer is a [list ascii], a cursor is an offset of type [Z],
    and [*p] is [deref buf p].  An [unsigned] has 32 bits, [DBL_DIG] is 15
    and the interpreter is Python 3.  The C++ part ([collect_type],
    [resolve_types], [float_check_impl], [type_query_impl]) works on the
    [NumberFlags] bit field, kept as a [Z] with [Z.land]; what it takes
    from other files is gathered in the class [Host]. *)

From Stdlib Require Import ZArith List Ascii String Bool Lia.
Import ListNotations.
Local Open Scope Z_scope.

(** ** Loops *)

(** [while (cond) body] with an iteration budget.  [None] means the budget
    ran out before the condition turned false. *)
Fixpoint while {S : Type} (fuel : nat) (cond : S -> bool) (body : S -> S)
  (s : S) : option S :=
  match fuel with
  | O => None
  | Datatypes.S fuel' =>
      if cond s then while fuel' cond body (body s) else Some s
  end.

Definition bind {A B : Type} (m : option A) (k : A -> option B) : option B :=
  match m with
  | Some a => k a
  | None => None
  end.

Notation "x <- m ;; k" := (bind m (fun x => k))
  (at level 61, m at next level, right associativity).

(** ** parsing.h *)

Module Parsing.

Definition char := ascii.
Definition buffer := list char.
Definition ptr := Z.

Definition NUL : char := Ascii.zero.

(** The integer value of a character, as the comparisons of the macros see
    it.  Every range the macros test lies below 128, so the outcome is the
    same whether [char] is signed or unsigned (see [is_white_space_signed]
    and [is_valid_digit_signed]). *)
Definition code (c : char) : Z := Z.of_N (N_of_ascii c).

(** [code] when [char] is a signed 8-bit type. *)
Definition scode (c : char) : Z :=
  if code c <? 128 then code c else code c - 256.

(** [*p].  The buffer is NUL-terminated: the position just after the last
    character reads NUL.  The macros give no meaning to positions further
    out; they read as NUL here as well. *)
Definition deref (buf : buffer) (p : ptr) : char :=
  if p <? 0 then NUL else nth (Z.to_nat p) buf NUL.

(** *** ID characters *)

Definition is_white_space (c : char) : bool :=
  Ascii.eqb c " "%char
  || ((code "009"%char <=? code c) && (code c <=? code "013"%char)).
Definition is_valid_digit (c : char) : bool :=
  (code "0"%char <=? code c) && (code c <=? code "9"%char).
Definition is_zero (c : char) : bool := Ascii.eqb c "0"%char.
Definition is_null (c : char) : bool := Ascii.eqb c NUL.
Definition is_decimal (c : char) : bool := Ascii.eqb c "."%char.
Definition is_l_or_L (c : char) : bool :=
  Ascii.eqb c "l"%char || Ascii.eqb c "L"%char.
Definition is_e_or_E (c : char) : bool :=
  Ascii.eqb c "e"%char || Ascii.eqb c "E"%char.
Definition is_n_or_N (c : char) : bool :=
  Ascii.eqb c "n"%char || Ascii.eqb c "N"%char.
Definition is_a_or_A (c : char) : bool :=
  Ascii.eqb c "a"%char || Ascii.eqb c "A"%char.
Definition is_i_or_I (c : char) : bool :=
  Ascii.eqb c "i"%char || Ascii.eqb c "I"%char.
Definition is_f_or_F (c : char) : bool :=
  Ascii.eqb c "f"%char || Ascii.eqb c "F"%char.
Definition is_t_or_T (c : char) : bool :=
  Ascii.eqb c "t"%char || Ascii.eqb c "T"%char.
Definition is_y_or_Y (c : char) : bool :=
  Ascii.eqb c "y"%char || Ascii.eqb c "Y"%char.
Definition is_negative_sign (c : char) : bool := Ascii.eqb c "-"%char.
Definition is_positive_sign (c : char) : bool := Ascii.eqb c "+"%char.
Definition is_sign (c : char) : bool :=
  is_negative_sign c || is_positive_sign c.
Definition is_non_integer_character (c : char) : bool :=
  is_decimal c || is_e_or_E c.

(** *** Consume characters based on ID

    A consuming macro both tests and moves the cursor: it yields its value
    and the new cursor. *)

(** The interpreter this extension is built for ([envlist] of the tox file:
    py38 .. py313). *)
Definition PY_MAJOR_VERSION : Z := 3.

Definition consume_python2_long_literal_lL (buf : buffer) (str : ptr)
  : bool * ptr :=
  if PY_MAJOR_VERSION =? 2
  then (if is_l_or_L (deref buf str) then (true, str + 1) else (false, str))
  else (false, str).

Definition consume_white_space (fuel : nat) (buf : buffer) (str : ptr)
  : option ptr :=
  while fuel (fun p => is_white_space (deref buf p)) (fun p => p + 1) str.

Definition consume_non_white_space (fuel : nat) (buf : buffer) (str : ptr)
  : option ptr :=
  while fuel (fun p => negb (is_white_space (deref buf p))) (fun p => p + 1)
    str.

Definition consume_sign (buf : buffer) (str : ptr) : bool * ptr :=
  if is_sign (deref buf str) then (true, str + 1) else (false, str).

Definition consume_decimal (buf : buffer) (str : ptr) : bool * ptr :=
  if is_decimal (deref buf str) then (true, str + 1) else (false, str).

Definition consume_exponent_prefix (buf : buffer) (str : ptr) : bool * ptr :=
  if is_e_or_E (deref buf str) then (true, str + 1) else (false, str).

Definition consume_sign_and_is_negative (buf : buffer) (str : ptr)
  : bool * ptr :=
  if is_negative_sign (deref buf str)
  then (fst (consume_sign buf str) && true, snd (consume_sign buf str))
  else (fst (consume_sign buf str) && false, snd (consume_sign buf str)).

(** [strip_whitespace(start, end, length)]: both cursors are assigned, so the
    macro yields the pair [(start, end)]. *)
Definition strip_whitespace (fuel : nat) (buf : buffer) (start : ptr)
  (length : Z) : option (ptr * ptr) :=
  let end_ := start + length - 1 in
  start <- consume_white_space fuel buf start ;;
  end_ <- while fuel
            (fun e => is_white_space (deref buf e) && negb (start =? e))
            (fun e => e - 1) end_ ;;
  Some (start, end_ + 1).

(** *** Helper functions *)

Definition to_lower (c : char) : char :=
  if (code "A"%char <=? code c) && (code c <=? code "Z"%char)
  then ascii_of_N (N_of_ascii c + 32)
  else c.

(** Modelled from the spec: [case_insensitive_match] is declared in
    [parsing.h] but defined in a file that is not part of the sources at
    hand.  The scanner asks whether the text at the cursor
    "case-insensitively equals" a lower-case token, and goes on matching
    behind the token, so the comparison covers the length of the token
    only. *)
Fixpoint case_insensitive_match (buf : buffer) (s : ptr) (t : list char)
  : bool :=
  match t with
  | [] => true
  | c :: t' =>
      Ascii.eqb (to_lower (deref buf s)) (to_lower c)
      && case_insensitive_match buf (s + 1) t'
  end.

(** *** string_contains_non_overflowing_float *)

(** [DBL_DIG] of [<float.h>] for IEEE-754 binary64. *)
Definition DBL_DIG : Z := 15.

(** [unsigned] arithmetic: 32 bits, wrapping around. *)
Definition UINT_MAX : Z := 2 ^ 32 - 1.
Definition wrap_unsigned (x : Z) : Z := x mod (UINT_MAX + 1).

(** *** Convert char to int/long etc.

    [*(c) - '0'] is computed in [int], from a [char] that is signed or
    unsigned as the compiler has it; the casts to the unsigned types wrap
    around.  A [long] has 64 bits. *)

Definition char_value (signed_char : bool) (c : char) : Z :=
  if signed_char then scode c else code c.

Definition ULONG_MAX : Z := 2 ^ 64 - 1.
Definition wrap_unsigned_long (x : Z) : Z := x mod (ULONG_MAX + 1).

Definition ascii2int (signed_char : bool) (buf : buffer) (c : ptr) : Z :=
  char_value signed_char (deref buf c) - code "0"%char.
Definition ascii2uint (signed_char : bool) (buf : buffer) (c : ptr) : Z :=
  wrap_unsigned (char_value signed_char (deref buf c) - code "0"%char).
Definition ascii2long (signed_char : bool) (buf : buffer) (c : ptr) : Z :=
  char_value signed_char (deref buf c) - code "0"%char.
Definition ascii2ulong (signed_char : bool) (buf : buffer) (c : ptr) : Z :=
  wrap_unsigned_long (char_value signed_char (deref buf c) - code "0"%char).

(** The local variables of the scanner. *)
Record locals := mk_locals { str : ptr; ndigits : Z; valid : bool }.

Definition at_digit (buf : buffer) (l : locals) : bool :=
  is_valid_digit (deref buf (str l)).

(** [{ str++; ndigits++; valid = true; }] *)
Definition count_digit (l : locals) : locals :=
  mk_locals (str l + 1) (wrap_unsigned (ndigits l + 1)) true.

(** [{ str++; valid = true; }] *)
Definition skip_digit (l : locals) : locals :=
  mk_locals (str l + 1) (ndigits l) true.

(** The part after the inf/nan test ("Check if it is a float"), up to and
    including the final [return].  The result is the returned value
    together with the final value of [str]. *)
Definition check_float (fuel : nat) (buf : buffer) (str0 end_ : ptr)
  : option (bool * ptr) :=
  l <- while fuel (at_digit buf) count_digit (mk_locals str0 0 false) ;;
  let '(long_literal, str1) := consume_python2_long_literal_lL buf (str l) in
  let l := mk_locals str1 (ndigits l) (valid l) in
  l <- (if negb long_literal then
          l <- (if is_decimal (deref buf (str l))
                then while fuel (at_digit buf) count_digit
                       (mk_locals (str l + 1) (ndigits l) (valid l))
                else Some l) ;;
          (if is_e_or_E (deref buf (str l)) && valid l
           then
             let l := mk_locals (str l + 1) (ndigits l) false in
             let l := mk_locals (snd (consume_sign buf (str l)))
                        (ndigits l) (valid l) in
             while fuel (at_digit buf) skip_digit l
           else Some l)
        else Some l) ;;
  Some (valid l && (ndigits l <? DBL_DIG) && (str l =? end_), str l).

Definition inf_token : list char := list_ascii_of_string "inf"%string.
Definition inity_token : list char := list_ascii_of_string "inity"%string.
Definition nan_token : list char := list_ascii_of_string "nan"%string.

(** The whole function, with the value it returns and the final [str]. *)
Definition string_contains_non_overflowing_float_run (fuel : nat)
  (buf : buffer) (str0 end_ : ptr) : option (bool * ptr) :=
  let str := snd (consume_sign buf str0) in
  if is_n_or_N (deref buf str) || is_i_or_I (deref buf str) then
    if case_insensitive_match buf str inf_token then
      let str := str + 3 in
      let str := if case_insensitive_match buf str inity_token
                 then str + 5 else str in
      Some (str =? end_, str)
    else if case_insensitive_match buf str nan_token then
      let str := str + 3 in
      Some (str =? end_, str)
    else check_float fuel buf str end_
  else check_float fuel buf str end_.

(** No loop of the scanner runs more often than the buffer is long, so
    this budget is never used up. *)
Definition scan_fuel (buf : buffer) : nat := Datatypes.S (List.length buf).

Definition string_contains_non_overflowing_float (buf : buffer)
  (str0 end_ : ptr) : bool :=
  match string_contains_non_overflowing_float_run (scan_fuel buf) buf str0
          end_ with
  | Some (r, _) => r
  | None => false
  end.

(** The position at which the scanner stops reading. *)
Definition scan_stop (buf : buffer) (str0 end_ : ptr) : ptr :=
  match string_contains_non_overflowing_float_run (scan_fuel buf) buf str0
          end_ with
  | Some (_, p) => p
  | None => str0
  end.

Definition chars (s : string) : buffer := list_ascii_of_string s.

(** ** The scan seen from the text at the cursor

    The characters from a cursor onwards form a list; a loop that moves the
    cursor forward is a recursion on that list.  The functions of this
    section restate each stage of the scanner on the list; the lemmas
    [check_float_refines] and [scan_refines] prove that the cursor code
    computes exactly them. *)

Definition suffix (buf : buffer) (p : ptr) : list char :=
  if p <? 0 then [] else skipn (Z.to_nat p) buf.

Definition hdc (l : list char) : char := hd NUL l.

(** The digits a [while (is_valid_digit(str))] loop walks over, counted,
    and the text it stops at. *)
Fixpoint span_digits (l : list char) : nat * list char :=
  match l with
  | c :: r =>
      if is_valid_digit c
      then let '(n, r') := span_digits r in (Datatypes.S n, r')
      else (O, l)
  | [] => (O, [])
  end.

Definition sign_len (l : list char) : nat :=
  if is_sign (hdc l) then 1%nat else 0%nat.

Fixpoint prefix_ci (t l : list char) : bool :=
  match t with
  | [] => true
  | c :: t' =>
      Ascii.eqb (to_lower (hdc l)) (to_lower c) && prefix_ci t' (tl l)
  end.

(** [check_float] on the text [l] at its cursor: whether it holds
    [valid && ndigits < DBL_DIG], and how many characters it walks over. *)
Definition check_float_list (l : list char) : bool * nat :=
  let '(n1, l1) := span_digits l in
  let '(k2, n2, l2) :=
    if is_decimal (hdc l1)
    then let '(n, r) := span_digits (tl l1) in (Datatypes.S n, n, r)
    else (O, O, l1) in
  let few := wrap_unsigned (Z.of_nat (n1 + n2)) <? DBL_DIG in
  if is_e_or_E (hdc l2) && (0 <? n1 + n2)%nat then
    let l3 := tl l2 in
    let ks := sign_len l3 in
    let '(n3, _) := span_digits (skipn ks l3) in
    ((0 <? n3)%nat && few, (n1 + k2 + 1 + ks + n3)%nat)
  else ((0 <? n1 + n2)%nat && few, (n1 + k2)%nat).

(** The scanner behind the optional sign, on the text [l0] there: what it
    returns apart from the test [str == end], and how many characters it
    walks over. *)
Definition scan_unsigned (l0 : list char) : bool * nat :=
  if is_n_or_N (hdc l0) || is_i_or_I (hdc l0) then
    if prefix_ci inf_token l0 then
      (true, (3 + (if prefix_ci inity_token (skipn 3 l0) then 5 else 0))%nat)
    else if prefix_ci nan_token l0 then (true, 3%nat)
    else check_float_list l0
  else check_float_list l0.

(** The whole scanner on the text [l] at its cursor. *)
Definition scan_list (l : list char) : bool * nat :=
  let ks := sign_len l in
  let '(ok, k) := scan_unsigned (skipn ks l) in (ok, (ks + k)%nat).

(** The shape of what the scanner returns, given the list view. *)
Definition scan_result (p e : ptr) (r : bool * nat) : bool * ptr :=
  let '(ok, k) := r in (ok && (p + Z.of_nat k =? e), p + Z.of_nat k).

Definition whole (l : list char) : ptr := Z.of_nat (List.length l).

(** A character that is white space, or the terminating NUL, passes none of
    the tests of the scanner. *)
Definition stops_scan (c : char) : bool := is_white_space c || Ascii.eqb c NUL.

(** *** What the scanner walks over

    [walks k l]: the list [l] has [k] characters at its front, none of them
    white space. *)
Definition walks (k : nat) (l : list char) : Prop :=
  (k <= List.length l)%nat
  /\ forallb (fun c => negb (is_white_space c)) (firstn k l) = true.

(** ** Base-10 float literals

    The texts the number part of the scanner is written for: an optional
    sign, digits, optionally a decimal point and digits, optionally an
    exponent marker with an optional sign and digits.  Any of the three
    runs of digits may be empty in a [float_literal]; [valid_literal] says
    which ones may not. *)

(** The optional single leading sign of the grammar. *)
Inductive sign_mark := NoSign | PlusSign | MinusSign.

Definition sign_text (s : sign_mark) : list char :=
  match s with
  | NoSign => []
  | PlusSign => ["+"%char]
  | MinusSign => ["-"%char]
  end.

Definition infinity_token : list char := inf_token ++ inity_token.

Definition special_tokens : list (list char) :=
  [inf_token; infinity_token; nan_token].

Record exponent_part := mk_exponent
  { exp_marker : char; exp_sign : sign_mark; exp_digits : list char }.

Record float_literal := mk_literal
  { lit_sign : sign_mark;
    int_digits : list char;
    frac_part : option (list char);
    exponent : option exponent_part }.

Definition all_digits (ds : list char) : bool := forallb is_valid_digit ds.

Definition frac_digits (lit : float_literal) : list char :=
  match frac_part lit with Some ds => ds | None => [] end.

Definition well_shaped (lit : float_literal) : bool :=
  all_digits (int_digits lit) && all_digits (frac_digits lit)
  && match exponent lit with
     | Some x => is_e_or_E (exp_marker x) && all_digits (exp_digits x)
     | None => true
     end.

Definition frac_text (lit : float_literal) : list char :=
  match frac_part lit with Some ds => "."%char :: ds | None => [] end.

Definition exponent_text (lit : float_literal) : list char :=
  match exponent lit with
  | Some x => exp_marker x :: sign_text (exp_sign x) ++ exp_digits x
  | None => []
  end.

Definition render (lit : float_literal) : list char :=
  sign_text (lit_sign lit) ++ int_digits lit ++ frac_text lit
  ++ exponent_text lit.

(** The digits the scanner counts in [ndigits]. *)
Definition mantissa_digits (lit : float_literal) : nat :=
  (List.length (int_digits lit) + List.length (frac_digits lit))%nat.

(** At least one digit before any exponent, and at least one digit in an
    exponent. *)
Definition valid_literal (lit : float_literal) : bool :=
  (0 <? mantissa_digits lit)%nat
  && match exponent lit with
     | Some x => (0 <? List.length (exp_digits x))%nat
     | None => true
     end.

(** What [ndigits < DBL_DIG] tests once the loops have counted. *)
Definition few_digits (lit : float_literal) : bool :=
  wrap_unsigned (Z.of_nat (mantissa_digits lit)) <? DBL_DIG.

(** Character classes at the seams of a literal. *)
Definition exponent_start (c : char) : bool := is_e_or_E c || stops_scan c.
Definition fraction_start (c : char) : bool := is_decimal c || exponent_start c.
Definition number_start (c : char) : bool :=
  is_valid_digit c || fraction_start c.
Definition digits_end (c : char) : bool := is_valid_digit c || stops_scan c.

Definition literal_1p5em3 : float_literal :=
  mk_literal NoSign (chars "1"%string) (Some (chars "5"%string))
    (Some (mk_exponent "e"%char MinusSign (chars "3"%string))).

(** ** The value of a literal *)

(** The value a literal denotes is
    [+/- literal_mantissa * 10 ^ literal_exponent].  The scanner never
    computes it; it is defined here to compare the answer of the scanner
    with the magnitude of the number. *)
Definition digit_value (c : char) : Z := code c - code "0"%char.

Definition digits_value (ds : list char) : Z :=
  fold_left (fun acc c => 10 * acc + digit_value c) ds 0.

Definition literal_mantissa (lit : float_literal) : Z :=
  digits_value (int_digits lit ++ frac_digits lit).

Definition literal_exponent (lit : float_literal) : Z :=
  match exponent lit with
  | Some x =>
      match exp_sign x with
      | MinusSign => - digits_value (exp_digits x)
      | _ => digits_value (exp_digits x)
      end
  | None => 0
  end - Z.of_nat (List.length (frac_digits lit)).

(** The largest finite binary64 number, [DBL_MAX] of [<float.h>]. *)
Definition DBL_MAX : Z := (2 ^ 53 - 1) * 2 ^ 971.

(** The magnitude of the literal does not exceed [DBL_MAX]. *)
Definition fits_double (lit : float_literal) : bool :=
  if 0 <=? literal_exponent lit
  then literal_mantissa lit * 10 ^ literal_exponent lit <=? DBL_MAX
  else literal_mantissa lit <=? DBL_MAX * 10 ^ (- literal_exponent lit).

Definition literal_16_digits : float_literal :=
  mk_literal NoSign (chars "1234567890123456"%string) None None.

Definition literal_1e999 : float_literal :=
  mk_literal NoSign (chars "1"%string) None
    (Some (mk_exponent "e"%char NoSign (chars "999"%string))).

(** ** White space around a text *)

Definition all_white_space (w : list char) : bool := forallb is_white_space w.

(** The trimmed form of a text: the text without the white space at its
    front and at its back. *)
Fixpoint drop_white_space (l : list char) : list char :=
  match l with
  | c :: r => if is_white_space c then drop_white_space r else l
  | [] => []
  end.

Definition trim (l : list char) : list char :=
  rev (drop_white_space (rev (drop_white_space l))).

(** ** More about the texts the scanner accepts *)

(** The sign at the front of a text, if there is one. *)
Definition sign_of (l : list char) : sign_mark :=
  if is_positive_sign (hdc l) then PlusSign
  else if is_negative_sign (hdc l) then MinusSign
  else NoSign.

(** The literal [check_float_list] walks over on the text [l], whether it
    accepts it or not. *)
Definition literal_at (s : sign_mark) (l : list char) : float_literal :=
  let '(n1, l1) := span_digits l in
  let '(frac, n2, l2) :=
    if is_decimal (hdc l1)
    then let '(n, r) := span_digits (tl l1) in (Some (firstn n (tl l1)), n, r)
    else (None, O, l1) in
  mk_literal s (firstn n1 l) frac
    (if is_e_or_E (hdc l2) && (0 <? n1 + n2)%nat
     then
       let l3 := tl l2 in
       let '(n3, _) := span_digits (skipn (sign_len l3) l3) in
       Some (mk_exponent (hdc l2) (sign_of l3)
               (firstn n3 (skipn (sign_len l3) l3)))
     else None).

(** The text of a literal behind its sign. *)
Definition body_text (lit : float_literal) : list char :=
  int_digits lit ++ frac_text lit ++ exponent_text lit.

(** The literal [lit] with [n] more zeros in front of its digits. *)
Definition pad_zeros (n : nat) (lit : float_literal) : float_literal :=
  mk_literal (lit_sign lit) (@repeat char "0"%char n ++ int_digits lit)
    (frac_part lit) (exponent lit).

(** The text of a range: the characters from [str] up to [end]. *)
Definition range_text (buf : buffer) (str0 end_ : ptr) : list char :=
  firstn (Z.to_nat (end_ - str0)) (suffix buf str0).

(** ** Facts about the scanner *)

Example scan_12 :
  string_contains_non_overflowing_float (chars "12"%string) 0 2 = true.
Proof. reflexivity. Qed.
Example scan_m3p5e7 :
  string_contains_non_overflowing_float (chars "-3.5e+7"%string) 0 7 = true.
Proof. reflexivity. Qed.
Example scan_Infinity :
  string_contains_non_overflowing_float (chars "+InFiNiTy"%string) 0 9 = true.
Proof. reflexivity. Qed.
Example scan_12x :
  string_contains_non_overflowing_float (chars "12x"%string) 0 3 = false.
Proof. reflexivity. Qed.
Example scan_16_digits :
  string_contains_non_overflowing_float (chars "1234567890123456"%string)
    0 16 = false.
Proof. reflexivity. Qed.

(** *** Characters *)

Ltac each_char c := destruct c as [[|] [|] [|] [|] [|] [|] [|] [|]].

Lemma digit_not_white_space c :
  is_valid_digit c = true -> is_white_space c = false.
Proof. each_char c; intros H; solve [reflexivity | discriminate H]. Qed.

Lemma sign_not_white_space c : is_sign c = true -> is_white_space c = false.
Proof. each_char c; intros H; solve [reflexivity | discriminate H]. Qed.

Lemma decimal_not_white_space c :
  is_decimal c = true -> is_white_space c = false.
Proof. each_char c; intros H; solve [reflexivity | discriminate H]. Qed.

Lemma e_not_white_space c : is_e_or_E c = true -> is_white_space c = false.
Proof. each_char c; intros H; solve [reflexivity | discriminate H]. Qed.

Lemma letter_not_white_space c t :
  In t (inf_token ++ inity_token ++ nan_token) ->
  Ascii.eqb (to_lower c) (to_lower t) = true -> is_white_space c = false.
Proof.
  intros Hin H. simpl in Hin.
  repeat (destruct Hin as [<- | Hin]; [revert H; each_char c; intros H;
    solve [reflexivity | discriminate H] |]).
  destruct Hin.
Qed.

(** The tests of the macros do not depend on the signedness of [char]. *)
Lemma is_white_space_signed c :
  is_white_space c
  = (Ascii.eqb c " "%char || ((9 <=? scode c) && (scode c <=? 13))).
Proof. each_char c; reflexivity. Qed.

Lemma is_valid_digit_signed c :
  is_valid_digit c = ((48 <=? scode c) && (scode c <=? 57)).
Proof. each_char c; reflexivity. Qed.

Lemma stops_scan_tests c :
  stops_scan c = true ->
  is_valid_digit c = false /\ is_sign c = false /\ is_decimal c = false
  /\ is_e_or_E c = false /\ is_n_or_N c = false /\ is_i_or_I c = false.
Proof.
  each_char c; intros H; solve [repeat split; reflexivity | discriminate H].
Qed.

Lemma stops_scan_letter c t :
  In t (inf_token ++ inity_token ++ nan_token) ->
  stops_scan c = true -> Ascii.eqb (to_lower c) (to_lower t) = false.
Proof.
  intros Hin H. simpl in Hin.
  repeat (destruct Hin as [<- | Hin]; [revert H; each_char c; intros H;
    solve [reflexivity | discriminate H] |]).
  destruct Hin.
Qed.

(** *** Cursors and the text at them *)

Lemma deref_suffix buf p : deref buf p = hdc (suffix buf p).
Proof.
  unfold deref, suffix, hdc. destruct (p <? 0); [reflexivity|].
  generalize (Z.to_nat p) as n. intros n. revert buf.
  induction n as [|n IH]; intros [|c buf]; simpl; try reflexivity.
  apply IH.
Qed.

Lemma skipn_S_tl {A} (n : nat) (l : list A) :
  skipn (Datatypes.S n) l = tl (skipn n l).
Proof.
  revert l. induction n as [|n IH]; intros [|c l]; try reflexivity.
  change (skipn (Datatypes.S n) l = tl (skipn n l)). apply IH.
Qed.

Lemma suffix_cons buf p c r :
  suffix buf p = c :: r -> 0 <= p /\ suffix buf (p + 1) = r.
Proof.
  unfold suffix. destruct (Z.ltb_spec p 0) as [Hneg|Hpos]; [discriminate|].
  intros H. split; [assumption|].
  destruct (Z.ltb_spec (p + 1) 0); [lia|].
  replace (Z.to_nat (p + 1)) with (Datatypes.S (Z.to_nat p)) by lia.
  rewrite skipn_S_tl, H. reflexivity.
Qed.

Lemma suffix_skipn buf p (k : nat) :
  0 <= p -> suffix buf (p + Z.of_nat k) = skipn k (suffix buf p).
Proof.
  intros Hp. unfold suffix.
  destruct (Z.ltb_spec p 0); [lia|].
  destruct (Z.ltb_spec (p + Z.of_nat k) 0); [lia|].
  replace (Z.to_nat (p + Z.of_nat k)) with (k + Z.to_nat p)%nat by lia.
  symmetry. apply skipn_skipn.
Qed.

Lemma suffix_length buf p : (List.length (suffix buf p) <= List.length buf)%nat.
Proof.
  unfold suffix. destruct (p <? 0); simpl; [lia|].
  rewrite length_skipn. lia.
Qed.

Lemma suffix_0 buf : suffix buf 0 = buf.
Proof. reflexivity. Qed.

Lemma suffix_app buf rest :
  suffix (buf ++ rest) (Z.of_nat (List.length buf)) = rest.
Proof.
  unfold suffix. destruct (Z.ltb_spec (Z.of_nat (List.length buf)) 0); [lia|].
  rewrite Nat2Z.id, skipn_app, skipn_all, Nat.sub_diag. reflexivity.
Qed.

Lemma hdc_true_cons (f : char -> bool) l :
  f NUL = false -> f (hdc l) = true -> exists r, l = hdc l :: r.
Proof.
  destruct l as [|c r]; simpl; intros H0 H; [congruence|].
  exists r. reflexivity.
Qed.

(** *** The digit loops *)

Lemma span_digits_length l n r :
  span_digits l = (n, r) -> r = skipn n l /\ (n <= List.length l)%nat.
Proof.
  revert n r. induction l as [|c l IH]; simpl; intros n r H.
  - inversion H. split; [reflexivity | lia].
  - destruct (is_valid_digit c).
    + destruct (span_digits l) as [n' r'] eqn:E. inversion H; subst.
      destruct (IH _ _ eq_refl) as [-> Hle]. split; [reflexivity | simpl; lia].
    + inversion H. split; [reflexivity | lia].
Qed.

Lemma span_digits_stop l n r :
  span_digits l = (n, r) -> is_valid_digit (hdc r) = false.
Proof.
  revert n r. induction l as [|c l IH]; simpl; intros n r H.
  - inversion H. reflexivity.
  - destruct (is_valid_digit c) eqn:Ec.
    + destruct (span_digits l) as [n' r'] eqn:E. inversion H; subst.
      eapply IH; reflexivity.
    + inversion H. exact Ec.
Qed.

Lemma span_digits_all l n r :
  span_digits l = (n, r) -> forallb is_valid_digit (firstn n l) = true.
Proof.
  revert n r. induction l as [|c l IH]; simpl; intros n r H.
  - inversion H. reflexivity.
  - destruct (is_valid_digit c) eqn:Ec.
    + destruct (span_digits l) as [n' r'] eqn:E. inversion H; subst.
      simpl. rewrite Ec. eapply IH; reflexivity.
    + inversion H. reflexivity.
Qed.

Lemma wrap_unsigned_small x : 0 <= x <= UINT_MAX -> wrap_unsigned x = x.
Proof. intros H. unfold wrap_unsigned. apply Z.mod_small. lia. Qed.

Lemma wrap_unsigned_range x : 0 <= wrap_unsigned x <= UINT_MAX.
Proof.
  unfold wrap_unsigned, UINT_MAX.
  pose proof (Z.mod_pos_bound x (2 ^ 32 - 1 + 1) ltac:(lia)). lia.
Qed.

Lemma wrap_unsigned_succ x k :
  wrap_unsigned (wrap_unsigned (x + 1) + k) = wrap_unsigned (x + (1 + k)).
Proof.
  unfold wrap_unsigned. rewrite Z.add_mod_idemp_l by (unfold UINT_MAX; lia).
  f_equal. lia.
Qed.

(** The counting loop walks over exactly the digits at the cursor. *)
Lemma while_count_digit buf l : forall fuel p nd v n r,
  suffix buf p = l -> span_digits l = (n, r) -> (n < fuel)%nat ->
  0 <= nd <= UINT_MAX ->
  while fuel (at_digit buf) count_digit (mk_locals p nd v)
  = Some (mk_locals (p + Z.of_nat n) (wrap_unsigned (nd + Z.of_nat n))
            (v || (0 <? n)%nat)).
Proof.
  induction l as [|c l IH]; intros fuel p nd v n r Hs Hsp Hf Hnd.
  - simpl in Hsp. inversion Hsp; subst. destruct fuel; [lia|]. simpl.
    unfold at_digit. simpl. rewrite deref_suffix, Hs. simpl.
    rewrite !Z.add_0_r, wrap_unsigned_small, orb_false_r by assumption.
    reflexivity.
  - simpl in Hsp. destruct fuel; [lia|]. simpl.
    unfold at_digit at 1. simpl. rewrite deref_suffix, Hs. simpl.
    destruct (is_valid_digit c).
    + destruct (span_digits l) as [n' r'] eqn:E. inversion Hsp; subst.
      destruct (suffix_cons _ _ _ _ Hs) as [Hp Hs'].
      assert (Hf' : (n' < fuel)%nat) by lia.
      unfold count_digit at 2. cbn [str ndigits valid].
      rewrite (IH fuel (p + 1) _ true n' r Hs' eq_refl Hf'
                 (wrap_unsigned_range _)).
      rewrite wrap_unsigned_succ. change (0 <? Datatypes.S n')%nat with true.
      rewrite orb_true_r.
      replace (p + 1 + Z.of_nat n') with (p + Z.of_nat (Datatypes.S n')) by lia.
      replace (1 + Z.of_nat n') with (Z.of_nat (Datatypes.S n')) by lia.
      reflexivity.
    + inversion Hsp; subst.
      rewrite !Z.add_0_r, wrap_unsigned_small, orb_false_r by assumption.
      reflexivity.
Qed.

(** So does the loop over the digits of the exponent, without counting. *)
Lemma while_skip_digit buf l : forall fuel p nd v n r,
  suffix buf p = l -> span_digits l = (n, r) -> (n < fuel)%nat ->
  while fuel (at_digit buf) skip_digit (mk_locals p nd v)
  = Some (mk_locals (p + Z.of_nat n) nd (v || (0 <? n)%nat)).
Proof.
  induction l as [|c l IH]; intros fuel p nd v n r Hs Hsp Hf.
  - simpl in Hsp. inversion Hsp; subst. destruct fuel; [lia|]. simpl.
    unfold at_digit. simpl. rewrite deref_suffix, Hs. simpl.
    rewrite Z.add_0_r, orb_false_r. reflexivity.
  - simpl in Hsp. destruct fuel; [lia|]. simpl.
    unfold at_digit at 1. simpl. rewrite deref_suffix, Hs. simpl.
    destruct (is_valid_digit c).
    + destruct (span_digits l) as [n' r'] eqn:E. inversion Hsp; subst.
      destruct (suffix_cons _ _ _ _ Hs) as [Hp Hs'].
      assert (Hf' : (n' < fuel)%nat) by lia.
      unfold skip_digit at 2. cbn [str ndigits valid].
      rewrite (IH fuel (p + 1) _ true n' r Hs' eq_refl Hf').
      change (0 <? Datatypes.S n')%nat with true. rewrite orb_true_r.
      replace (p + 1 + Z.of_nat n') with (p + Z.of_nat (Datatypes.S n')) by lia.
      reflexivity.
    + inversion Hsp; subst. rewrite Z.add_0_r, orb_false_r. reflexivity.
Qed.

Lemma suffix_skipn_le buf p (k : nat) :
  (k <= List.length (suffix buf p))%nat ->
  suffix buf (p + Z.of_nat k) = skipn k (suffix buf p).
Proof.
  intros Hk. destruct (Z.ltb_spec p 0) as [Hneg|Hpos].
  - assert (Hnil : suffix buf p = []).
    { unfold suffix. destruct (Z.ltb_spec p 0); [reflexivity | lia]. }
    rewrite Hnil in *. simpl in Hk. assert (k = 0%nat) as -> by lia.
    rewrite Z.add_0_r, Hnil. reflexivity.
  - apply suffix_skipn. assumption.
Qed.

Lemma count_digits_at buf fuel p nd v n r :
  (List.length buf < fuel)%nat -> 0 <= nd <= UINT_MAX ->
  span_digits (suffix buf p) = (n, r) ->
  while fuel (at_digit buf) count_digit (mk_locals p nd v)
  = Some (mk_locals (p + Z.of_nat n) (wrap_unsigned (nd + Z.of_nat n))
            (v || (0 <? n)%nat))
  /\ suffix buf (p + Z.of_nat n) = r.
Proof.
  intros Hf Hnd Hsp.
  destruct (span_digits_length _ _ _ Hsp) as [-> Hle].
  pose proof (suffix_length buf p). split.
  - eapply while_count_digit; eauto. lia.
  - apply suffix_skipn_le. assumption.
Qed.

Lemma skip_digits_at buf fuel p nd v n r :
  (List.length buf < fuel)%nat ->
  span_digits (suffix buf p) = (n, r) ->
  while fuel (at_digit buf) skip_digit (mk_locals p nd v)
  = Some (mk_locals (p + Z.of_nat n) nd (v || (0 <? n)%nat))
  /\ suffix buf (p + Z.of_nat n) = r.
Proof.
  intros Hf Hsp.
  destruct (span_digits_length _ _ _ Hsp) as [-> Hle].
  pose proof (suffix_length buf p). split.
  - eapply while_skip_digit; eauto. lia.
  - apply suffix_skipn_le. assumption.
Qed.

Lemma consume_sign_at buf p :
  snd (consume_sign buf p) = p + Z.of_nat (sign_len (suffix buf p))
  /\ suffix buf (p + Z.of_nat (sign_len (suffix buf p)))
     = skipn (sign_len (suffix buf p)) (suffix buf p).
Proof.
  unfold consume_sign, sign_len. rewrite deref_suffix.
  destruct (is_sign (hdc (suffix buf p))) eqn:E; simpl.
  - destruct (hdc_true_cons is_sign _ eq_refl E) as [r Hr].
    destruct (suffix_cons _ _ _ _ Hr) as [_ Hnext].
    rewrite Hnext, Hr. split; reflexivity.
  - rewrite Z.add_0_r. split; reflexivity.
Qed.

Lemma wrap_unsigned_add (a b : nat) :
  wrap_unsigned (wrap_unsigned (0 + Z.of_nat a) + Z.of_nat b)
  = wrap_unsigned (Z.of_nat (a + b)).
Proof.
  unfold wrap_unsigned. rewrite Z.add_mod_idemp_l by (unfold UINT_MAX; lia).
  f_equal. lia.
Qed.

Lemma zero_ltb_add (a b : nat) :
  (false || (0 <? a)%nat) || (0 <? b)%nat = (0 <? a + b)%nat.
Proof. destruct a, b; reflexivity. Qed.

(** [check_float] computes [check_float_list] of the text at its cursor. *)
Lemma check_float_refines buf fuel p e :
  (List.length buf < fuel)%nat ->
  check_float fuel buf p e
  = Some (let '(ok, k) := check_float_list (suffix buf p) in
          (ok && (p + Z.of_nat k =? e), p + Z.of_nat k)).
Proof.
  intros Hf. unfold check_float, check_float_list.
  destruct (span_digits (suffix buf p)) as [n1 l1] eqn:E1.
  destruct (count_digits_at buf fuel p 0 false n1 l1 Hf
              ltac:(unfold UINT_MAX; lia) E1) as [-> Hs1].
  cbn [bind str ndigits valid].
  change (consume_python2_long_literal_lL buf (p + Z.of_nat n1))
    with (false, p + Z.of_nat n1).
  cbn [negb str ndigits valid].
  rewrite deref_suffix, Hs1.
  assert (Hstage2 : exists k2 n2 l2,
    (if is_decimal (hdc l1)
     then let '(n, r) := span_digits (tl l1) in (Datatypes.S n, n, r)
     else (O, O, l1)) = (k2, n2, l2)
    /\ (if is_decimal (hdc l1)
        then while fuel (at_digit buf) count_digit
               (mk_locals (p + Z.of_nat n1 + 1)
                  (wrap_unsigned (0 + Z.of_nat n1)) (false || (0 <? n1)%nat))
        else Some (mk_locals (p + Z.of_nat n1)
                     (wrap_unsigned (0 + Z.of_nat n1))
                     (false || (0 <? n1)%nat)))
       = Some (mk_locals (p + Z.of_nat (n1 + k2))
                 (wrap_unsigned (Z.of_nat (n1 + n2))) (0 <? n1 + n2)%nat)
    /\ suffix buf (p + Z.of_nat (n1 + k2)) = l2).
  { destruct (is_decimal (hdc l1)) eqn:Edec.
    - destruct (hdc_true_cons is_decimal _ eq_refl Edec) as [r Hr].
      rewrite Hr in Hs1. destruct (suffix_cons _ _ _ _ Hs1) as [_ Hnext].
      rewrite Hr. cbn [tl].
      destruct (span_digits r) as [n2 l2] eqn:E2.
      rewrite <- Hnext in E2.
      destruct (count_digits_at buf fuel _ (wrap_unsigned (0 + Z.of_nat n1))
                  (false || (0 <? n1)%nat) n2 l2 Hf
                  (wrap_unsigned_range _) E2) as [Hw Hs2].
      exists (Datatypes.S n2), n2, l2. split; [reflexivity|].
      rewrite Hw, wrap_unsigned_add, zero_ltb_add.
      replace (p + Z.of_nat n1 + 1 + Z.of_nat n2)
        with (p + Z.of_nat (n1 + Datatypes.S n2)) in * by lia.
      split; [reflexivity | assumption].
    - exists O, O, l1. split; [reflexivity|].
      rewrite !Nat.add_0_r. destruct n1; (split; [reflexivity | assumption]). }
  destruct Hstage2 as (k2 & n2 & l2 & -> & -> & Hs2).
  cbn [bind str ndigits valid].
  rewrite deref_suffix, Hs2.
  destruct (is_e_or_E (hdc l2) && (0 <? n1 + n2)%nat) eqn:Eexp.
  - apply andb_true_iff in Eexp. destruct Eexp as [Ee _].
    destruct (hdc_true_cons is_e_or_E _ eq_refl Ee) as [l3 Hl3].
    rewrite Hl3 in Hs2. destruct (suffix_cons _ _ _ _ Hs2) as [_ Hs3].
    rewrite Hl3. cbn [tl str ndigits valid].
    destruct (consume_sign_at buf (p + Z.of_nat (n1 + k2) + 1)) as [-> Hs4].
    rewrite Hs3 in *.
    destruct (span_digits (skipn (sign_len l3) l3)) as [n3 l5] eqn:E3.
    rewrite <- Hs4 in E3.
    destruct (skip_digits_at buf fuel _ (wrap_unsigned (Z.of_nat (n1 + n2)))
                false n3 l5 Hf E3) as [-> _].
    cbn [bind str ndigits valid orb].
    replace (p + Z.of_nat (n1 + k2) + 1 + Z.of_nat (sign_len l3) + Z.of_nat n3)
      with (p + Z.of_nat (n1 + k2 + 1 + sign_len l3 + n3)) by lia.
    reflexivity.
  - cbn [bind str ndigits valid]. reflexivity.
Qed.

Lemma token_letters :
  Forall (fun c => to_lower c <> NUL) (inf_token ++ inity_token ++ nan_token).
Proof. repeat constructor; discriminate. Qed.

Lemma case_insensitive_match_prefix buf t : forall p,
  Forall (fun c => to_lower c <> NUL) t ->
  case_insensitive_match buf p t = prefix_ci t (suffix buf p).
Proof.
  induction t as [|c t IH]; intros p Ht; [reflexivity|].
  inversion Ht as [|? ? Hc Ht']; subst.
  cbn [case_insensitive_match prefix_ci].
  rewrite deref_suffix. destruct (suffix buf p) as [|x r] eqn:E.
  - cbn [hdc hd tl]. change (to_lower NUL) with NUL.
    destruct (Ascii.eqb_spec NUL (to_lower c)) as [Heq|_]; [|reflexivity].
    symmetry in Heq. contradiction.
  - destruct (suffix_cons _ _ _ _ E) as [_ Hnext].
    rewrite IH, Hnext by assumption. reflexivity.
Qed.

(** [string_contains_non_overflowing_float] computes [scan_list] of the
    text at its cursor, and compares the place it stops at with [end]. *)
Lemma scan_refines buf fuel p e :
  (List.length buf < fuel)%nat ->
  string_contains_non_overflowing_float_run fuel buf p e
  = Some (scan_result p e (scan_list (suffix buf p))).
Proof.
  intros Hf.
  unfold string_contains_non_overflowing_float_run, scan_list, scan_unsigned.
  destruct (consume_sign_at buf p) as [-> Hs0].
  set (ks := sign_len (suffix buf p)) in *.
  set (l0 := skipn ks (suffix buf p)) in *.
  assert (Hnumber :
    check_float fuel buf (p + Z.of_nat ks) e
    = Some (scan_result p e
              (let '(ok, k) := check_float_list l0 in (ok, (ks + k)%nat)))).
  { rewrite check_float_refines, Hs0 by assumption.
    destruct (check_float_list l0) as [ok k]. unfold scan_result.
    replace (p + Z.of_nat ks + Z.of_nat k) with (p + Z.of_nat (ks + k)) by lia.
    reflexivity. }
  rewrite deref_suffix, Hs0.
  destruct (is_n_or_N (hdc l0) || is_i_or_I (hdc l0)) eqn:Eletter;
    [|exact Hnumber].
  assert (Hpos : 0 <= p + Z.of_nat ks).
  { destruct (hdc_true_cons (fun c => is_n_or_N c || is_i_or_I c) _
                eq_refl Eletter) as [r Hr].
    rewrite Hr in Hs0. apply suffix_cons in Hs0. tauto. }
  pose proof token_letters as Htok.
  apply Forall_app in Htok. destruct Htok as [Hinf Htok].
  apply Forall_app in Htok. destruct Htok as [Hinity Hnan].
  rewrite !case_insensitive_match_prefix, Hs0 by assumption.
  destruct (prefix_ci inf_token l0).
  - change 3 with (Z.of_nat 3). rewrite suffix_skipn, Hs0 by assumption.
    unfold scan_result.
    destruct (prefix_ci inity_token (skipn 3 l0)); cbn [andb].
    + replace (p + Z.of_nat ks + Z.of_nat 3 + 5)
        with (p + Z.of_nat (ks + (3 + 5))) by lia.
      reflexivity.
    + replace (p + Z.of_nat ks + Z.of_nat 3)
        with (p + Z.of_nat (ks + (3 + 0))) by lia.
      reflexivity.
  - destruct (prefix_ci nan_token l0); [|exact Hnumber].
    unfold scan_result. cbn [andb].
    replace (p + Z.of_nat ks + 3) with (p + Z.of_nat (ks + 3)) by lia.
    reflexivity.
Qed.

Lemma scan_fuel_enough buf : (List.length buf < scan_fuel buf)%nat.
Proof. unfold scan_fuel. lia. Qed.

Lemma scanner_list buf p e :
  string_contains_non_overflowing_float buf p e
  = fst (scan_result p e (scan_list (suffix buf p))).
Proof.
  unfold string_contains_non_overflowing_float.
  rewrite scan_refines by apply scan_fuel_enough.
  destruct (scan_result p e _). reflexivity.
Qed.

Lemma scan_stop_list buf p e :
  scan_stop buf p e = p + Z.of_nat (snd (scan_list (suffix buf p))).
Proof.
  unfold scan_stop. rewrite scan_refines by apply scan_fuel_enough.
  unfold scan_result. destruct (scan_list _). reflexivity.
Qed.

Lemma scanner_true_iff buf p e :
  string_contains_non_overflowing_float buf p e = true
  <-> fst (scan_list (suffix buf p)) = true
      /\ e = p + Z.of_nat (snd (scan_list (suffix buf p))).
Proof.
  rewrite scanner_list. unfold scan_result.
  destruct (scan_list _) as [ok k]. simpl.
  rewrite andb_true_iff, Z.eqb_eq. intuition congruence.
Qed.

Lemma walks_0 l : walks 0 l.
Proof. split; [lia | reflexivity]. Qed.

Lemma firstn_plus {A} (a b : nat) : forall l : list A,
  firstn (a + b) l = firstn a l ++ firstn b (skipn a l).
Proof.
  induction a as [|a IH]; intros [|x l]; simpl; try reflexivity.
  - destruct b; reflexivity.
  - rewrite IH. reflexivity.
Qed.

Lemma walks_add a b l : walks a l -> walks b (skipn a l) -> walks (a + b) l.
Proof.
  intros [Ha Hfa] [Hb Hfb]. rewrite length_skipn in Hb. split; [lia|].
  rewrite firstn_plus, forallb_app, Hfa, Hfb. reflexivity.
Qed.

Lemma walks_1 (f : char -> bool) l :
  f NUL = false -> (forall c, f c = true -> is_white_space c = false) ->
  f (hdc l) = true -> walks 1 l /\ skipn 1 l = tl l.
Proof.
  intros H0 Hf H. destruct (hdc_true_cons f l H0 H) as [r Hr].
  rewrite Hr. split; [|reflexivity]. split; [simpl; lia|].
  simpl. rewrite (Hf _ H). reflexivity.
Qed.

Lemma walks_sign l : walks (sign_len l) l.
Proof.
  unfold sign_len. destruct (is_sign (hdc l)) eqn:E; [|apply walks_0].
  apply (walks_1 is_sign l eq_refl sign_not_white_space E).
Qed.

Lemma walks_digits l n r : span_digits l = (n, r) -> walks n l.
Proof.
  intros H. destruct (span_digits_length _ _ _ H) as [_ Hle].
  split; [assumption|]. pose proof (span_digits_all _ _ _ H) as Hall.
  rewrite forallb_forall in *. intros c Hc.
  rewrite (digit_not_white_space c (Hall c Hc)). reflexivity.
Qed.

Lemma walks_prefix_ci t : forall l,
  incl t (inf_token ++ inity_token ++ nan_token) ->
  prefix_ci t l = true -> walks (List.length t) l.
Proof.
  induction t as [|c t IH]; intros l Ht H; [apply walks_0|].
  cbn [prefix_ci] in H. apply andb_true_iff in H. destruct H as [Hc H].
  assert (Hin : In c (inf_token ++ inity_token ++ nan_token))
    by (apply Ht; left; reflexivity).
  destruct l as [|x l].
  - cbn [hdc hd] in Hc.
    rewrite (stops_scan_letter NUL c Hin eq_refl) in Hc. discriminate.
  - cbn [hdc hd tl] in *.
    change (List.length (c :: t)) with (1 + List.length t)%nat.
    apply walks_add.
    + split; [simpl; lia|]. simpl.
      rewrite (letter_not_white_space x c Hin Hc). reflexivity.
    + apply IH; [|assumption]. intros y Hy. apply Ht. right. assumption.
Qed.

Lemma skipn_tl {A} (n : nat) (l : list A) : skipn n (tl l) = skipn (n + 1) l.
Proof. rewrite Nat.add_1_r. destruct l; [destruct n|]; reflexivity. Qed.

Lemma check_float_list_walks l : walks (snd (check_float_list l)) l.
Proof.
  unfold check_float_list.
  destruct (span_digits l) as [n1 l1] eqn:E1.
  pose proof (walks_digits _ _ _ E1) as W1.
  destruct (span_digits_length _ _ _ E1) as [Hl1 _].
  assert (Hstage2 : exists k2 n2 l2,
    (if is_decimal (hdc l1)
     then let '(n, r) := span_digits (tl l1) in (Datatypes.S n, n, r)
     else (O, O, l1)) = (k2, n2, l2)
    /\ walks k2 l1 /\ l2 = skipn k2 l1).
  { destruct (is_decimal (hdc l1)) eqn:Edec.
    - destruct (span_digits (tl l1)) as [n2 l2] eqn:E2.
      exists (Datatypes.S n2), n2, l2. split; [reflexivity|].
      destruct (walks_1 is_decimal l1 eq_refl decimal_not_white_space Edec)
        as [Wp Hp].
      destruct (span_digits_length _ _ _ E2) as [Hl2 _].
      split.
      + change (Datatypes.S n2) with (1 + n2)%nat. apply walks_add; [exact Wp|].
        rewrite Hp. eapply walks_digits; eassumption.
      + rewrite Hl2, skipn_tl. f_equal. lia.
    - exists O, O, l1. split; [reflexivity|].
      split; [apply walks_0|reflexivity]. }
  destruct Hstage2 as (k2 & n2 & l2 & -> & W2 & Hl2).
  assert (W12 : walks (n1 + k2) l).
  { apply walks_add; [assumption|]. rewrite <- Hl1. assumption. }
  assert (Hl2' : l2 = skipn (n1 + k2) l).
  { rewrite Hl2, Hl1, skipn_skipn. f_equal. lia. }
  destruct (is_e_or_E (hdc l2) && (0 <? n1 + n2)%nat) eqn:Eexp; [|exact W12].
  apply andb_true_iff in Eexp. destruct Eexp as [Ee _].
  destruct (walks_1 is_e_or_E l2 eq_refl e_not_white_space Ee) as [We He].
  destruct (span_digits (skipn (sign_len (tl l2)) (tl l2))) as [n3 l5] eqn:E3.
  cbn [snd]. pose proof (walks_digits _ _ _ E3) as W3.
  pose proof (walks_sign (tl l2)) as Ws.
  replace (n1 + k2 + 1 + sign_len (tl l2) + n3)%nat
    with ((n1 + k2) + (1 + (sign_len (tl l2) + n3)))%nat by lia.
  apply walks_add; [assumption|]. rewrite <- Hl2'.
  apply walks_add; [assumption|]. rewrite He.
  apply walks_add; assumption.
Qed.

Lemma incl_inf : incl inf_token (inf_token ++ inity_token ++ nan_token).
Proof. intros c H. apply in_or_app. left. assumption. Qed.

Lemma incl_inity : incl inity_token (inf_token ++ inity_token ++ nan_token).
Proof.
  intros c H. apply in_or_app. right. apply in_or_app. left. assumption.
Qed.

Lemma incl_nan : incl nan_token (inf_token ++ inity_token ++ nan_token).
Proof.
  intros c H. apply in_or_app. right. apply in_or_app. right. assumption.
Qed.

Lemma scan_unsigned_walks l : walks (snd (scan_unsigned l)) l.
Proof.
  unfold scan_unsigned. pose proof (check_float_list_walks l) as Hnumber.
  destruct (is_n_or_N (hdc l) || is_i_or_I (hdc l)); [|exact Hnumber].
  destruct (prefix_ci inf_token l) eqn:Einf.
  - cbn [snd]. apply walks_add.
    + apply (walks_prefix_ci inf_token l incl_inf Einf).
    + destruct (prefix_ci inity_token (skipn 3 l)) eqn:Einity.
      * apply (walks_prefix_ci inity_token _ incl_inity Einity).
      * apply walks_0.
  - destruct (prefix_ci nan_token l) eqn:Enan; [|exact Hnumber].
    apply (walks_prefix_ci nan_token l incl_nan Enan).
Qed.

Lemma scan_list_walks l : walks (snd (scan_list l)) l.
Proof.
  unfold scan_list. pose proof (walks_sign l) as Ws.
  pose proof (scan_unsigned_walks (skipn (sign_len l) l)) as Wu.
  destruct (scan_unsigned (skipn (sign_len l) l)) as [ok k]. cbn [snd] in *.
  apply walks_add; assumption.
Qed.

Lemma hd_skipn_nth {A} (d : A) (i : nat) : forall l,
  hd d (skipn i l) = nth i l d.
Proof. induction i as [|i IH]; intros [|x l]; simpl; auto. Qed.

Lemma deref_nth buf p (i : nat) :
  (i < List.length (suffix buf p))%nat ->
  deref buf (p + Z.of_nat i) = nth i (suffix buf p) NUL.
Proof.
  intros Hi. rewrite deref_suffix, suffix_skipn_le by lia.
  apply hd_skipn_nth.
Qed.

Lemma forallb_firstn_nth {A} (f : A -> bool) (d : A) (k : nat) : forall l i,
  forallb f (firstn k l) = true -> (i < k)%nat -> (i < List.length l)%nat ->
  f (nth i l d) = true.
Proof.
  induction k as [|k IH]; intros [|x l] i H Hik Hil; simpl in *; try lia.
  apply andb_true_iff in H. destruct H as [Hx H].
  destruct i as [|i]; [assumption|]. apply IH; [assumption | lia | lia].
Qed.

(** Every character between the start and the place the scanner stops at
    is a character the scanner matched: none of them is white space. *)
Lemma scanned_not_white_space buf p e q :
  p <= q < scan_stop buf p e -> is_white_space (deref buf q) = false.
Proof.
  rewrite scan_stop_list. intros Hq.
  destruct (scan_list_walks (suffix buf p)) as [Hk Hall].
  set (k := snd (scan_list (suffix buf p))) in *.
  replace q with (p + Z.of_nat (Z.to_nat (q - p))) by lia.
  rewrite deref_nth by lia.
  apply negb_true_iff.
  apply (forallb_firstn_nth (fun c => negb (is_white_space c)) NUL k);
    [assumption | lia | lia].
Qed.

(** [while]: a result means the body ran fewer times than the budget. *)
Lemma while_iterations {S : Type} (cond : S -> bool) (body : S -> S) :
  forall fuel s s', while fuel cond body s = Some s' ->
  exists n, (n < fuel)%nat /\ s' = Nat.iter n body s /\ cond s' = false.
Proof.
  induction fuel as [|fuel IH]; intros s s' H; [discriminate|].
  simpl in H. destruct (cond s) eqn:E.
  - destruct (IH _ _ H) as (n & Hn & Hs & Hc).
    exists (Datatypes.S n). split; [lia|]. split; [|assumption].
    rewrite Hs. clear. revert s. induction n as [|n IHn]; intros s.
    + reflexivity.
    + simpl. rewrite IHn. reflexivity.
  - inversion H; subst. exists O. split; [lia|].
    split; [reflexivity|assumption].
Qed.

(** C1: the scanner accepts a range only if its match, the longest prefix
    it can walk over, ends exactly at [end].  The place it stops at depends
    on the text alone, not on [end]; whenever it differs from [end]
    (characters are left over) the answer is [false], so of all the ranges
    that start at one place at most one is accepted; and a white space
    character anywhere in the range makes the answer [false]. *)
Theorem whole_range_must_match (buf : buffer) (str0 end_ : ptr) :
  (string_contains_non_overflowing_float buf str0 end_ = true ->
   scan_stop buf str0 end_ = end_)
  /\ (scan_stop buf str0 end_ <> end_ ->
      string_contains_non_overflowing_float buf str0 end_ = false)
  /\ (forall end', scan_stop buf str0 end' = scan_stop buf str0 end_)
  /\ (forall end',
        string_contains_non_overflowing_float buf str0 end_ = true ->
        string_contains_non_overflowing_float buf str0 end' = true ->
        end' = end_)
  /\ (forall q, str0 <= q < end_ -> is_white_space (deref buf q) = true ->
      string_contains_non_overflowing_float buf str0 end_ = false).
Proof.
  assert (Hacc : forall e,
            string_contains_non_overflowing_float buf str0 e = true ->
            scan_stop buf str0 e = e).
  { intros e. rewrite scanner_true_iff, scan_stop_list.
    intros [_ <-]. reflexivity. }
  split; [exact (Hacc end_)|]. split; [|split; [|split]].
  - intros Hne.
    destruct (string_contains_non_overflowing_float buf str0 end_) eqn:E;
      [|reflexivity].
    elim Hne. apply Hacc. assumption.
  - intros end'. rewrite !scan_stop_list. reflexivity.
  - intros end' H1 H2. apply Hacc in H1. apply Hacc in H2.
    rewrite scan_stop_list in H1, H2. congruence.
  - intros q Hq Hws.
    destruct (string_contains_non_overflowing_float buf str0 end_) eqn:E;
      [|reflexivity].
    specialize (Hacc end_ E).
    rewrite (scanned_not_white_space buf str0 end_ q) in Hws by lia.
    discriminate.
Qed.

Lemma iter_moves_cursor (body : locals -> locals) :
  (forall l, str (body l) = str l + 1) ->
  forall (n : nat) l, str (Nat.iter n body l) = str l + Z.of_nat n.
Proof.
  intros Hbody n l. induction n as [|n IH].
  - simpl. lia.
  - change (Nat.iter (Datatypes.S n) body l) with (body (Nat.iter n body l)).
    rewrite Hbody, IH. lia.
Qed.

(** A loop over digits returns when its budget exceeds what is left of the
    buffer, whatever its body does besides moving the cursor by one. *)
Lemma digit_loop_returns buf (body : locals -> locals) :
  (forall l, str (body l) = str l + 1) ->
  forall rest fuel l,
    suffix buf (str l) = rest -> (List.length rest < fuel)%nat ->
    exists l', while fuel (at_digit buf) body l = Some l'.
Proof.
  intros Hbody rest. induction rest as [|c rest IH]; intros fuel l Hs Hf.
  - destruct fuel; [simpl in Hf; lia|]. simpl. unfold at_digit.
    rewrite deref_suffix, Hs. simpl. eexists. reflexivity.
  - destruct fuel; [simpl in Hf; lia|]. cbn [while].
    destruct (at_digit buf l); [|eexists; reflexivity].
    destruct (suffix_cons _ _ _ _ Hs) as [_ Hnext].
    rewrite <- Hbody in Hnext.
    apply (IH fuel (body l) Hnext). simpl in Hf. lia.
Qed.

(** C8: the scanner terminates on every buffer.  With a budget of more
    iterations than the buffer has characters the run returns, with the
    same answer whatever the budget, and the cursor has moved by no more
    than the length of the buffer.  Each loop returns under this budget
    from any state, and a loop that returns has moved the cursor by one
    character for every iteration it made. *)
Theorem scanner_terminates (buf : buffer) (str0 end_ : ptr) (fuel : nat) :
  (List.length buf < fuel)%nat ->
  string_contains_non_overflowing_float_run fuel buf str0 end_
  = Some (string_contains_non_overflowing_float buf str0 end_,
          scan_stop buf str0 end_)
  /\ str0 <= scan_stop buf str0 end_ <= str0 + Z.of_nat (List.length buf)
  /\ (forall body l, body = count_digit \/ body = skip_digit ->
      exists l', while fuel (at_digit buf) body l = Some l')
  /\ (forall body (budget : nat) l l',
        body = count_digit \/ body = skip_digit ->
        while budget (at_digit buf) body l = Some l' ->
        exists n : nat, (n < budget)%nat /\ str l' = str l + Z.of_nat n).
Proof.
  intros Hf.
  assert (Hstep : forall body, body = count_digit \/ body = skip_digit ->
                  forall l, str (body l) = str l + 1).
  { intros body [-> | ->] l; reflexivity. }
  split; [|split; [|split]].
  - rewrite scan_refines, scanner_list, scan_stop_list by assumption.
    unfold scan_result. destruct (scan_list _). reflexivity.
  - rewrite scan_stop_list.
    destruct (scan_list_walks (suffix buf str0)) as [Hk _].
    pose proof (suffix_length buf str0). lia.
  - intros body l Hbody.
    apply (digit_loop_returns buf body (Hstep body Hbody) _ fuel l eq_refl).
    pose proof (suffix_length buf (str l)). lia.
  - intros body budget l l' Hbody Hrun.
    destruct (while_iterations _ _ _ _ _ Hrun) as (n & Hn & -> & _).
    exists n. split; [assumption|].
    apply iter_moves_cursor. apply Hstep. assumption.
Qed.

Lemma scanner_terminates_witness :
  string_contains_non_overflowing_float_run 8 (chars "-3.5e+7"%string) 0 7
  = Some (true, 7).
Proof.
  exact (proj1 (scanner_terminates (chars "-3.5e+7"%string) 0 7 8
                  ltac:(simpl; lia))).
Defined.

(** *** Signs and special tokens *)

Lemma scan_list_signed s rest :
  is_sign (hdc rest) = false ->
  scan_list (sign_text s ++ rest)
  = (fst (scan_unsigned rest),
     (List.length (sign_text s) + snd (scan_unsigned rest))%nat).
Proof.
  intros Hns. unfold scan_list.
  assert (Hks : sign_len (sign_text s ++ rest) = List.length (sign_text s)).
  { destruct s; [|reflexivity|reflexivity].
    unfold sign_len. simpl. rewrite Hns. reflexivity. }
  rewrite Hks, skipn_app, skipn_all, Nat.sub_diag. cbn [skipn app].
  destruct (scan_unsigned rest). reflexivity.
Qed.

Lemma letter_start c :
  is_n_or_N c || is_i_or_I c = true ->
  is_sign c = false /\ is_valid_digit c = false /\ is_decimal c = false.
Proof.
  each_char c; intros H; solve [repeat split; reflexivity | discriminate H].
Qed.

Lemma lower_i_or_n c :
  to_lower c = "i"%char \/ to_lower c = "n"%char ->
  is_n_or_N c || is_i_or_I c = true.
Proof.
  each_char c; intros [H|H]; solve [reflexivity | discriminate H].
Qed.

Lemma prefix_ci_app t : forall pre r,
  map to_lower pre = map to_lower t -> prefix_ci t (pre ++ r) = true.
Proof.
  induction t as [|c t IH]; intros pre r H; [reflexivity|].
  destruct pre as [|x pre]; [discriminate|]. simpl in H. inversion H.
  cbn [prefix_ci app hdc hd tl]. rewrite IH by assumption.
  rewrite (proj2 (Ascii.eqb_eq _ _)) by assumption. reflexivity.
Qed.

Lemma prefix_ci_split t : forall l,
  Forall (fun c => to_lower c <> NUL) t -> prefix_ci t l = true ->
  exists pre r, l = pre ++ r /\ map to_lower pre = map to_lower t.
Proof.
  induction t as [|c t IH]; intros l Ht H.
  - exists [], l. split; reflexivity.
  - inversion Ht as [|? ? Hc Ht']; subst.
    cbn [prefix_ci] in H. apply andb_true_iff in H. destruct H as [Hx H].
    apply Ascii.eqb_eq in Hx. destruct l as [|x l].
    + cbn [hdc hd] in Hx. change (to_lower NUL) with NUL in Hx.
      symmetry in Hx. contradiction.
    + cbn [hdc hd tl] in *. destruct (IH l Ht' H) as (pre & r & -> & Hmap).
      exists (x :: pre), r. split; [reflexivity|]. simpl. congruence.
Qed.

Lemma span_digits_none l :
  is_valid_digit (hdc l) = false -> span_digits l = (O, l).
Proof. destruct l as [|c l]; simpl; intros H; [|rewrite H]; reflexivity. Qed.

(** Text that begins with neither a digit nor a decimal point is no
    number. *)
Lemma check_float_list_no_number l :
  is_valid_digit (hdc l) = false -> is_decimal (hdc l) = false ->
  fst (check_float_list l) = false.
Proof.
  intros Hd Hp. unfold check_float_list.
  rewrite (span_digits_none l Hd), Hp. cbn. rewrite andb_false_r. reflexivity.
Qed.

Lemma special_token_accepted rest :
  In (map to_lower rest) special_tokens ->
  scan_unsigned rest = (true, List.length rest)
  /\ is_n_or_N (hdc rest) || is_i_or_I (hdc rest) = true.
Proof.
  intros Hin.
  assert (Hletter : is_n_or_N (hdc rest) || is_i_or_I (hdc rest) = true).
  { apply lower_i_or_n. destruct rest as [|c rest].
    - simpl in Hin. intuition discriminate.
    - simpl in Hin. cbn [hdc hd].
      destruct Hin as [H|[H|[H|[]]]]; inversion H; auto. }
  split; [|assumption].
  unfold scan_unsigned. rewrite Hletter.
  pose proof (length_map to_lower rest) as Hlen.
  destruct Hin as [H|[H|[H|[]]]]; rewrite <- H in Hlen; simpl in Hlen.
  - rewrite <- (app_nil_r rest) at 1.
    rewrite (prefix_ci_app inf_token rest []) by (symmetry; exact H).
    rewrite skipn_all2 by lia. cbn. rewrite <- Hlen. reflexivity.
  - rewrite <- (firstn_skipn 3 rest) at 1.
    rewrite (prefix_ci_app inf_token (firstn 3 rest) (skipn 3 rest))
      by (rewrite <- firstn_map, <- H; reflexivity).
    rewrite <- (app_nil_r (skipn 3 rest)).
    rewrite (prefix_ci_app inity_token (skipn 3 rest) [])
      by (rewrite <- skipn_map, <- H; reflexivity).
    rewrite <- Hlen. reflexivity.
  - destruct (prefix_ci inf_token rest) eqn:Einf.
    + destruct (prefix_ci_split inf_token rest
                  ltac:(repeat constructor; discriminate) Einf)
        as (pre & r & -> & Hmap).
      rewrite map_app, Hmap in H. discriminate H.
    + rewrite <- (app_nil_r rest) at 1.
      rewrite (prefix_ci_app nan_token rest []) by (symmetry; exact H).
      rewrite <- Hlen. reflexivity.
Qed.

Lemma special_token_only rest :
  is_n_or_N (hdc rest) || is_i_or_I (hdc rest) = true ->
  scan_unsigned rest = (true, List.length rest) ->
  In (map to_lower rest) special_tokens.
Proof.
  intros Hletter. unfold scan_unsigned. rewrite Hletter.
  pose proof token_letters as Htok.
  apply Forall_app in Htok. destruct Htok as [Hinf Htok].
  apply Forall_app in Htok. destruct Htok as [Hinity Hnan].
  assert (Hnumber : check_float_list rest = (true, List.length rest) ->
                    In (map to_lower rest) special_tokens).
  { intros H. destruct (letter_start _ Hletter) as (_ & Hd & Hp).
    pose proof (check_float_list_no_number rest Hd Hp) as Hno.
    rewrite H in Hno. discriminate Hno. }
  destruct (prefix_ci inf_token rest) eqn:Einf.
  - destruct (prefix_ci_split _ _ Hinf Einf) as (pre & r & -> & Hpre).
    pose proof (length_map to_lower pre) as Hlen.
    rewrite Hpre in Hlen. simpl in Hlen.
    replace (skipn 3 (pre ++ r)) with r
      by (rewrite skipn_app, skipn_all2, <- Hlen, Nat.sub_diag by lia;
          reflexivity).
    rewrite length_app, map_app, Hpre.
    destruct (prefix_ci inity_token r) eqn:Einity.
    + destruct (prefix_ci_split _ _ Hinity Einity) as (pre2 & r2 & -> & Hpre2).
      pose proof (length_map to_lower pre2) as Hlen2.
      rewrite Hpre2 in Hlen2. simpl in Hlen2.
      rewrite length_app, map_app, Hpre2. intros H. inversion H as [Hk].
      destruct r2; [|simpl in Hk; lia].
      right. left. reflexivity.
    + intros H. inversion H as [Hk].
      destruct r; [|simpl in Hk; lia].
      left. reflexivity.
  - destruct (prefix_ci nan_token rest) eqn:Enan; [|exact Hnumber].
    destruct (prefix_ci_split _ _ Hnan Enan) as (pre & r & -> & Hpre).
    pose proof (length_map to_lower pre) as Hlen.
    rewrite Hpre in Hlen. simpl in Hlen.
    rewrite length_app, map_app, Hpre. intros H. inversion H as [Hk].
    destruct r; [|simpl in Hk; lia].
    right. right. left. reflexivity.
Qed.

(** C4: behind an optional single sign, text that case-insensitively
    equals "inf", "infinity" or "nan" and fills the whole range is
    accepted; and text that begins like a special token (with the letter i
    or n) is accepted only if it is one of these three spellings, so a
    shorter or longer spelling is rejected. *)
Theorem special_token_spellings (s : sign_mark) (rest : list char) :
  let buf := sign_text s ++ rest in
  let end_ := Z.of_nat (List.length buf) in
  (In (map to_lower rest) special_tokens ->
   string_contains_non_overflowing_float buf 0 end_ = true)
  /\ (is_n_or_N (hdc rest) || is_i_or_I (hdc rest) = true ->
      string_contains_non_overflowing_float buf 0 end_ = true ->
      In (map to_lower rest) special_tokens).
Proof.
  cbv zeta. split.
  - intros Hin. destruct (special_token_accepted rest Hin) as [Hscan Hletter].
    destruct (letter_start _ Hletter) as [Hns _].
    apply scanner_true_iff.
    rewrite suffix_0, scan_list_signed, Hscan by assumption.
    cbn [fst snd]. rewrite length_app. split; [reflexivity | lia].
  - intros Hletter Hacc. destruct (letter_start _ Hletter) as [Hns _].
    apply scanner_true_iff in Hacc.
    rewrite suffix_0, scan_list_signed in Hacc by assumption.
    cbn [fst snd] in Hacc. destruct Hacc as [Hok Hk].
    rewrite length_app in Hk.
    apply special_token_only; [assumption|].
    destruct (scan_unsigned rest) as [ok k]. cbn [fst snd] in *.
    f_equal; [assumption | lia].
Qed.

Lemma special_token_spellings_witness :
  string_contains_non_overflowing_float (chars "-iNfIniTY"%string) 0 9 = true
  /\ In (map to_lower (chars "NaN"%string)) special_tokens.
Proof.
  split.
  - apply (proj1 (special_token_spellings MinusSign (chars "iNfIniTY"%string))).
    right. left. reflexivity.
  - apply (proj2 (special_token_spellings PlusSign (chars "NaN"%string)));
      reflexivity.
Defined.

Example inf_truncated :
  string_contains_non_overflowing_float (chars "infinit"%string) 0 7 = false.
Proof. reflexivity. Qed.
Example inf_extended :
  string_contains_non_overflowing_float (chars "infinityy"%string) 0 9 = false.
Proof. reflexivity. Qed.
Example nan_extended :
  string_contains_non_overflowing_float (chars "nans"%string) 0 4 = false.
Proof. reflexivity. Qed.

(** *** The scanner on float literals *)

Lemma span_digits_app ds : forall r,
  all_digits ds = true -> is_valid_digit (hdc r) = false ->
  span_digits (ds ++ r) = (List.length ds, r).
Proof.
  induction ds as [|c ds IH]; intros r Hds Hr.
  - apply span_digits_none. assumption.
  - simpl in Hds. apply andb_true_iff in Hds. destruct Hds as [Hc Hds].
    simpl. rewrite Hc, IH by assumption. reflexivity.
Qed.

Lemma hdc_app (P : char -> bool) ds r :
  forallb P ds = true -> P (hdc r) = true -> P (hdc (ds ++ r)) = true.
Proof.
  destruct ds as [|c ds]; simpl; intros H Hr; [assumption|].
  apply andb_true_iff in H. tauto.
Qed.

Lemma exponent_start_tests c :
  exponent_start c = true -> is_valid_digit c = false /\ is_decimal c = false.
Proof. each_char c; intros H; solve [split; reflexivity | discriminate H]. Qed.

Lemma fraction_start_tests c :
  fraction_start c = true -> is_valid_digit c = false.
Proof. each_char c; intros H; solve [reflexivity | discriminate H]. Qed.

Lemma number_start_tests c :
  number_start c = true ->
  is_sign c = false /\ is_n_or_N c || is_i_or_I c = false.
Proof. each_char c; intros H; solve [split; reflexivity | discriminate H]. Qed.

Lemma digits_end_tests c : digits_end c = true -> is_sign c = false.
Proof. each_char c; intros H; solve [reflexivity | discriminate H]. Qed.

Lemma stops_scan_exponent c :
  stops_scan c = true -> is_e_or_E c = false /\ exponent_start c = true.
Proof. each_char c; intros H; solve [split; reflexivity | discriminate H]. Qed.

Lemma all_digits_class (P : char -> bool) ds :
  (forall c, is_valid_digit c = true -> P c = true) ->
  all_digits ds = true -> forallb P ds = true.
Proof.
  intros HP H. unfold all_digits in H. rewrite forallb_forall in *.
  intros c Hc. apply HP. apply H. assumption.
Qed.

Section Literal.

Variable lit : float_literal.
Variable tail : list char.
Hypothesis shaped : well_shaped lit = true.
Hypothesis tail_stops : stops_scan (hdc tail) = true.

Let Hint_digits : all_digits (int_digits lit) = true.
Proof.
  unfold well_shaped in shaped. rewrite !andb_true_iff in shaped. tauto.
Qed.

Let Hfrac_digits : all_digits (frac_digits lit) = true.
Proof.
  unfold well_shaped in shaped. rewrite !andb_true_iff in shaped. tauto.
Qed.

Lemma exponent_text_start :
  exponent_start (hdc (exponent_text lit ++ tail)) = true.
Proof.
  unfold exponent_text. unfold well_shaped in shaped.
  destruct (exponent lit) as [x|].
  - rewrite !andb_true_iff in shaped. destruct shaped as [_ [He _]].
    cbn [app hdc hd]. unfold exponent_start. rewrite He. reflexivity.
  - apply stops_scan_exponent. assumption.
Qed.

Lemma frac_text_start :
  fraction_start (hdc (frac_text lit ++ exponent_text lit ++ tail)) = true.
Proof.
  unfold frac_text. destruct (frac_part lit); [reflexivity|].
  cbn [app]. unfold fraction_start. rewrite exponent_text_start.
  apply orb_true_r.
Qed.

Lemma number_text_start :
  number_start
    (hdc (int_digits lit ++ frac_text lit ++ exponent_text lit ++ tail)) = true.
Proof.
  apply hdc_app.
  - apply all_digits_class; [|exact Hint_digits].
    intros c Hc. unfold number_start. rewrite Hc. reflexivity.
  - unfold number_start. rewrite frac_text_start. apply orb_true_r.
Qed.

(** The exponent stage of [check_float_list] on the text of an exponent. *)
Lemma exponent_stage (x : exponent_part) :
  all_digits (exp_digits x) = true ->
  let l3 := sign_text (exp_sign x) ++ exp_digits x ++ tail in
  span_digits (skipn (sign_len l3) l3)
  = (List.length (exp_digits x), tail)
  /\ sign_len l3 = List.length (sign_text (exp_sign x)).
Proof.
  intros Hd l3.
  assert (Hend : is_sign (hdc (exp_digits x ++ tail)) = false).
  { apply digits_end_tests. apply hdc_app.
    - apply all_digits_class; [|exact Hd].
      intros c Hc. unfold digits_end. rewrite Hc. reflexivity.
    - unfold digits_end. rewrite tail_stops. apply orb_true_r. }
  assert (Hks : sign_len l3 = List.length (sign_text (exp_sign x))).
  { unfold l3. destruct (exp_sign x); [|reflexivity|reflexivity].
    unfold sign_len. cbn [sign_text app]. rewrite Hend. reflexivity. }
  split; [|exact Hks]. rewrite Hks. unfold l3.
  rewrite skipn_app, skipn_all, Nat.sub_diag. cbn [skipn app].
  apply span_digits_app; [assumption|].
  apply (stops_scan_tests _ tail_stops).
Qed.

(** The scanner on the text of a literal, followed by text that stops it:
    it accepts the literal as a whole exactly if the literal is valid and
    the digit count passes. *)
Lemma scan_literal :
  let '(ok, k) := scan_list (render lit ++ tail) in
  ok && (k =? List.length (render lit))%nat
  = valid_literal lit && few_digits lit.
Proof.
  unfold render. rewrite <- !app_assoc.
  destruct (number_start_tests _ number_text_start) as [Hns Hletter].
  rewrite scan_list_signed by exact Hns. unfold scan_unsigned.
  rewrite Hletter. unfold check_float_list.
  rewrite (span_digits_app (int_digits lit) _ Hint_digits
             (fraction_start_tests _ frac_text_start)).
  pose proof exponent_text_start as Hexp.
  destruct (exponent_start_tests _ Hexp) as [Hexp_d Hexp_p].
  assert (Hstage2 :
    (if is_decimal (hdc (frac_text lit ++ exponent_text lit ++ tail))
     then let '(n, r) :=
            span_digits (tl (frac_text lit ++ exponent_text lit ++ tail)) in
          (Datatypes.S n, n, r)
     else (O, O, frac_text lit ++ exponent_text lit ++ tail))
    = (List.length (frac_text lit), List.length (frac_digits lit),
       exponent_text lit ++ tail)).
  { unfold frac_text, frac_digits in *. destruct (frac_part lit) as [ds|].
    - cbn [app hdc hd tl]. change (is_decimal "."%char) with true. cbv iota.
      rewrite (span_digits_app ds _ Hfrac_digits Hexp_d). reflexivity.
    - cbn [app]. rewrite Hexp_p. reflexivity. }
  rewrite Hstage2. fold (mantissa_digits lit). fold (few_digits lit).
  unfold valid_literal, exponent_text in *. unfold well_shaped in shaped.
  destruct (exponent lit) as [x|].
  - rewrite !andb_true_iff in shaped. destruct shaped as [_ [He Hd]].
    cbn [app hdc hd tl]. rewrite He. cbn [andb fst snd].
    destruct (0 <? mantissa_digits lit)%nat; cbn [andb fst snd].
    + destruct (exponent_stage x Hd) as [Hsp Hks]. cbv zeta in Hsp, Hks.
      rewrite <- (app_assoc (sign_text (exp_sign x))).
      rewrite Hsp, Hks. cbn [fst snd].
      rewrite !length_app. cbn [List.length]. rewrite length_app.
      replace (_ =? _)%nat with true; [apply andb_true_r|].
      symmetry. apply Nat.eqb_eq. lia.
    + reflexivity.
  - cbn [app]. rewrite (proj1 (stops_scan_exponent _ tail_stops)).
    cbn [andb fst snd]. rewrite !length_app. cbn [List.length].
    replace (_ =? _)%nat with true; [rewrite !andb_true_r; reflexivity|].
    symmetry. apply Nat.eqb_eq. lia.
Qed.

End Literal.

(** A literal standing in a buffer, behind the text [pre] and in front of
    text that stops the scanner (white space, or nothing). *)
Lemma scanner_literal pre lit tail :
  well_shaped lit = true -> stops_scan (hdc tail) = true ->
  string_contains_non_overflowing_float (pre ++ render lit ++ tail)
    (whole pre) (whole pre + whole (render lit))
  = valid_literal lit && few_digits lit.
Proof.
  intros Hshape Htail. rewrite scanner_list. unfold scan_result, whole.
  rewrite suffix_app.
  pose proof (scan_literal lit tail Hshape Htail) as H.
  destruct (scan_list (render lit ++ tail)) as [ok k].
  cbn [fst]. rewrite <- H. f_equal.
  destruct (Nat.eqb_spec k (List.length (render lit))) as [Heq|Hne].
  - apply Z.eqb_eq. lia.
  - apply Z.eqb_neq. lia.
Qed.

(** C5: a literal with an exponent marker is accepted only if a digit
    stands somewhere before the marker and at least one digit follows the
    marker and its optional sign; and a literal whose decimal point has no
    digit on either side is not accepted.  The literal may stand anywhere
    in the buffer, with white space or the end of the text behind it. *)
Theorem exponent_and_point_need_digits (pre tail : list char)
  (lit : float_literal) :
  well_shaped lit = true -> stops_scan (hdc tail) = true ->
  string_contains_non_overflowing_float (pre ++ render lit ++ tail)
    (whole pre) (whole pre + whole (render lit)) = true ->
  (forall x, exponent lit = Some x ->
     int_digits lit ++ frac_digits lit <> [] /\ exp_digits x <> [])
  /\ ~ (int_digits lit = [] /\ frac_part lit = Some []).
Proof.
  intros Hshape Htail Hacc. rewrite scanner_literal in Hacc by assumption.
  apply andb_true_iff in Hacc. destruct Hacc as [Hvalid _].
  unfold valid_literal, mantissa_digits in Hvalid.
  apply andb_true_iff in Hvalid. destruct Hvalid as [Hm He].
  apply Nat.ltb_lt in Hm. split.
  - intros x Hx. rewrite Hx in He. apply Nat.ltb_lt in He. split.
    + intros Hnil. apply (f_equal (@List.length char)) in Hnil.
      rewrite length_app in Hnil. simpl in Hnil. lia.
    + intros Hnil. rewrite Hnil in He. simpl in He. lia.
  - intros [Hi Hf]. unfold frac_digits in Hm. rewrite Hi, Hf in Hm.
    simpl in Hm. lia.
Qed.

Lemma exponent_and_point_need_digits_witness :
  chars " "%string ++ render literal_1p5em3 ++ chars " "%string
  = chars " 1.5e-3 "%string
  /\ (forall x, exponent literal_1p5em3 = Some x ->
        int_digits literal_1p5em3 ++ frac_digits literal_1p5em3 <> []
        /\ exp_digits x <> []).
Proof.
  split; [reflexivity|].
  exact (proj1 (exponent_and_point_need_digits (chars " "%string)
                  (chars " "%string) literal_1p5em3
                  eq_refl eq_refl eq_refl)).
Defined.

Example bare_point :
  string_contains_non_overflowing_float (chars "."%string) 0 1 = false.
Proof. reflexivity. Qed.
Example point_then_exponent :
  string_contains_non_overflowing_float (chars ".e5"%string) 0 3 = false.
Proof. reflexivity. Qed.
Example exponent_alone :
  string_contains_non_overflowing_float (chars "-e5"%string) 0 3 = false.
Proof. reflexivity. Qed.
Example exponent_without_digits :
  string_contains_non_overflowing_float (chars "1e+"%string) 0 3 = false.
Proof. reflexivity. Qed.
Example digits_after_point_only :
  string_contains_non_overflowing_float (chars ".5E5"%string) 0 4 = true.
Proof. reflexivity. Qed.
Example digits_before_point_only :
  string_contains_non_overflowing_float (chars "1.e5"%string) 0 4 = true.
Proof. reflexivity. Qed.

(** *** The digit count and the value of a literal *)

(** C2, as stated, fails: a valid literal of sixteen digits fits a double
    by far and is rejected, and the valid literal 1e999 exceeds every
    double and is accepted. *)
Lemma answer_is_not_the_magnitude :
  (well_shaped literal_16_digits && valid_literal literal_16_digits = true
   /\ fits_double literal_16_digits = true
   /\ string_contains_non_overflowing_float (render literal_16_digits) 0
        (whole (render literal_16_digits)) = false)
  /\ (well_shaped literal_1e999 && valid_literal literal_1e999 = true
      /\ fits_double literal_1e999 = false
      /\ string_contains_non_overflowing_float (render literal_1e999) 0
           (whole (render literal_1e999)) = true).
Proof. repeat split; vm_compute; reflexivity. Qed.

(** C2, amended: for a literal of the shape of the grammar whose digits an
    [unsigned] can count, the scanner answers [true] exactly if the literal
    is valid (a digit before any exponent, a digit in the exponent) and its
    mantissa has fewer than [DBL_DIG] digits.  The value of the literal
    plays no part.  The literal may stand anywhere in the buffer, with
    white space or the end of the text behind it. *)
Theorem accepted_iff_few_digits (pre tail : list char) (lit : float_literal) :
  well_shaped lit = true -> stops_scan (hdc tail) = true ->
  Z.of_nat (mantissa_digits lit) <= UINT_MAX ->
  string_contains_non_overflowing_float (pre ++ render lit ++ tail)
    (whole pre) (whole pre + whole (render lit)) = true
  <-> valid_literal lit = true /\ Z.of_nat (mantissa_digits lit) < DBL_DIG.
Proof.
  intros Hshape Htail Hcount. rewrite scanner_literal by assumption.
  rewrite andb_true_iff. unfold few_digits.
  rewrite wrap_unsigned_small, Z.ltb_lt by lia. reflexivity.
Qed.

Lemma accepted_iff_few_digits_witness :
  string_contains_non_overflowing_float (chars "  1.5e-3 "%string) 2 8 = true
  <-> valid_literal literal_1p5em3 = true
      /\ Z.of_nat (mantissa_digits literal_1p5em3) < DBL_DIG.
Proof.
  exact (accepted_iff_few_digits (chars "  "%string) (chars " "%string)
           literal_1p5em3 eq_refl eq_refl ltac:(vm_compute; discriminate)).
Defined.

(** *** White space behind the text

    White space appended to a text changes nothing for the scanner: it
    stops at the first white space character as it stops at the
    terminating NUL. *)

Lemma hdc_white_space w :
  all_white_space w = true -> stops_scan (hdc w) = true.
Proof.
  destruct w as [|c w]; [reflexivity|]. simpl. intros H.
  apply andb_true_iff in H. unfold stops_scan. destruct H as [-> _].
  reflexivity.
Qed.

Lemma test_app_white_space (f : char -> bool) l w :
  (forall c, stops_scan c = true -> f c = false) ->
  all_white_space w = true -> f (hdc (l ++ w)) = f (hdc l).
Proof.
  intros Hf Hw. destruct l as [|x l]; [|reflexivity].
  cbn [app]. rewrite (Hf _ (hdc_white_space w Hw)).
  symmetry. apply Hf. reflexivity.
Qed.

Lemma tl_app_white_space (f : char -> bool) l (w : list char) :
  f NUL = false -> f (hdc l) = true -> tl (l ++ w) = tl l ++ w.
Proof.
  intros H0 H. destruct (hdc_true_cons f l H0 H) as [r ->]. reflexivity.
Qed.

Lemma span_digits_app_white_space w : forall l,
  all_white_space w = true ->
  span_digits (l ++ w)
  = (fst (span_digits l), snd (span_digits l) ++ w).
Proof.
  intros l Hw. induction l as [|c l IH].
  - apply span_digits_none.
    apply (stops_scan_tests _ (hdc_white_space w Hw)).
  - simpl. destruct (is_valid_digit c); [|reflexivity].
    rewrite IH. destruct (span_digits l). reflexivity.
Qed.

Lemma sign_app_white_space l w :
  all_white_space w = true ->
  sign_len (l ++ w) = sign_len l
  /\ skipn (sign_len l) (l ++ w) = skipn (sign_len l) l ++ w.
Proof.
  intros Hw. unfold sign_len.
  rewrite (test_app_white_space is_sign l w) by
    (try assumption; intros c Hc; apply (stops_scan_tests c Hc)).
  split; [reflexivity|].
  destruct (is_sign (hdc l)) eqn:E; [|reflexivity].
  destruct (hdc_true_cons is_sign l eq_refl E) as [r ->]. reflexivity.
Qed.

Lemma prefix_ci_app_white_space w t : forall l,
  incl t (inf_token ++ inity_token ++ nan_token) ->
  all_white_space w = true -> prefix_ci t (l ++ w) = prefix_ci t l.
Proof.
  induction t as [|c t IH]; intros l Ht Hw; [reflexivity|].
  assert (Hin : In c (inf_token ++ inity_token ++ nan_token))
    by (apply Ht; left; reflexivity).
  cbn [prefix_ci]. destruct l as [|x l].
  - cbn [app hdc hd].
    rewrite (stops_scan_letter _ c Hin (hdc_white_space w Hw)).
    rewrite (stops_scan_letter NUL c Hin eq_refl). reflexivity.
  - cbn [app hdc hd tl]. rewrite IH; [reflexivity| |assumption].
    intros y Hy. apply Ht. right. assumption.
Qed.

Lemma check_float_list_app_white_space l w :
  all_white_space w = true ->
  check_float_list (l ++ w) = check_float_list l.
Proof.
  intros Hw. unfold check_float_list.
  rewrite span_digits_app_white_space by assumption.
  destruct (span_digits l) as [n1 l1]. cbn [fst snd].
  rewrite (test_app_white_space is_decimal l1 w) by
    (try assumption; intros c Hc; apply (stops_scan_tests c Hc)).
  assert (Hstage2 :
    (if is_decimal (hdc l1)
     then let '(n, r) := span_digits (tl (l1 ++ w)) in (Datatypes.S n, n, r)
     else (O, O, l1 ++ w))
    = (let '(k2, n2, l2) :=
         (if is_decimal (hdc l1)
          then let '(n, r) := span_digits (tl l1) in (Datatypes.S n, n, r)
          else (O, O, l1)) in
       (k2, n2, l2 ++ w))).
  { destruct (is_decimal (hdc l1)) eqn:Edec; [|reflexivity].
    rewrite (tl_app_white_space is_decimal l1 w eq_refl Edec).
    rewrite span_digits_app_white_space by assumption.
    destruct (span_digits (tl l1)). reflexivity. }
  rewrite Hstage2. clear Hstage2.
  destruct (if is_decimal (hdc l1)
            then let '(n, r) := span_digits (tl l1) in (Datatypes.S n, n, r)
            else (O, O, l1)) as [[k2 n2] l2].
  rewrite (test_app_white_space is_e_or_E l2 w) by
    (try assumption; intros c Hc; apply (stops_scan_tests c Hc)).
  destruct (is_e_or_E (hdc l2)) eqn:Ee; [|reflexivity].
  rewrite (tl_app_white_space is_e_or_E l2 w eq_refl Ee).
  destruct (sign_app_white_space (tl l2) w Hw) as [-> ->].
  rewrite span_digits_app_white_space by assumption.
  destruct (span_digits (skipn (sign_len (tl l2)) (tl l2))). reflexivity.
Qed.

Lemma scan_unsigned_app_white_space l w :
  all_white_space w = true -> scan_unsigned (l ++ w) = scan_unsigned l.
Proof.
  intros Hw. unfold scan_unsigned.
  rewrite (test_app_white_space (fun c => is_n_or_N c || is_i_or_I c) l w) by
    (try assumption; intros c Hc;
     destruct (stops_scan_tests c Hc) as (_ & _ & _ & _ & -> & ->);
     reflexivity).
  rewrite check_float_list_app_white_space by assumption.
  rewrite (prefix_ci_app_white_space w inf_token l incl_inf Hw).
  rewrite (prefix_ci_app_white_space w nan_token l incl_nan Hw).
  destruct (is_n_or_N (hdc l) || is_i_or_I (hdc l)); [|reflexivity].
  destruct (prefix_ci inf_token l) eqn:Einf; [|reflexivity].
  destruct (walks_prefix_ci inf_token l incl_inf Einf) as [Hlen _].
  rewrite skipn_app.
  replace (3 - List.length l)%nat with 0%nat by (simpl in Hlen; lia).
  cbn [skipn].
  rewrite (prefix_ci_app_white_space w inity_token _ incl_inity Hw).
  reflexivity.
Qed.

Lemma scan_list_app_white_space l w :
  all_white_space w = true -> scan_list (l ++ w) = scan_list l.
Proof.
  intros Hw. unfold scan_list.
  destruct (sign_app_white_space l w Hw) as [-> ->].
  rewrite scan_unsigned_app_white_space by assumption. reflexivity.
Qed.

(** *** strip_whitespace *)

Lemma drop_white_space_split l :
  exists w, l = w ++ drop_white_space l /\ all_white_space w = true.
Proof.
  induction l as [|c l (w & Hl & Hw)]; [exists []; auto|].
  simpl. destruct (is_white_space c) eqn:E.
  - exists (c :: w). split; [simpl; congruence|]. simpl. rewrite E. assumption.
  - exists []. auto.
Qed.

Lemma drop_white_space_head l :
  is_white_space (hdc (drop_white_space l)) = false.
Proof.
  induction l as [|c l IH]; [reflexivity|].
  simpl. destruct (is_white_space c) eqn:E; assumption.
Qed.

Lemma drop_white_space_app w r :
  all_white_space w = true -> is_white_space (hdc r) = false ->
  drop_white_space (w ++ r) = r.
Proof.
  intros Hw Hr. induction w as [|c w IH].
  - destruct r as [|x r]; [reflexivity|]. simpl in *. rewrite Hr. reflexivity.
  - simpl in *. apply andb_true_iff in Hw. destruct Hw as [-> Hw]. auto.
Qed.

(** A text is white space, its trimmed form, and white space. *)
Lemma trim_split s :
  exists w1 w2, s = w1 ++ trim s ++ w2
    /\ all_white_space w1 = true /\ all_white_space w2 = true
    /\ is_white_space (hdc (trim s)) = false
    /\ (trim s = [] /\ w2 = []
        \/ exists core z, trim s = core ++ [z] /\ is_white_space z = false).
Proof.
  unfold trim.
  destruct (drop_white_space_split s) as (w1 & Hs & Hw1).
  pose proof (drop_white_space_head s) as Hhead.
  set (d := drop_white_space s) in *.
  destruct (drop_white_space_split (rev d)) as (w2r & Hd & Hw2).
  pose proof (drop_white_space_head (rev d)) as Hlast.
  set (t := drop_white_space (rev d)) in *.
  assert (Hd' : d = rev t ++ rev w2r).
  { rewrite <- rev_app_distr, <- Hd, rev_involutive. reflexivity. }
  assert (Hw2' : all_white_space (rev w2r) = true).
  { unfold all_white_space in *. rewrite forallb_forall in *.
    intros c Hc. apply Hw2. apply in_rev. assumption. }
  destruct t as [|z rt] eqn:Et.
  - exists w1, []. cbn [rev app] in *.
    assert (Hnil : rev w2r = []).
    { destruct (rev w2r) as [|c r] eqn:Er; [reflexivity|].
      rewrite Hd' in Hhead. cbn [hdc hd] in Hhead.
      simpl in Hw2'. rewrite Hhead in Hw2'. discriminate. }
    rewrite Hnil in Hd'. rewrite Hs, Hd'. repeat split; auto.
  - exists w1, (rev w2r). rewrite Hs at 1. rewrite Hd' at 1.
    repeat split; auto.
    + cbn [rev]. rewrite Hd' in Hhead. cbn [rev] in Hhead.
      destruct (rev rt); exact Hhead || (cbn [app hdc hd] in *; exact Hhead).
    + right. exists (rev rt), z. split; [reflexivity|]. exact Hlast.
Qed.

Lemma consume_white_space_at buf l : forall fuel p,
  suffix buf p = l -> (List.length l < fuel)%nat ->
  consume_white_space fuel buf p
  = Some (p + Z.of_nat (List.length l - List.length (drop_white_space l))).
Proof.
  unfold consume_white_space.
  induction l as [|c l IH]; intros fuel p Hs Hf.
  - destruct fuel; [simpl in Hf; lia|]. simpl.
    rewrite deref_suffix, Hs. simpl. rewrite Z.add_0_r. reflexivity.
  - destruct fuel; [simpl in Hf; lia|]. cbn [while].
    rewrite deref_suffix, Hs. cbn [hdc hd drop_white_space].
    destruct (is_white_space c).
    + destruct (suffix_cons _ _ _ _ Hs) as [_ Hnext].
      rewrite (IH fuel (p + 1) Hnext) by (simpl in Hf; lia).
      f_equal. cbn [List.length].
      assert (List.length (drop_white_space l) <= List.length l)%nat.
      { destruct (drop_white_space_split l) as (w & Hl & _).
        rewrite Hl at 2. rewrite length_app. lia. }
      lia.
    + rewrite Nat.sub_diag, Z.add_0_r. reflexivity.
Qed.

(** The backward loop of [strip_whitespace]. *)
Lemma while_back buf start : forall (k fuel : nat) e0,
  (k < fuel)%nat ->
  (forall i : nat, (i < k)%nat ->
     is_white_space (deref buf (e0 - Z.of_nat i)) = true
     /\ start <> e0 - Z.of_nat i) ->
  is_white_space (deref buf (e0 - Z.of_nat k))
  && negb (start =? e0 - Z.of_nat k) = false ->
  while fuel (fun e => is_white_space (deref buf e) && negb (start =? e))
    (fun e => e - 1) e0
  = Some (e0 - Z.of_nat k).
Proof.
  induction k as [|k IH]; intros fuel e0 Hf Hrun Hstop.
  - destruct fuel; [lia|]. simpl in *. rewrite Z.sub_0_r in *.
    rewrite Hstop. reflexivity.
  - destruct fuel; [lia|]. cbn [while].
    destruct (Hrun O ltac:(lia)) as [Hws Hne].
    simpl in Hws, Hne. rewrite Z.sub_0_r in Hws, Hne. rewrite Hws.
    apply Z.eqb_neq in Hne. rewrite Hne. cbn [andb negb].
    rewrite (IH fuel (e0 - 1)).
    + f_equal. lia.
    + lia.
    + intros i Hi. destruct (Hrun (Datatypes.S i) ltac:(lia)) as [H1 H2].
      replace (e0 - 1 - Z.of_nat i) with (e0 - Z.of_nat (Datatypes.S i)) by lia.
      split; assumption.
    + replace (e0 - 1 - Z.of_nat k) with (e0 - Z.of_nat (Datatypes.S k)) by lia.
      assumption.
Qed.

Lemma deref_app a b i :
  0 <= i -> deref (a ++ b) (Z.of_nat (List.length a) + i) = deref b i.
Proof.
  intros Hi. rewrite !deref_suffix. f_equal.
  replace i with (0 + Z.of_nat (Z.to_nat i)) at 2 by lia.
  replace (Z.of_nat (List.length a) + i)
    with (Z.of_nat (List.length a) + Z.of_nat (Z.to_nat i)) by lia.
  rewrite !suffix_skipn, suffix_app by lia. reflexivity.
Qed.

Lemma deref_white_space w i :
  all_white_space w = true -> 0 <= i < Z.of_nat (List.length w) ->
  is_white_space (deref w i) = true.
Proof.
  intros Hw Hi. unfold deref. destruct (Z.ltb_spec i 0); [lia|].
  unfold all_white_space in Hw. rewrite forallb_forall in Hw.
  apply Hw. apply nth_In. lia.
Qed.

Lemma drop_white_space_blank w :
  all_white_space w = true -> drop_white_space w = [].
Proof.
  intros Hw. rewrite <- (app_nil_r w).
  apply drop_white_space_app; [assumption | reflexivity].
Qed.

(** On a text of white space only, the two cursors cross. *)
Lemma strip_whitespace_blank w :
  all_white_space w = true ->
  strip_whitespace (scan_fuel w) w 0 (whole w) = Some (whole w, 0).
Proof.
  intros Hw. unfold strip_whitespace, whole, scan_fuel.
  rewrite (consume_white_space_at w w _ 0 (suffix_0 w)) by lia.
  rewrite drop_white_space_blank by assumption. cbn [bind List.length].
  rewrite (while_back w _ (List.length w)).
  - cbn [bind]. do 2 f_equal; lia.
  - lia.
  - intros i Hi. split; [|lia].
    apply deref_white_space; [assumption | lia].
  - replace (0 + Z.of_nat (List.length w) - 1 - Z.of_nat (List.length w))
      with (-1) by lia.
    reflexivity.
Qed.

(** On a text with something else than white space in it, the cursors
    come to stand at the two ends of the trimmed form. *)
Lemma strip_whitespace_padded w1 core z w2 :
  all_white_space w1 = true -> all_white_space w2 = true ->
  is_white_space (hdc (core ++ [z])) = false -> is_white_space z = false ->
  let s := w1 ++ (core ++ [z]) ++ w2 in
  strip_whitespace (scan_fuel s) s 0 (whole s)
  = Some (whole w1, whole w1 + whole (core ++ [z])).
Proof.
  intros Hw1 Hw2 Hhead Hz s. unfold strip_whitespace, whole, scan_fuel.
  rewrite (consume_white_space_at s s _ 0 (suffix_0 s)) by lia.
  assert (Hdrop : drop_white_space s = (core ++ [z]) ++ w2).
  { unfold s. apply drop_white_space_app; [assumption|].
    destruct core; exact Hhead. }
  rewrite Hdrop. cbn [bind].
  assert (Hlen :
    List.length s
    = (List.length w1 + (List.length core + 1 + List.length w2))%nat).
  { unfold s. rewrite !length_app. simpl. lia. }
  rewrite (while_back s _ (List.length w2)).
  - cbn [bind]. rewrite !length_app, Hlen. cbn [List.length].
    do 2 f_equal; lia.
  - lia.
  - intros i Hi. rewrite !length_app, Hlen. cbn [List.length]. split; [|lia].
    unfold s.
    replace (0 + Z.of_nat (List.length w1
                           + (List.length core + 1 + List.length w2)) - 1
             - Z.of_nat i)
      with (Z.of_nat (List.length w1)
            + (Z.of_nat (List.length (core ++ [z]))
               + (Z.of_nat (List.length w2) - 1 - Z.of_nat i)))
      by (rewrite length_app; simpl; lia).
    rewrite !deref_app by lia.
    apply deref_white_space; [assumption | lia].
  - apply andb_false_iff. left. rewrite Hlen. unfold s.
    replace (0 + Z.of_nat (List.length w1
                           + (List.length core + 1 + List.length w2)) - 1
             - Z.of_nat (List.length w2))
      with (Z.of_nat (List.length w1) + (Z.of_nat (List.length core) + 0))
      by lia.
    rewrite <- !app_assoc. rewrite !deref_app by lia. exact Hz.
Qed.

Lemma drop_white_space_front w l :
  all_white_space w = true -> drop_white_space (w ++ l) = drop_white_space l.
Proof.
  intros Hw. induction w as [|c w IH]; [reflexivity|].
  simpl in *. apply andb_true_iff in Hw. destruct Hw as [-> Hw]. auto.
Qed.

Lemma drop_white_space_back l w :
  all_white_space w = true ->
  drop_white_space (l ++ w)
  = match drop_white_space l with [] => [] | d => d ++ w end.
Proof.
  intros Hw. induction l as [|c l IH].
  - apply drop_white_space_blank. assumption.
  - simpl. destruct (is_white_space c); [assumption | reflexivity].
Qed.

(** White space around a text does not change its trimmed form. *)
Lemma trim_padding w1 s w2 :
  all_white_space w1 = true -> all_white_space w2 = true ->
  trim (w1 ++ s ++ w2) = trim s.
Proof.
  intros Hw1 Hw2. unfold trim.
  rewrite drop_white_space_front, drop_white_space_back by assumption.
  destruct (drop_white_space s) as [|c d]; [reflexivity|].
  rewrite rev_app_distr, drop_white_space_front; [reflexivity|].
  unfold all_white_space in *. rewrite forallb_forall in *.
  intros x Hx. apply Hw2. apply in_rev. assumption.
Qed.

(** The scanner on a text between the cursors [strip_whitespace] leaves. *)
Lemma scanner_stripped (s : buffer) :
  exists start end_,
    strip_whitespace (scan_fuel s) s 0 (whole s) = Some (start, end_)
    /\ string_contains_non_overflowing_float s start end_
       = (let '(ok, k) := scan_list (trim s) in
          ok && (k =? List.length (trim s))%nat).
Proof.
  destruct (trim_split s) as (w1 & w2 & Hs & Hw1 & Hw2 & Hhead & Hshape).
  destruct Hshape as [[Hnil ->] | (core & z & Hcore & Hz)].
  - rewrite Hnil, app_nil_r in Hs. cbn [app] in Hs. subst w1.
    exists (whole s), 0. split; [apply strip_whitespace_blank; assumption|].
    rewrite Hnil, scanner_list. unfold whole.
    replace (suffix s (Z.of_nat (List.length s))) with (@nil char)
      by (symmetry; rewrite <- (app_nil_r s) at 1; apply suffix_app).
    reflexivity.
  - exists (whole w1), (whole w1 + whole (trim s)). split.
    + rewrite Hs at 1 2 3. rewrite Hcore in *.
      apply strip_whitespace_padded; assumption.
    + rewrite scanner_list. unfold whole.
      replace (suffix s (Z.of_nat (List.length w1))) with (trim s ++ w2)
        by (symmetry; rewrite Hs at 1; apply suffix_app).
      rewrite scan_list_app_white_space by assumption.
      unfold scan_result. destruct (scan_list (trim s)) as [ok k].
      cbn [fst]. f_equal.
      destruct (Nat.eqb_spec k (List.length (trim s))).
      * apply Z.eqb_eq. lia.
      * apply Z.eqb_neq. lia.
Qed.

(** If [length] counted the terminating NUL as well, [strip_whitespace]
    would leave [end] behind the NUL and the scanner would accept nothing:
    the [length] handed to the macro is the number of characters of the
    text. *)
Lemma length_counts_characters (s : buffer) :
  exists start end_,
    strip_whitespace (scan_fuel s) s 0 (whole s + 1) = Some (start, end_)
    /\ string_contains_non_overflowing_float s start end_ = false.
Proof.
  unfold strip_whitespace, scan_fuel, whole.
  rewrite (consume_white_space_at s s _ 0 (suffix_0 s)) by lia.
  cbn [bind].
  set (start := 0 + Z.of_nat (List.length s
                              - List.length (drop_white_space s))).
  rewrite (while_back s start 0).
  - cbn [bind]. eexists. eexists. split; [reflexivity|].
    match goal with |- ?b = false => destruct b eqn:E end; [|reflexivity].
    apply scanner_true_iff in E. destruct E as [_ E].
    destruct (scan_list_walks (suffix s start)) as [Hk _].
    assert (Hstart : 0 <= start <= Z.of_nat (List.length s))
      by (unfold start; lia).
    clearbody start.
    assert (Hlen : (List.length (suffix s start)
                    <= List.length s - Z.to_nat start)%nat).
    { unfold suffix. destruct (Z.ltb_spec start 0); [lia|].
      rewrite length_skipn. lia. }
    lia.
  - lia.
  - intros i Hi. lia.
  - apply andb_false_iff. left.
    replace (0 + (Z.of_nat (List.length s) + 1) - 1 - Z.of_nat 0)
      with (Z.of_nat (List.length s)) by lia.
    rewrite deref_suffix.
    replace (suffix s (Z.of_nat (List.length s))) with (@nil char)
      by (symmetry; rewrite <- (app_nil_r s) at 1; apply suffix_app).
    reflexivity.
Qed.

Lemma is_white_space_range c :
  is_white_space c = true <-> c = " "%char \/ 9 <= code c <= 13.
Proof.
  unfold is_white_space. rewrite orb_true_iff, andb_true_iff.
  rewrite Ascii.eqb_eq, !Z.leb_le. reflexivity.
Qed.

(** C6: white space is the space character and the characters from tab to
    carriage return.  White space at the front or at the back of a text
    does not change what the scanner answers on the range
    [strip_whitespace] hands it ([length] being the number of characters of
    the text): the answer on the padded text is the answer on the trimmed
    form of the text. *)
Theorem white_space_is_ignored (w1 s w2 : list char) :
  all_white_space w1 = true -> all_white_space w2 = true ->
  (forall c, is_white_space c = true <-> c = " "%char \/ 9 <= code c <= 13)
  /\ let padded := w1 ++ s ++ w2 in
     exists start end_ start' end',
       strip_whitespace (scan_fuel padded) padded 0 (whole padded)
       = Some (start, end_)
       /\ strip_whitespace (scan_fuel (trim s)) (trim s) 0 (whole (trim s))
          = Some (start', end')
       /\ string_contains_non_overflowing_float padded start end_
          = string_contains_non_overflowing_float (trim s) start' end'.
Proof.
  intros Hw1 Hw2. split; [exact is_white_space_range|]. intros padded.
  destruct (scanner_stripped padded) as (a & e & Hstrip & Hscan).
  destruct (scanner_stripped (trim s)) as (a' & e' & Hstrip' & Hscan').
  exists a, e, a', e'. split; [assumption|]. split; [assumption|].
  assert (Hidem : trim (trim s) = trim s).
  { destruct (trim_split s) as (u1 & u2 & Hs & Hu1 & Hu2 & _).
    rewrite Hs at 2. symmetry. apply trim_padding; assumption. }
  rewrite Hscan, Hscan', Hidem. unfold padded.
  rewrite trim_padding by assumption. reflexivity.
Qed.

Lemma white_space_is_ignored_witness :
  exists start end_ start' end',
    strip_whitespace 10 (chars "  -3.50  "%string) 0 9 = Some (start, end_)
    /\ strip_whitespace 6 (chars "-3.50"%string) 0 5 = Some (start', end')
    /\ string_contains_non_overflowing_float (chars "  -3.50  "%string)
         start end_
       = string_contains_non_overflowing_float (chars "-3.50"%string)
           start' end'.
Proof.
  exact (proj2 (white_space_is_ignored (chars "  "%string)
                  (chars "-3.50"%string) (chars "  "%string)
                  eq_refl eq_refl)).
Defined.

Example strip_example :
  strip_whitespace 10 (chars "  -3.50  "%string) 0 9 = Some (2, 7).
Proof. reflexivity. Qed.
Example white_space_characters :
  map is_white_space (chars " 	x"%string) = [true; true; false]
  /\ is_white_space "013"%char = true /\ is_white_space "014"%char = false
  /\ is_white_space "008"%char = false.
Proof. repeat split. Qed.

(** *** What the scanner accepts is in the grammar *)

Lemma sign_of_split l :
  l = sign_text (sign_of l) ++ skipn (sign_len l) l
  /\ List.length (sign_text (sign_of l)) = sign_len l.
Proof.
  unfold sign_of, sign_len, is_sign.
  destruct (is_positive_sign (hdc l)) eqn:Ep.
  - destruct (hdc_true_cons is_positive_sign l eq_refl Ep) as [r Hr].
    apply Ascii.eqb_eq in Ep. rewrite Ep in Hr. rewrite orb_true_r, Hr.
    split; reflexivity.
  - destruct (is_negative_sign (hdc l)) eqn:En.
    + destruct (hdc_true_cons is_negative_sign l eq_refl En) as [r Hr].
      apply Ascii.eqb_eq in En. rewrite En in Hr. rewrite Hr.
      split; reflexivity.
    + split; reflexivity.
Qed.

Lemma skipn_length_app {A} (a b : list A) : skipn (List.length a) (a ++ b) = b.
Proof. rewrite skipn_app, skipn_all, Nat.sub_diag. reflexivity. Qed.

Lemma span_digits_split l n r :
  span_digits l = (n, r) ->
  l = firstn n l ++ r /\ all_digits (firstn n l) = true
  /\ List.length (firstn n l) = n.
Proof.
  intros H. destruct (span_digits_length _ _ _ H) as [-> Hle].
  split; [symmetry; apply firstn_skipn|].
  split; [exact (span_digits_all _ _ _ H)|].
  apply firstn_length_le. assumption.
Qed.

(** [check_float_list] on any text: it walks over the text of
    [literal_at], and accepts it exactly if this literal is valid and has
    few digits. *)
Lemma check_float_list_literal (s : sign_mark) (l : list char) :
  let lit := literal_at s l in
  let k := snd (check_float_list l) in
  well_shaped lit = true /\ lit_sign lit = s
  /\ fst (check_float_list l) = valid_literal lit && few_digits lit
  /\ l = body_text lit ++ skipn k l
  /\ k = List.length (body_text lit).
Proof.
  cbv zeta. unfold literal_at, check_float_list.
  destruct (span_digits l) as [n1 l1] eqn:E1.
  destruct (span_digits_split _ _ _ E1) as (Hl & Hd1 & Hn1).
  set (d1 := firstn n1 l) in *.
  assert (Hstage2 : exists frac k2 n2 l2,
    (if is_decimal (hdc l1)
     then let '(n, r) := span_digits (tl l1) in (Some (firstn n (tl l1)), n, r)
     else (None, O, l1)) = (frac, n2, l2)
    /\ (if is_decimal (hdc l1)
        then let '(n, r) := span_digits (tl l1) in (Datatypes.S n, n, r)
        else (O, O, l1)) = (k2, n2, l2)
    /\ l1 = match frac with Some ds => @cons char "."%char ds | None => @nil char end ++ l2
    /\ all_digits (match frac with Some ds => ds | None => [] end) = true
    /\ List.length (match frac with Some ds => ds | None => [] end) = n2
    /\ List.length (match frac with Some ds => @cons char "."%char ds | None => @nil char end)
       = k2).
  { destruct (is_decimal (hdc l1)) eqn:Edec.
    - destruct (hdc_true_cons is_decimal l1 eq_refl Edec) as [t Ht].
      apply Ascii.eqb_eq in Edec. rewrite Edec in Ht. rewrite Ht. cbn [tl].
      destruct (span_digits t) as [n2 l2] eqn:E2.
      destruct (span_digits_split _ _ _ E2) as (Ht2 & Hd2 & Hn2).
      exists (Some (firstn n2 t)), (Datatypes.S n2), n2, l2.
      repeat split; try assumption.
      + change (@cons char "."%char t = "."%char :: (firstn n2 t ++ l2)).
        f_equal. exact Ht2.
      + cbn [List.length]. f_equal. exact Hn2.
    - exists None, O, O, l1. repeat split. }
  destruct Hstage2 as (frac & k2 & n2 & l2 & -> & -> & Hl1 & Hd2 & Hn2 & Hk2).
  unfold well_shaped, valid_literal, few_digits, mantissa_digits, body_text,
    frac_digits, frac_text, exponent_text.
  cbn [lit_sign int_digits frac_part exponent].
  rewrite Hd1, Hd2, Hn1, Hn2. cbn [andb].
  destruct (is_e_or_E (hdc l2) && (0 <? n1 + n2)%nat) eqn:Eexp.
  - apply andb_true_iff in Eexp. destruct Eexp as [Ee Hv].
    destruct (hdc_true_cons is_e_or_E l2 eq_refl Ee) as [l3 Hl3].
    replace (tl l2) with l3 by (rewrite Hl3; reflexivity).
    destruct (sign_of_split l3) as [Hsg Hks].
    destruct (span_digits (skipn (sign_len l3) l3)) as [n3 l5] eqn:E3.
    destruct (span_digits_split _ _ _ E3) as (Hl4 & Hd3 & Hn3).
    cbn [exp_marker exp_sign exp_digits fst snd].
    rewrite Ee, Hd3, Hn3, Hv. cbn [andb].
    assert (Hall : l = (d1 ++ match frac with
                               | Some ds => @cons char "."%char ds
                               | None => @nil char
                               end
                          ++ hdc l2 :: sign_text (sign_of l3)
                          ++ firstn n3 (skipn (sign_len l3) l3)) ++ l5).
    { rewrite Hl at 1. rewrite Hl1 at 1. rewrite Hl3 at 1.
      rewrite Hsg at 1. rewrite Hl4 at 1.
      rewrite <- !app_assoc. cbn [app]. rewrite <- !app_assoc.
      reflexivity. }
    assert (Hlen : List.length
                     (d1 ++ match frac with
                            | Some ds => @cons char "."%char ds
                            | None => @nil char
                            end
                      ++ hdc l2 :: sign_text (sign_of l3)
                      ++ firstn n3 (skipn (sign_len l3) l3))
                   = (n1 + k2 + 1 + sign_len l3 + n3)%nat).
    { rewrite !length_app. cbn [List.length]. rewrite length_app.
      rewrite Hk2, Hks, Hn3. fold d1 in Hn1. rewrite Hn1. lia. }
    repeat split.
    + rewrite <- Hlen. etransitivity; [exact Hall|]. f_equal.
      rewrite Hall. symmetry. apply skipn_length_app.
    + symmetry. exact Hlen.
  - cbn [fst snd]. rewrite app_nil_r.
    assert (Hvalid : (0 <? n1 + n2)%nat && true = (0 <? n1 + n2)%nat)
      by apply andb_true_r.
    rewrite Hvalid.
    assert (Hall : l = (d1 ++ match frac with
                               | Some ds => @cons char "."%char ds
                               | None => @nil char
                               end) ++ l2).
    { rewrite Hl at 1. rewrite Hl1 at 1. rewrite <- app_assoc. reflexivity. }
    assert (Hlen : List.length
                     (d1 ++ match frac with
                            | Some ds => @cons char "."%char ds
                            | None => @nil char
                            end) = (n1 + k2)%nat).
    { rewrite length_app, Hk2. fold d1 in Hn1. rewrite Hn1. reflexivity. }
    repeat split.
    + rewrite <- Hlen. etransitivity; [exact Hall|]. f_equal.
      rewrite Hall. symmetry. apply skipn_length_app.
    + symmetry. exact Hlen.
Qed.

Lemma firstn_length_app {A} (a b : list A) : firstn (List.length a) (a ++ b) = a.
Proof.
  rewrite firstn_app, firstn_all, Nat.sub_diag. cbn [firstn].
  apply app_nil_r.
Qed.

Lemma scan_unsigned_inv l0 :
  fst (scan_unsigned l0) = true ->
  In (map to_lower (firstn (snd (scan_unsigned l0)) l0)) special_tokens
  \/ scan_unsigned l0 = check_float_list l0.
Proof.
  unfold scan_unsigned.
  destruct (is_n_or_N (hdc l0) || is_i_or_I (hdc l0)); [|right; reflexivity].
  pose proof token_letters as Htok.
  apply Forall_app in Htok. destruct Htok as [Hinf Htok].
  apply Forall_app in Htok. destruct Htok as [Hinity Hnan].
  destruct (prefix_ci inf_token l0) eqn:Einf.
  - intros _. left.
    destruct (prefix_ci_split _ _ Hinf Einf) as (pre & r & -> & Hpre).
    pose proof (length_map to_lower pre) as Hlen.
    rewrite Hpre in Hlen. simpl in Hlen.
    replace (skipn 3 (pre ++ r)) with r
      by (rewrite Hlen; symmetry; apply skipn_length_app).
    destruct (prefix_ci inity_token r) eqn:Einity.
    + destruct (prefix_ci_split _ _ Hinity Einity) as (pre2 & r2 & -> & Hpre2).
      pose proof (length_map to_lower pre2) as Hlen2.
      rewrite Hpre2 in Hlen2. simpl in Hlen2. cbn [snd].
      replace (3 + 5)%nat with (List.length (pre ++ pre2))
        by (rewrite length_app; lia).
      rewrite app_assoc, firstn_length_app, map_app, Hpre, Hpre2.
      right. left. reflexivity.
    + cbn [snd]. replace (3 + 0)%nat with (List.length pre) by lia.
      rewrite firstn_length_app, Hpre. left. reflexivity.
  - destruct (prefix_ci nan_token l0) eqn:Enan; [|right; reflexivity].
    intros _. left.
    destruct (prefix_ci_split _ _ Hnan Enan) as (pre & r & -> & Hpre).
    pose proof (length_map to_lower pre) as Hlen.
    rewrite Hpre in Hlen. simpl in Hlen. cbn [snd].
    rewrite Hlen, firstn_length_app, Hpre. right. right. left. reflexivity.
Qed.

Lemma render_body s l :
  render (literal_at s l) = sign_text s ++ body_text (literal_at s l).
Proof.
  unfold render, body_text.
  destruct (check_float_list_literal s l) as (_ & -> & _). reflexivity.
Qed.

(** The text [scan_list] accepts, taken apart. *)
Lemma scan_list_inv l :
  fst (scan_list l) = true ->
  let k := snd (scan_list l) in
  let l0 := skipn (sign_len l) l in
  (0 < k <= List.length l)%nat
  /\ ((exists rest, firstn k l = sign_text (sign_of l) ++ rest
                    /\ In (map to_lower rest) special_tokens)
      \/ (firstn k l = render (literal_at (sign_of l) l0)
          /\ valid_literal (literal_at (sign_of l) l0) = true
          /\ few_digits (literal_at (sign_of l) l0) = true)).
Proof.
  intros Hok. cbv zeta.
  destruct (scan_list_walks l) as [Hle _].
  destruct (sign_of_split l) as [Hsplit Hks].
  unfold scan_list in *.
  set (l0 := skipn (sign_len l) l) in *.
  pose proof (scan_unsigned_inv l0) as Hinv.
  destruct (scan_unsigned l0) as [ok k'] eqn:Eu. cbn [fst snd] in *.
  specialize (Hinv Hok).
  assert (Hfirst : firstn (sign_len l + k') l
                   = sign_text (sign_of l) ++ firstn k' l0).
  { rewrite firstn_plus. fold l0. f_equal.
    transitivity (firstn (List.length (sign_text (sign_of l)))
                    (sign_text (sign_of l) ++ l0));
      [|apply firstn_length_app].
    rewrite Hks. f_equal. exact Hsplit. }
  destruct Hinv as [Htoken | Hnumber].
  - split.
    + split; [|assumption].
      destruct k'; [|lia].
      simpl in Htoken. intuition discriminate.
    + left. exists (firstn k' l0). split; assumption.
  - destruct (check_float_list_literal (sign_of l) l0)
      as (_ & _ & Hfst & Hbody & Hk).
    cbv zeta in *. rewrite <- Hnumber in Hfst, Hbody, Hk.
    cbn [fst snd] in *. rewrite Hok in Hfst. symmetry in Hfst.
    apply andb_true_iff in Hfst. destruct Hfst as [Hvalid Hfew].
    assert (Hpos : (0 < k')%nat).
    { rewrite Hk. unfold valid_literal, mantissa_digits in Hvalid.
      apply andb_true_iff in Hvalid. destruct Hvalid as [Hm _].
      apply Nat.ltb_lt in Hm. unfold body_text, frac_text, frac_digits in *.
      rewrite !length_app.
      destruct (frac_part (literal_at (sign_of l) l0)); simpl in *; lia. }
    split; [lia|]. right. split; [|split; assumption].
    rewrite Hfirst, render_body. f_equal.
    rewrite Hbody at 1. rewrite Hk. apply firstn_length_app.
Qed.

(** X1: whatever the scanner accepts is in the grammar.  An accepted range
    is not empty and lies within the text; its characters are an optional
    sign followed by one of the three special tokens (up to case), or they
    are the text of a valid float literal whose digit count passes. *)
Theorem accepted_text_is_in_grammar (buf : buffer) (str0 end_ : ptr) :
  string_contains_non_overflowing_float buf str0 end_ = true ->
  str0 < end_ <= str0 + Z.of_nat (List.length (suffix buf str0))
  /\ ((exists s rest,
         range_text buf str0 end_ = sign_text s ++ rest
         /\ In (map to_lower rest) special_tokens)
      \/ (exists lit,
            range_text buf str0 end_ = render lit
            /\ well_shaped lit = true /\ valid_literal lit = true
            /\ few_digits lit = true)).
Proof.
  intros Hacc. apply scanner_true_iff in Hacc. destruct Hacc as [Hok He].
  destruct (scan_list_inv _ Hok) as [Hk Hshape]. cbv zeta in *.
  unfold range_text.
  replace (Z.to_nat (end_ - str0))
    with (snd (scan_list (suffix buf str0))) by lia.
  split; [lia|].
  destruct Hshape as [(rest & Htext & Hin) | (Htext & Hvalid & Hfew)].
  - left. exists (sign_of (suffix buf str0)), rest. split; assumption.
  - right. eexists. split; [exact Htext|].
    split; [|split; assumption].
    apply check_float_list_literal.
Qed.

Lemma accepted_text_is_in_grammar_witness :
  exists lit,
    range_text (chars " -1.5e3 "%string) 1 7 = render lit
    /\ well_shaped lit = true /\ valid_literal lit = true
    /\ few_digits lit = true.
Proof.
  destruct (accepted_text_is_in_grammar (chars " -1.5e3 "%string) 1 7 eq_refl)
    as [_ [(s & rest & Htext & Hin) | Hlit]]; [|exact Hlit].
  exfalso. destruct s; simpl in Htext; inversion Htext; subst;
    simpl in Hin; intuition discriminate.
Defined.

(** X2: an empty range, or one whose cursors have crossed, is never
    accepted, whatever the buffer holds. *)
Theorem empty_range_is_rejected (buf : buffer) (str0 end_ : ptr) :
  end_ <= str0 -> string_contains_non_overflowing_float buf str0 end_ = false.
Proof.
  intros Hle.
  destruct (string_contains_non_overflowing_float buf str0 end_) eqn:E;
    [|reflexivity].
  apply scanner_true_iff in E. destruct E as [Hok He].
  destruct (scan_list_inv _ Hok) as [Hk _]. cbv zeta in Hk. lia.
Qed.

Lemma empty_range_is_rejected_witness :
  string_contains_non_overflowing_float (chars "12"%string) 1 1 = false.
Proof.
  exact (empty_range_is_rejected (chars "12"%string) 1 1 ltac:(lia)).
Defined.

(** *** The sign, the digit count *)

(** X3: one leading sign changes nothing.  For a text that does not begin
    with a sign itself, the answer on the text behind a sign is the answer
    on the text alone, the range being as much longer as the sign is. *)
Theorem leading_sign_changes_nothing (s : sign_mark) (rest : list char)
  (end_ : ptr) :
  is_sign (hdc rest) = false ->
  string_contains_non_overflowing_float (sign_text s ++ rest) 0
    (whole (sign_text s) + end_)
  = string_contains_non_overflowing_float rest 0 end_.
Proof.
  intros Hns. rewrite !scanner_list, !suffix_0.
  rewrite (scan_list_signed s rest Hns).
  change rest with (sign_text NoSign ++ rest) at 3.
  rewrite (scan_list_signed NoSign rest Hns).
  unfold scan_result, whole. cbn [sign_text List.length fst Nat.add].
  f_equal. destruct (Z.eqb_spec (0 + Z.of_nat (snd (scan_unsigned rest))) end_).
  - apply Z.eqb_eq. lia.
  - apply Z.eqb_neq. lia.
Qed.

Lemma leading_sign_changes_nothing_witness :
  string_contains_non_overflowing_float (chars "-1.5"%string) 0 4
  = string_contains_non_overflowing_float (chars "1.5"%string) 0 3.
Proof.
  exact (leading_sign_changes_nothing MinusSign (chars "1.5"%string) 3
           eq_refl).
Defined.

Lemma digits_value_bound ds : forall acc,
  all_digits ds = true -> 0 <= acc ->
  0 <= fold_left (fun a c => 10 * a + digit_value c) ds acc
    < (acc + 1) * 10 ^ Z.of_nat (List.length ds).
Proof.
  induction ds as [|c ds IH]; intros acc Hds Hacc.
  - simpl. lia.
  - simpl in Hds. apply andb_true_iff in Hds. destruct Hds as [Hc Hds].
    assert (Hd : 0 <= digit_value c <= 9).
    { unfold is_valid_digit in Hc. apply andb_true_iff in Hc.
      destruct Hc as [H1 H2]. apply Z.leb_le in H1, H2.
      unfold digit_value. change (code "0"%char) with 48 in *.
      change (code "9"%char) with 57 in *. lia. }
    cbn [fold_left List.length]. rewrite Nat2Z.inj_succ, Z.pow_succ_r by lia.
    specialize (IH (10 * acc + digit_value c) Hds ltac:(lia)).
    assert (Hp : 0 < 10 ^ Z.of_nat (List.length ds))
      by (apply Z.pow_pos_nonneg; lia).
    nia.
Qed.

(** X4: what the digit count is for.  The mantissa of an accepted literal,
    read as an integer, is below 10^14 and so below 2^53: a double holds it
    exactly. *)
Theorem accepted_mantissa_is_exact (pre tail : list char)
  (lit : float_literal) :
  well_shaped lit = true -> stops_scan (hdc tail) = true ->
  Z.of_nat (mantissa_digits lit) <= UINT_MAX ->
  string_contains_non_overflowing_float (pre ++ render lit ++ tail)
    (whole pre) (whole pre + whole (render lit)) = true ->
  0 <= literal_mantissa lit < 10 ^ 14 /\ literal_mantissa lit < 2 ^ 53.
Proof.
  intros Hshape Htail Hcount Hacc.
  rewrite scanner_literal in Hacc by assumption.
  apply andb_true_iff in Hacc. destruct Hacc as [_ Hfew].
  unfold few_digits in Hfew. rewrite wrap_unsigned_small in Hfew by lia.
  apply Z.ltb_lt in Hfew. unfold DBL_DIG in Hfew.
  assert (Hds : all_digits (int_digits lit ++ frac_digits lit) = true).
  { unfold well_shaped in Hshape. rewrite !andb_true_iff in Hshape.
    destruct Hshape as [[Hi Hf] _]. unfold all_digits in *.
    rewrite forallb_app, Hi, Hf. reflexivity. }
  pose proof (digits_value_bound _ 0 Hds ltac:(lia)) as Hb.
  fold (digits_value (int_digits lit ++ frac_digits lit)) in Hb.
  fold (literal_mantissa lit) in Hb.
  rewrite length_app in Hb. unfold mantissa_digits in Hfew.
  assert (Hpow : 10 ^ Z.of_nat (List.length (int_digits lit)
                                + List.length (frac_digits lit))
                 <= 10 ^ 14) by (apply Z.pow_le_mono_r; lia).
  assert (H53 : 10 ^ 14 < 2 ^ 53) by reflexivity.
  lia.
Qed.

Lemma accepted_mantissa_is_exact_witness :
  0 <= literal_mantissa literal_1p5em3 < 10 ^ 14
  /\ literal_mantissa literal_1p5em3 < 2 ^ 53.
Proof.
  exact (accepted_mantissa_is_exact [] [] literal_1p5em3 eq_refl eq_refl
           ltac:(vm_compute; discriminate) eq_refl).
Defined.

(** X5: the digit count is kept in an [unsigned] and wraps around.  With
    [UINT_MAX + 1] more zeros in front of its digits a literal gets the
    answer it got without them, so a literal of more than 2^32 digits can
    be accepted. *)
Theorem digit_count_wraps_around (pre tail : list char) (lit : float_literal)
  (n : nat) :
  well_shaped lit = true -> stops_scan (hdc tail) = true ->
  (0 < mantissa_digits lit)%nat -> Z.of_nat n = UINT_MAX + 1 ->
  string_contains_non_overflowing_float
    (pre ++ render (pad_zeros n lit) ++ tail)
    (whole pre) (whole pre + whole (render (pad_zeros n lit)))
  = string_contains_non_overflowing_float (pre ++ render lit ++ tail)
      (whole pre) (whole pre + whole (render lit)).
Proof.
  intros Hshape Htail Hpos Hn.
  assert (Hlen : List.length (int_digits (pad_zeros n lit))
                 = (n + List.length (int_digits lit))%nat).
  { unfold pad_zeros. cbn [int_digits].
    rewrite length_app, repeat_length. reflexivity. }
  assert (Hshape' : well_shaped (pad_zeros n lit) = true).
  { unfold well_shaped in *. rewrite !andb_true_iff in *.
    destruct Hshape as [[Hi Hf] He].
    split; [split|]; [|exact Hf|exact He].
    unfold pad_zeros, all_digits in *. cbn [int_digits].
    rewrite forallb_app, Hi, andb_true_r.
    apply forallb_forall. intros c Hc. apply repeat_spec in Hc. subst c.
    reflexivity. }
  rewrite !scanner_literal by assumption.
  unfold valid_literal, few_digits, mantissa_digits in *.
  rewrite Hlen. change (frac_digits (pad_zeros n lit)) with (frac_digits lit).
  change (exponent (pad_zeros n lit)) with (exponent lit).
  apply Nat.ltb_lt in Hpos. rewrite Hpos.
  assert (Hpos' : (0 <? n + List.length (int_digits lit)
                        + List.length (frac_digits lit))%nat = true)
    by (apply Nat.ltb_lt; apply Nat.ltb_lt in Hpos; lia).
  rewrite Hpos'. f_equal. f_equal. unfold wrap_unsigned.
  rewrite <- Nat.add_assoc, Nat2Z.inj_add, Hn.
  rewrite <- Z.add_mod_idemp_l by (unfold UINT_MAX; lia).
  rewrite Z.mod_same by (unfold UINT_MAX; lia). reflexivity.
Qed.

Lemma digit_count_wraps_around_witness :
  string_contains_non_overflowing_float
    ([] ++ render (pad_zeros (Z.to_nat (UINT_MAX + 1)) literal_1p5em3) ++ [])
    (whole [])
    (whole []
     + whole (render (pad_zeros (Z.to_nat (UINT_MAX + 1)) literal_1p5em3)))
  = string_contains_non_overflowing_float
      ([] ++ render literal_1p5em3 ++ []) (whole [])
      (whole [] + whole (render literal_1p5em3)).
Proof.
  exact (digit_count_wraps_around [] [] literal_1p5em3
           (Z.to_nat (UINT_MAX + 1)) eq_refl eq_refl
           (Nat.lt_0_succ 1)
           (Z2Nat.id (UINT_MAX + 1)
              (Z.lt_le_incl 0 (UINT_MAX + 1) (eq_refl Lt)))).
Defined.

(** *** The macros *)

Lemma deref_app_left a b i :
  0 <= i < Z.of_nat (List.length a) -> deref (a ++ b) i = deref a i.
Proof.
  intros Hi. unfold deref. destruct (Z.ltb_spec i 0); [lia|].
  apply app_nth1. lia.
Qed.

(** The forward loop of [strip_whitespace], on a text with memory in front
    of it. *)
Lemma forward_to_non_white_space front w rest (fuel : nat) :
  all_white_space w = true -> is_white_space (hdc rest) = false ->
  (List.length (w ++ rest) < fuel)%nat ->
  consume_white_space fuel (front ++ w ++ rest) (whole front)
  = Some (whole front + whole w).
Proof.
  intros Hw Hrest Hf. unfold whole.
  rewrite (consume_white_space_at _ (w ++ rest) fuel _ (suffix_app front _))
    by exact Hf.
  rewrite (drop_white_space_app w rest Hw Hrest), length_app.
  do 2 f_equal. lia.
Qed.

(** The backward loop of [strip_whitespace]: it walks over white space down
    to the character [z] that is none, unless it meets the start cursor on
    its way. *)
Lemma back_to_non_white_space a z w rest (start : ptr) (fuel : nat) :
  is_white_space z = false -> all_white_space w = true ->
  (List.length w < fuel)%nat ->
  start <= whole a \/ whole a + whole w < start ->
  while fuel
    (fun e => is_white_space (deref (a ++ z :: w ++ rest) e)
              && negb (start =? e))
    (fun e => e - 1) (whole a + whole w)
  = Some (whole a).
Proof.
  intros Hz Hw Hf Hstart. unfold whole in *.
  rewrite (while_back _ _ (List.length w)).
  - f_equal. lia.
  - exact Hf.
  - intros i Hi. split; [|lia].
    replace (Z.of_nat (List.length a) + Z.of_nat (List.length w) - Z.of_nat i)
      with (Z.of_nat (List.length a)
            + (Z.of_nat (List.length [z])
               + (Z.of_nat (List.length w) - 1 - Z.of_nat i)))
      by (cbn [List.length]; lia).
    change (z :: w ++ rest) with ([z] ++ w ++ rest).
    rewrite !deref_app by (cbn [List.length]; lia).
    rewrite deref_app_left by lia.
    apply deref_white_space; [assumption | lia].
  - apply andb_false_iff. left.
    replace (Z.of_nat (List.length a) + Z.of_nat (List.length w)
             - Z.of_nat (List.length w))
      with (Z.of_nat (List.length a) + 0) by lia.
    rewrite deref_app by lia. exact Hz.
Qed.

Lemma not_blank_trim s : all_white_space s = false -> trim s <> [].
Proof.
  intros Hs Hnil.
  destruct (trim_split s) as (w1 & w2 & Hsplit & Hw1 & Hw2 & _).
  rewrite Hnil in Hsplit. cbn [app] in Hsplit.
  rewrite Hsplit in Hs. unfold all_white_space in *.
  rewrite forallb_app, Hw1, Hw2 in Hs. discriminate Hs.
Qed.

(** X6: [strip_whitespace] finds the trimmed form of a text that is not
    white space only, whatever is stored in front of the text and behind
    it: it returns, both cursors stand within the text, the start cursor
    in front of the end cursor, and the characters between them are the
    text without the white space at its front and back. *)
Theorem strip_whitespace_finds_trimmed_text (before s behind : list char) :
  all_white_space s = false ->
  exists start end_,
    strip_whitespace (scan_fuel (before ++ s ++ behind))
      (before ++ s ++ behind) (whole before) (whole s)
    = Some (start, end_)
    /\ whole before <= start < end_
    /\ end_ <= whole before + whole s
    /\ range_text (before ++ s ++ behind) start end_ = trim s.
Proof.
  intros Hs. pose proof (not_blank_trim s Hs) as Hne.
  destruct (trim_split s) as (w1 & w2 & Hsplit & Hw1 & Hw2 & Hhead & Hshape).
  destruct Hshape as [[Hnil _] | (core & z & Hcore & Hz)]; [contradiction|].
  remember (before ++ s ++ behind) as buf eqn:Hbuf.
  assert (Hbuf1 : buf = before ++ w1 ++ (trim s ++ w2 ++ behind)).
  { rewrite Hbuf. rewrite Hsplit at 1. rewrite <- !app_assoc. reflexivity. }
  assert (Hbuf2 : buf = (before ++ w1 ++ core) ++ z :: w2 ++ behind).
  { rewrite Hbuf1, Hcore. rewrite <- !app_assoc. reflexivity. }
  assert (Hlen : List.length s
                 = (List.length w1 + (List.length core + 1
                                      + List.length w2))%nat).
  { rewrite Hsplit at 1. rewrite Hcore, !length_app. simpl. lia. }
  assert (Hlt : List.length (trim s) = (List.length core + 1)%nat)
    by (rewrite Hcore, length_app; reflexivity).
  assert (Hbl : List.length buf
                = (List.length before + List.length s
                   + List.length behind)%nat)
    by (rewrite Hbuf, !length_app; lia).
  clear Hbuf.
  exists (whole before + whole w1),
         (whole before + whole w1 + whole (trim s)).
  split; [|unfold whole; repeat split; try lia].
  - unfold strip_whitespace.
    assert (Hfuel : (List.length buf < scan_fuel buf)%nat)
      by (unfold scan_fuel; lia).
    revert Hfuel. generalize (scan_fuel buf). intros fuel Hfuel.
    rewrite Hbuf1 at 1.
    rewrite forward_to_non_white_space.
    + unfold bind at 1. cbv beta iota. rewrite Hbuf2.
      replace (whole before + whole s - 1)
        with (whole (before ++ w1 ++ core) + whole w2)
        by (unfold whole; rewrite !length_app; lia).
      rewrite back_to_non_white_space.
      * cbn [bind]. unfold whole. rewrite !length_app. do 2 f_equal. lia.
      * exact Hz.
      * exact Hw2.
      * lia.
      * left. unfold whole. rewrite !length_app. lia.
    + exact Hw1.
    + rewrite Hcore in Hhead |- *. destruct core; exact Hhead.
    + rewrite Hbl, !length_app in *. lia.
  - unfold range_text.
    replace (suffix buf (Z.of_nat (List.length before)
                         + Z.of_nat (List.length w1)))
      with (trim s ++ w2 ++ behind).
    + replace (Z.to_nat (Z.of_nat (List.length before)
                         + Z.of_nat (List.length w1)
                         + Z.of_nat (List.length (trim s))
                         - (Z.of_nat (List.length before)
                            + Z.of_nat (List.length w1))))
        with (List.length (trim s)) by lia.
      apply firstn_length_app.
    + symmetry. rewrite Hbuf1, app_assoc, <- Nat2Z.inj_add, <- length_app.
      apply suffix_app.
Qed.

Lemma strip_whitespace_finds_trimmed_text_witness :
  exists start end_,
    strip_whitespace 10 (chars "x   12 yz"%string) 2 5 = Some (start, end_)
    /\ 2 <= start < end_
    /\ end_ <= 2 + 5
    /\ range_text (chars "x   12 yz"%string) start end_ = chars "12"%string.
Proof.
  exact (strip_whitespace_finds_trimmed_text (chars "x "%string)
           (chars "  12 "%string) (chars "yz"%string) eq_refl).
Defined.

(** X21: on a text of white space only, [strip_whitespace] leaves the
    start cursor on the NUL that ends the text and walks the end cursor
    back out of the text: over the text, over the white space that is
    stored in front of it, to just behind the first other character
    there.  The cursors have crossed, and where the end cursor stands is
    decided by what is stored in front of the text. *)
Theorem blank_text_is_left_at_its_front (before : list char) (c : char)
  (w s behind : list char) :
  is_white_space c = false -> all_white_space w = true ->
  all_white_space s = true ->
  strip_whitespace
    (scan_fuel (before ++ c :: w ++ s ++ NUL :: behind))
    (before ++ c :: w ++ s ++ NUL :: behind)
    (whole before + 1 + whole w) (whole s)
  = Some (whole before + 1 + whole w + whole s, whole before + 1).
Proof.
  intros Hc Hw Hs.
  remember (before ++ c :: w ++ s ++ NUL :: behind) as buf eqn:Hbuf.
  assert (Hbuf1 : buf = (before ++ c :: w) ++ s ++ NUL :: behind).
  { rewrite Hbuf, <- app_assoc. reflexivity. }
  assert (Hbuf2 : buf = before ++ c :: (w ++ s) ++ NUL :: behind).
  { rewrite Hbuf, <- app_assoc. reflexivity. }
  assert (Hbl : List.length buf
                = (List.length before + 1 + List.length w + List.length s
                   + 1 + List.length behind)%nat).
  { rewrite Hbuf, !length_app. cbn [List.length].
    rewrite !length_app. cbn [List.length]. lia. }
  clear Hbuf.
  unfold strip_whitespace.
  assert (Hfuel : (List.length buf < scan_fuel buf)%nat)
    by (unfold scan_fuel; lia).
  revert Hfuel. generalize (scan_fuel buf). intros fuel Hfuel.
  replace (whole before + 1 + whole w) with (whole (before ++ c :: w))
    by (unfold whole; rewrite length_app; cbn [List.length]; lia).
  rewrite Hbuf1 at 1. rewrite forward_to_non_white_space.
  - unfold bind at 1. cbv beta iota. rewrite Hbuf2.
    replace (whole (before ++ c :: w) + whole s - 1)
      with (whole before + whole (w ++ s))
      by (unfold whole; rewrite !length_app; cbn [List.length]; lia).
    rewrite back_to_non_white_space.
    + reflexivity.
    + exact Hc.
    + unfold all_white_space in *. rewrite forallb_app, Hw, Hs. reflexivity.
    + rewrite length_app. lia.
    + right. unfold whole. rewrite !length_app. cbn [List.length]. lia.
  - exact Hs.
  - reflexivity.
  - rewrite length_app. cbn [List.length]. lia.
Qed.

Lemma blank_text_is_left_at_its_front_witness :
  strip_whitespace 8
    (chars "ab "%string ++ chars "  "%string ++ [NUL; "y"%char]) 3 2
  = Some (5, 2).
Proof.
  exact (blank_text_is_left_at_its_front (chars "a"%string) "b"%char
           (chars " "%string) (chars "  "%string) ["y"%char]
           eq_refl eq_refl eq_refl).
Defined.

(** X7: [ascii2uint(c) < 10] is a test for a digit, whether [char] is
    signed or not: a character below ['0'] wraps around to a large number.
    On a digit the four conversions agree and give its value. *)
Theorem ascii2uint_tests_digit (signed_char : bool) (buf : buffer) (c : ptr) :
  (ascii2uint signed_char buf c < 10
   <-> is_valid_digit (deref buf c) = true)
  /\ (is_valid_digit (deref buf c) = true ->
      0 <= ascii2int signed_char buf c <= 9
      /\ ascii2uint signed_char buf c = ascii2int signed_char buf c
      /\ ascii2long signed_char buf c = ascii2int signed_char buf c
      /\ ascii2ulong signed_char buf c = ascii2int signed_char buf c
      /\ ascii2int signed_char buf c = digit_value (deref buf c)).
Proof.
  unfold ascii2uint, ascii2int, ascii2long, ascii2ulong.
  generalize (deref buf c) as x. intros x.
  destruct signed_char; each_char x; vm_compute;
    (split; [split; intros H; solve [reflexivity | discriminate H]|]);
    intros H; solve [discriminate H | repeat split; discriminate].
Qed.

Lemma while_none {S : Type} (cond : S -> bool) (body : S -> S)
  (inv : S -> Prop) :
  (forall s, inv s -> cond s = true /\ inv (body s)) ->
  forall fuel s, inv s -> while fuel cond body s = None.
Proof.
  intros Hinv. induction fuel as [|fuel IH]; intros s Hs; [reflexivity|].
  simpl. destruct (Hinv s Hs) as [-> Hnext]. apply IH. assumption.
Qed.

(** X8: [consume_non_white_space] stops at the first white space
    character at or behind the cursor, and at nothing else: the NUL that
    ends the text does not stop it.  Where no white space follows, it
    walks on beyond the text and does not return, whatever its budget. *)
Theorem consume_non_white_space_needs_white_space (buf : buffer) (str0 : ptr) :
  (forall (k fuel : nat),
     (forall i : nat, (i < k)%nat ->
        is_white_space (deref buf (str0 + Z.of_nat i)) = false) ->
     is_white_space (deref buf (str0 + Z.of_nat k)) = true ->
     (k < fuel)%nat ->
     consume_non_white_space fuel buf str0 = Some (str0 + Z.of_nat k))
  /\ ((forall q, str0 <= q -> is_white_space (deref buf q) = false) ->
      forall fuel, consume_non_white_space fuel buf str0 = None)
  /\ (forall fuel q, consume_non_white_space fuel buf str0 = Some q ->
      str0 <= q /\ is_white_space (deref buf q) = true).
Proof.
  unfold consume_non_white_space. split; [|split].
  - intros k. revert str0. induction k as [|k IH]; intros p fuel Hrun Hstop Hf.
    + destruct fuel; [lia|]. simpl in *. rewrite Z.add_0_r in *.
      rewrite Hstop. reflexivity.
    + destruct fuel; [lia|]. cbn [while].
      pose proof (Hrun O ltac:(lia)) as H0. simpl in H0.
      rewrite Z.add_0_r in H0. rewrite H0. cbn [negb].
      rewrite (IH (p + 1) fuel).
      * f_equal. lia.
      * intros i Hi. specialize (Hrun (Datatypes.S i) ltac:(lia)).
        replace (p + 1 + Z.of_nat i) with (p + Z.of_nat (Datatypes.S i))
          by lia.
        assumption.
      * replace (p + 1 + Z.of_nat k) with (p + Z.of_nat (Datatypes.S k))
          by lia.
        assumption.
      * lia.
  - intros Hnone fuel.
    apply (while_none _ _ (fun p => str0 <= p)); [|lia].
    intros p Hp. rewrite (Hnone p Hp). split; [reflexivity | lia].
  - intros fuel q Hrun.
    destruct (while_iterations _ _ _ _ _ Hrun) as (n & _ & Hq & Hcond).
    apply negb_false_iff in Hcond. split; [|assumption].
    rewrite Hq. clear. induction n as [|n IH]; simpl; lia.
Qed.

Example consume_non_white_space_example :
  consume_non_white_space 10 (chars "12 3"%string) 0 = Some 2
  /\ consume_non_white_space 1000 (chars "123"%string) 0 = None.
Proof. split; reflexivity. Qed.

(** *** Upper and lower case *)

Lemma to_lower_tests c :
  is_valid_digit (to_lower c) = is_valid_digit c
  /\ is_sign (to_lower c) = is_sign c
  /\ is_decimal (to_lower c) = is_decimal c
  /\ is_e_or_E (to_lower c) = is_e_or_E c
  /\ is_n_or_N (to_lower c) || is_i_or_I (to_lower c)
     = is_n_or_N c || is_i_or_I c
  /\ to_lower (to_lower c) = to_lower c.
Proof. each_char c; repeat split. Qed.

Lemma hdc_map_to_lower l : hdc (map to_lower l) = to_lower (hdc l).
Proof. destruct l; reflexivity. Qed.

Lemma tl_map {A B} (f : A -> B) l : tl (map f l) = map f (tl l).
Proof. destruct l; reflexivity. Qed.

Lemma span_digits_map_to_lower l :
  span_digits (map to_lower l)
  = (fst (span_digits l), map to_lower (snd (span_digits l))).
Proof.
  induction l as [|c l IH]; [reflexivity|].
  cbn [map span_digits]. rewrite (proj1 (to_lower_tests c)).
  destruct (is_valid_digit c); [|reflexivity].
  rewrite IH. destruct (span_digits l). reflexivity.
Qed.

Lemma sign_len_map_to_lower l : sign_len (map to_lower l) = sign_len l.
Proof.
  unfold sign_len. rewrite hdc_map_to_lower.
  destruct (to_lower_tests (hdc l)) as (_ & -> & _). reflexivity.
Qed.

Lemma prefix_ci_map_to_lower t : forall l,
  prefix_ci t (map to_lower l) = prefix_ci t l.
Proof.
  induction t as [|c t IH]; intros l; [reflexivity|].
  cbn [prefix_ci]. rewrite hdc_map_to_lower, tl_map, IH.
  destruct (to_lower_tests (hdc l)) as (_ & _ & _ & _ & _ & ->).
  reflexivity.
Qed.

Lemma check_float_list_map_to_lower l :
  check_float_list (map to_lower l) = check_float_list l.
Proof.
  unfold check_float_list. rewrite span_digits_map_to_lower.
  destruct (span_digits l) as [n1 l1]. cbn [fst snd].
  rewrite hdc_map_to_lower.
  destruct (to_lower_tests (hdc l1)) as (_ & _ & -> & _).
  assert (Hstage2 :
    (if is_decimal (hdc l1)
     then let '(n, r) := span_digits (tl (map to_lower l1)) in
          (Datatypes.S n, n, r)
     else (O, O, map to_lower l1))
    = (let '(k2, n2, l2) :=
         (if is_decimal (hdc l1)
          then let '(n, r) := span_digits (tl l1) in (Datatypes.S n, n, r)
          else (O, O, l1)) in
       (k2, n2, map to_lower l2))).
  { destruct (is_decimal (hdc l1)); [|reflexivity].
    rewrite tl_map, span_digits_map_to_lower.
    destruct (span_digits (tl l1)). reflexivity. }
  rewrite Hstage2. clear Hstage2.
  destruct (if is_decimal (hdc l1)
            then let '(n, r) := span_digits (tl l1) in (Datatypes.S n, n, r)
            else (O, O, l1)) as [[k2 n2] l2].
  rewrite hdc_map_to_lower.
  destruct (to_lower_tests (hdc l2)) as (_ & _ & _ & -> & _).
  destruct (is_e_or_E (hdc l2) && (0 <? n1 + n2)%nat); [|reflexivity].
  rewrite tl_map, sign_len_map_to_lower, skipn_map.
  rewrite span_digits_map_to_lower.
  destruct (span_digits (skipn (sign_len (tl l2)) (tl l2))). reflexivity.
Qed.

Lemma scan_list_map_to_lower l : scan_list (map to_lower l) = scan_list l.
Proof.
  unfold scan_list, scan_unsigned.
  rewrite sign_len_map_to_lower, skipn_map.
  set (l0 := skipn (sign_len l) l).
  rewrite hdc_map_to_lower, check_float_list_map_to_lower.
  rewrite !prefix_ci_map_to_lower, skipn_map, prefix_ci_map_to_lower.
  destruct (to_lower_tests (hdc l0)) as (_ & _ & _ & _ & -> & _).
  reflexivity.
Qed.

(** X9: the scanner does not tell upper case from lower case.  Its answer
    on a buffer is its answer on the buffer in lower case, for every
    range. *)
Theorem case_changes_nothing (buf : buffer) (str0 end_ : ptr) :
  string_contains_non_overflowing_float (map to_lower buf) str0 end_
  = string_contains_non_overflowing_float buf str0 end_.
Proof.
  rewrite !scanner_list.
  assert (Hsuffix : suffix (map to_lower buf) str0
                    = map to_lower (suffix buf str0)).
  { unfold suffix. destruct (str0 <? 0); [reflexivity|]. apply skipn_map. }
  rewrite Hsuffix, scan_list_map_to_lower. reflexivity.
Qed.

Example case_changes_nothing_example :
  map to_lower (chars "-1.5E3 NaN InFiNiTy"%string)
  = chars "-1.5e3 nan infinity"%string.
Proof. reflexivity. Qed.

End Parsing.

(** ** implementation.cpp *)

Module Implementation.

(** A [PyObject*] is an address; [nullptr] is address zero. *)
Definition PyObject_ptr := Z.
Definition nullptr : PyObject_ptr := 0.

Definition NumberFlags := Z.

(** Everything [implementation.cpp] uses and other files declare: the
    [NumberType] bits, the class [UserOptions], the selectors, the
    [TextExtractor], the [Evaluator] and the functions of the Python C
    API.  The functions of this file are written against this interface,
    and the theorems hold for every implementation of it. *)
Class Host := {
  (* NumberType *)
  INVALID : NumberFlags;
  Integer : NumberFlags;
  Float : NumberFlags;
  NaN : NumberFlags;
  Infinity : NumberFlags;
  IntLike : NumberFlags;
  FromStr : NumberFlags;
  FromUni : NumberFlags;
  FromNum : NumberFlags;
  (* UserOptions *)
  UserOptions : Type;
  default_options : UserOptions;
  set_base : Z -> UserOptions -> UserOptions;
  set_coerce : bool -> UserOptions -> UserOptions;
  set_underscores_allowed : bool -> UserOptions -> UserOptions;
  set_inf_allowed : PyObject_ptr -> UserOptions -> UserOptions;
  set_nan_allowed : PyObject_ptr -> UserOptions -> UserOptions;
  allow_inf_str : UserOptions -> bool;
  allow_nan_str : UserOptions -> bool;
  allow_inf_num : UserOptions -> bool;
  allow_nan_num : UserOptions -> bool;
  allow_coerce : UserOptions -> bool;
  (* Selectors *)
  NUMBER_ONLY : PyObject_ptr;
  STRING_ONLY : PyObject_ptr;
  (* TextExtractor extractor(obj, buffer) *)
  is_text : PyObject_ptr -> bool;
  is_unicode_character : PyObject_ptr -> bool;
  is_non_text : PyObject_ptr -> bool;
  (* Evaluator<Parser>(obj, options, parser).number_type() *)
  character_number_type : PyObject_ptr -> UserOptions -> NumberFlags;
  unicode_number_type : PyObject_ptr -> UserOptions -> NumberFlags;
  numeric_number_type : PyObject_ptr -> UserOptions -> NumberFlags;
  (* Python.h *)
  PyLong_Type : PyObject_ptr;
  PyFloat_Type : PyObject_ptr;
  Py_None : PyObject_ptr;
  Py_TYPE : PyObject_ptr -> PyObject_ptr;
  PySequence_Contains : PyObject_ptr -> PyObject_ptr -> Z
}.

(** [UserType] is declared in a header that is not among the sources.
    [implementation.cpp] names its members REAL and INTLIKE; the others are
    the remaining targets of the conversion functions. *)
Inductive UserType := REAL | FLOAT | INT | INTLIKE | FORCEINT.

Definition UserType_eqb (a b : UserType) : bool :=
  match a, b with
  | REAL, REAL | FLOAT, FLOAT | INT, INT | INTLIKE, INTLIKE
  | FORCEINT, FORCEINT => true
  | _, _ => false
  end.

(** [bool(flags & mask)] *)
Definition has (flags mask : NumberFlags) : bool :=
  negb (Z.land flags mask =? 0).

(** The four [bool&] results of [resolve_types]. *)
Record resolved := mk_resolved
  { from_str : bool; ok_float : bool; ok_int : bool; ok_intlike : bool }.

Section WithHost.

Context {host : Host}.

Definition collect_type (obj : PyObject_ptr) (options : UserOptions)
  (consider : PyObject_ptr) : NumberFlags :=
  let num_only := consider =? NUMBER_ONLY in
  let str_only := consider =? STRING_ONLY in
  if num_only && (is_text obj || is_unicode_character obj) then INVALID
  else if str_only && is_non_text obj then INVALID
  else if is_text obj then character_number_type obj options
  else if is_unicode_character obj then unicode_number_type obj options
  else numeric_number_type obj options.

Definition resolve_types (flags : NumberFlags) (options : UserOptions)
  : resolved :=
  let from_str := has flags (Z.lor FromStr FromUni) in
  let from_num := has flags FromNum in
  let no_inf_str := from_str && negb (allow_inf_str options) in
  let no_nan_str := from_str && negb (allow_nan_str options) in
  let no_inf_num := from_num && negb (allow_inf_num options) in
  let no_nan_num := from_num && negb (allow_nan_num options) in
  let no_inf := no_inf_str || no_inf_num in
  let no_nan := no_nan_str || no_nan_num in
  let bad_inf := no_inf && has flags Infinity in
  let bad_nan := no_nan && has flags NaN in
  mk_resolved from_str
    (has flags Float && negb (bad_inf || bad_nan))
    (has flags Integer)
    (allow_coerce options && has flags IntLike).

Definition float_check_options (inf nan : PyObject_ptr)
  (allow_underscores : bool) : UserOptions :=
  set_nan_allowed nan
    (set_inf_allowed inf
       (set_underscores_allowed allow_underscores default_options)).

(** [Py_RETURN_TRUE] and [Py_RETURN_FALSE] as [true] and [false]. *)
Definition float_check_impl (input inf nan consider : PyObject_ptr)
  (ntype : UserType) (allow_underscores strict : bool) : bool :=
  let options := float_check_options inf nan allow_underscores in
  let flags := collect_type input options consider in
  let r := resolve_types flags options in
  let ok_int := if UserType_eqb ntype REAL
                then ok_int r
                else from_str r && negb strict && ok_int r in
  if ok_float r || ok_int then true else false.

Definition int_check_impl (input consider : PyObject_ptr) (ntype : UserType)
  (allow_underscores : bool) (base : Z) : bool :=
  let options :=
    set_underscores_allowed allow_underscores
      (set_coerce (UserType_eqb ntype INTLIKE)
         (set_base base default_options)) in
  let flags := collect_type input options consider in
  let r := resolve_types flags options in
  if ok_int r || ok_intlike r then true else false.

Definition type_query_options (inf nan : PyObject_ptr)
  (allow_underscores coerce : bool) : UserOptions :=
  set_nan_allowed nan
    (set_inf_allowed inf
       (set_underscores_allowed allow_underscores
          (set_coerce coerce default_options))).

(** The local [found_type] of [type_query_impl]. *)
Definition found_type (r : resolved) (input : PyObject_ptr) : PyObject_ptr :=
  if ok_int r || ok_intlike r then PyLong_Type
  else if ok_float r then PyFloat_Type
  else Py_TYPE input.

Definition type_query_impl (input allowed_types inf nan : PyObject_ptr)
  (allow_underscores coerce : bool) : PyObject_ptr :=
  let options := type_query_options inf nan allow_underscores coerce in
  let flags := collect_type input options nullptr in
  let r := resolve_types flags options in
  let found := found_type r input in
  if negb (allowed_types =? nullptr)
     && (PySequence_Contains allowed_types found =? 0)
  then Py_None
  else found.

(** The configuration disallows infinity for the origin recorded in the
    flags. *)
Definition inf_disallowed (flags : NumberFlags) (options : UserOptions)
  : Prop :=
  (has flags (Z.lor FromStr FromUni) = true /\ allow_inf_str options = false)
  \/ (has flags FromNum = true /\ allow_inf_num options = false).

Definition nan_disallowed (flags : NumberFlags) (options : UserOptions)
  : Prop :=
  (has flags (Z.lor FromStr FromUni) = true /\ allow_nan_str options = false)
  \/ (has flags FromNum = true /\ allow_nan_num options = false).

End WithHost.

(** ** A host to run the functions on

    Options as a plain record, selectors and type objects at small
    addresses, and a handful of inputs with the flags an evaluator gives
    them. *)

Record plain_options := mk_options
  { opt_base : Z; opt_coerce : bool; opt_underscores : bool;
    opt_inf_str : bool; opt_inf_num : bool;
    opt_nan_str : bool; opt_nan_num : bool }.

Definition ALLOWED : PyObject_ptr := 1.
Definition DISALLOWED : PyObject_ptr := 2.
Definition the_NUMBER_ONLY : PyObject_ptr := 3.
Definition the_STRING_ONLY : PyObject_ptr := 4.

Definition allowed_for_str (selector : PyObject_ptr) : bool :=
  (selector =? ALLOWED) || (selector =? the_STRING_ONLY).
Definition allowed_for_num (selector : PyObject_ptr) : bool :=
  (selector =? ALLOWED) || (selector =? the_NUMBER_ONLY).

Definition long_type : PyObject_ptr := 10.
Definition float_type : PyObject_ptr := 11.
Definition str_type : PyObject_ptr := 12.
Definition list_type : PyObject_ptr := 13.
Definition none : PyObject_ptr := 14.

(** The inputs. *)
Definition str_12 : PyObject_ptr := 100.      (* the string "12" *)
Definition int_12 : PyObject_ptr := 101.      (* the integer 12 *)
Definition str_inf : PyObject_ptr := 102.     (* the string "inf" *)
Definition float_3 : PyObject_ptr := 103.     (* the float 3.0 *)
Definition a_list : PyObject_ptr := 104.      (* a list *)
Definition only_int : PyObject_ptr := 200.    (* the tuple (int,) *)

Definition example_host : Host :=
  {| INVALID := 0; Integer := 1; Float := 2; NaN := 4; Infinity := 8;
     IntLike := 16; FromStr := 64; FromUni := 128; FromNum := 256;
     UserOptions := plain_options;
     default_options := mk_options 10 false false false false false false;
     set_base := fun b o =>
       mk_options b (opt_coerce o) (opt_underscores o) (opt_inf_str o)
         (opt_inf_num o) (opt_nan_str o) (opt_nan_num o);
     set_coerce := fun c o =>
       mk_options (opt_base o) c (opt_underscores o) (opt_inf_str o)
         (opt_inf_num o) (opt_nan_str o) (opt_nan_num o);
     set_underscores_allowed := fun u o =>
       mk_options (opt_base o) (opt_coerce o) u (opt_inf_str o)
         (opt_inf_num o) (opt_nan_str o) (opt_nan_num o);
     set_inf_allowed := fun sel o =>
       mk_options (opt_base o) (opt_coerce o) (opt_underscores o)
         (allowed_for_str sel) (allowed_for_num sel)
         (opt_nan_str o) (opt_nan_num o);
     set_nan_allowed := fun sel o =>
       mk_options (opt_base o) (opt_coerce o) (opt_underscores o)
         (opt_inf_str o) (opt_inf_num o)
         (allowed_for_str sel) (allowed_for_num sel);
     allow_inf_str := opt_inf_str;
     allow_nan_str := opt_nan_str;
     allow_inf_num := opt_inf_num;
     allow_nan_num := opt_nan_num;
     allow_coerce := opt_coerce;
     NUMBER_ONLY := the_NUMBER_ONLY;
     STRING_ONLY := the_STRING_ONLY;
     is_text := fun obj => (obj =? str_12) || (obj =? str_inf);
     is_unicode_character := fun _ => false;
     is_non_text := fun obj => negb ((obj =? str_12) || (obj =? str_inf));
     character_number_type := fun obj _ =>
       if obj =? str_12 then 1 + 64 else 2 + 8 + 64;
     unicode_number_type := fun _ _ => 0;
     numeric_number_type := fun obj _ =>
       if obj =? int_12 then 1 + 256
       else if obj =? float_3 then 2 + 16 + 256
       else 0;
     PyLong_Type := long_type;
     PyFloat_Type := float_type;
     Py_None := none;
     Py_TYPE := fun obj =>
       if (obj =? str_12) || (obj =? str_inf) then str_type
       else if obj =? int_12 then long_type
       else if obj =? float_3 then float_type
       else list_type;
     PySequence_Contains := fun seq x =>
       if seq =? only_int then (if x =? long_type then 1 else 0) else -1 |}.

(** ** The Classifier

    [collect_type] hands back what [Evaluator<Parser>::number_type()]
    returns.  The evaluator and its parsers are declared in evaluator.hpp
    and parser.hpp, which are not among the sources; this section is
    written after sections 3, 4.1, 4.2 and 6 of the specification.  The
    configuration is the record [plain_options]. *)

(** Modelled from the spec: the flags of the descriptor (section 3), one
    bit each; NumberType is declared in a header that is not among the
    sources.  A single code point has an origin flag of its own, which
    [resolve_types] counts as text. *)
Definition flag_Integer : NumberFlags := 1.
Definition flag_Float : NumberFlags := 2.
Definition flag_NaN : NumberFlags := 4.
Definition flag_Infinity : NumberFlags := 8.
Definition flag_IntLike : NumberFlags := 16.
Definition flag_FromStr : NumberFlags := 64.
Definition flag_FromUni : NumberFlags := 128.
Definition flag_FromNum : NumberFlags := 256.

Definition flag_if (b : bool) (flag : NumberFlags) : NumberFlags :=
  if b then flag else 0.

(** Modelled from the spec: what the binding layer yields for a value
    (section 6), which [TextExtractor] and [NumericParser] are for: a
    character range, a single code point (a numeral or not), or a native
    number with its numeric nature.  [NoNumber] is a value that is none of
    these; the specification gives it no flag. *)
Inductive native_nature :=
| NativeInteger
| NativeFloat (integral : bool)
| NativeInfinity
| NativeNaN.

Inductive extracted :=
| TextRange (text : list Parsing.char)
| CodePoint (numeral : bool)
| NativeNumber (nature : native_nature)
| NoNumber.

Inductive special_token := InfinityToken | NaNToken.

(** Modelled from the spec: "case-insensitively equals" of the Scanner
    (section 4.1). *)
Definition equals_ci (token text : list Parsing.char) : bool :=
  (List.length text =? List.length token)%nat && Parsing.prefix_ci token text.

(** Modelled from the spec: steps 1 to 3 of the Scanner (section 4.1).
    The white space is trimmed, an optional single leading sign is taken,
    and the remainder is compared with the special tokens.  The
    configuration has no part in these steps. *)
Definition special_token_of (text : list Parsing.char)
  : option special_token :=
  let trimmed := Parsing.trim text in
  let remainder := skipn (Parsing.sign_len trimmed) trimmed in
  if equals_ci Parsing.inf_token remainder
     || equals_ci Parsing.infinity_token remainder
  then Some InfinityToken
  else if equals_ci Parsing.nan_token remainder then Some NaNToken
  else None.

(** Modelled from the spec: the structural facts of a ScanResult
    (section 3) about a literal of digits. *)
Record digit_facts := mk_digit_facts
  { decimal_point_present : bool;
    exponent_present : bool;
    digits_before : nat;
    digits_after : nat }.

(** Modelled from the spec: the ScanResult (section 3).  The offsets are
    those of the trimmed text within the range. *)
Record ScanResult := mk_scan
  { start_offset : nat;
    end_offset : nat;
    sign_present : bool;
    special : option special_token;
    digits : digit_facts }.

(** Modelled from the spec: the value that is no number and no text, and
    the text that is not numeric, get the empty descriptor. *)
Definition empty_descriptor : NumberFlags := 0.

Section Classifier.

(** Steps 4 and 5 of the Scanner, the grammars of digits for base 10 and
    for the other bases with their underscores and prefixes, and the test
    of the ValueExtractor for a value without fraction, are parameters:
    they are where the configuration is consulted, and what follows holds
    for each of them. *)
Variable scan_digits : plain_options -> list Parsing.char -> option digit_facts.
Variable value_is_integral : list Parsing.char -> bool.

(** Modelled from the spec: [scan(range, configuration)] of section 4.1,
    [None] being NotNumeric.  The special tokens are tried before the
    digits. *)
Definition scan (range : list Parsing.char) (configuration : plain_options)
  : option ScanResult :=
  let trimmed := Parsing.trim range in
  let start := (List.length range
                - List.length (Parsing.drop_white_space range))%nat in
  let signed := (0 <? Parsing.sign_len trimmed)%nat in
  let remainder := skipn (Parsing.sign_len trimmed) trimmed in
  match special_token_of range with
  | Some token =>
      Some (mk_scan start (start + List.length trimmed) signed (Some token)
              (mk_digit_facts false false 0 0))
  | None =>
      match scan_digits configuration remainder with
      | Some facts =>
          Some (mk_scan start (start + List.length trimmed) signed None facts)
      | None => None
      end
  end.

(** Modelled from the spec: the descriptor of a successful ScanResult
    (section 4.2): FromText; Integer if no decimal point and no exponent
    were present (or the base is not 10); Float if a decimal point or an
    exponent was present, or a special token matched; Infinity and NaN
    from the special token; IntLike when Float is set, no special token
    matched and the value has no fraction. *)
Definition descriptor_of_scan (r : ScanResult) (integral : bool)
  (configuration : plain_options) : NumberFlags :=
  let point_or_exponent :=
    decimal_point_present (digits r) || exponent_present (digits r) in
  match special r with
  | Some InfinityToken =>
      Z.lor flag_FromStr (Z.lor flag_Float flag_Infinity)
  | Some NaNToken => Z.lor flag_FromStr (Z.lor flag_Float flag_NaN)
  | None =>
      Z.lor flag_FromStr
        (Z.lor (flag_if (negb point_or_exponent
                         || negb (opt_base configuration =? 10))
                  flag_Integer)
           (Z.lor (flag_if point_or_exponent flag_Float)
              (flag_if (point_or_exponent && integral) flag_IntLike)))
  end.

(** Modelled from the spec: [classify(input, configuration)] of section
    4.2.  A native number is read for its own nature, which sets
    FromNumeric; a text goes through the Scanner. *)
Definition classify (input : extracted) (configuration : plain_options)
  : NumberFlags :=
  match input with
  | NativeNumber nature =>
      Z.lor flag_FromNum
        match nature with
        | NativeInteger => flag_Integer
        | NativeFloat integral =>
            Z.lor flag_Float (flag_if integral flag_IntLike)
        | NativeInfinity => Z.lor flag_Float flag_Infinity
        | NativeNaN => Z.lor flag_Float flag_NaN
        end
  | TextRange text =>
      match scan text configuration with
      | Some r =>
          descriptor_of_scan r (value_is_integral (Parsing.trim text))
            configuration
      | None => empty_descriptor
      end
  | CodePoint numeral =>
      if numeral then Z.lor flag_FromUni flag_Integer else empty_descriptor
  | NoNumber => empty_descriptor
  end.

(** What each object holds. *)
Variable content : PyObject_ptr -> extracted.

(** The host whose evaluator is the Classifier: [collect_type],
    [resolve_types] and the checks of the source run on it as they are. *)
Definition spec_host : Host :=
  {| INVALID := empty_descriptor;
     Integer := flag_Integer;
     Float := flag_Float;
     NaN := flag_NaN;
     Infinity := flag_Infinity;
     IntLike := flag_IntLike;
     FromStr := flag_FromStr;
     FromUni := flag_FromUni;
     FromNum := flag_FromNum;
     UserOptions := plain_options;
     default_options := @default_options example_host;
     set_base := @set_base example_host;
     set_coerce := @set_coerce example_host;
     set_underscores_allowed := @set_underscores_allowed example_host;
     set_inf_allowed := @set_inf_allowed example_host;
     set_nan_allowed := @set_nan_allowed example_host;
     allow_inf_str := opt_inf_str;
     allow_nan_str := opt_nan_str;
     allow_inf_num := opt_inf_num;
     allow_nan_num := opt_nan_num;
     allow_coerce := opt_coerce;
     NUMBER_ONLY := the_NUMBER_ONLY;
     STRING_ONLY := the_STRING_ONLY;
     is_text := fun obj =>
       match content obj with TextRange _ => true | _ => false end;
     is_unicode_character := fun obj =>
       match content obj with CodePoint _ => true | _ => false end;
     is_non_text := fun obj =>
       match content obj with
       | NativeNumber _ | NoNumber => true
       | _ => false
       end;
     character_number_type := fun obj options => classify (content obj) options;
     unicode_number_type := fun obj options => classify (content obj) options;
     numeric_number_type := fun obj options => classify (content obj) options;
     PyLong_Type := long_type;
     PyFloat_Type := float_type;
     Py_None := none;
     Py_TYPE := @Py_TYPE example_host;
     PySequence_Contains := @PySequence_Contains example_host |}.

End Classifier.

(** What is found in an input, whatever the configuration: the special
    token of a text, the nature of a native number. *)
Definition found_infinity (input : extracted) : bool :=
  match input with
  | TextRange text =>
      match special_token_of text with
      | Some InfinityToken => true
      | _ => false
      end
  | NativeNumber NativeInfinity => true
  | _ => false
  end.

Definition found_nan (input : extracted) : bool :=
  match input with
  | TextRange text =>
      match special_token_of text with
      | Some NaNToken => true
      | _ => false
      end
  | NativeNumber NativeNaN => true
  | _ => false
  end.

(** An example: a grammar of digits that takes the unsigned decimal
    integers, and the contents of the inputs of the example host. *)
Definition example_digits (configuration : plain_options)
  (text : list Parsing.char) : option digit_facts :=
  if Parsing.all_digits text && (0 <? List.length text)%nat
  then Some (mk_digit_facts false false (List.length text) 0)
  else None.

Definition example_content (obj : PyObject_ptr) : extracted :=
  if obj =? str_12 then TextRange (Parsing.chars "12"%string)
  else if obj =? str_inf then TextRange (Parsing.chars " -Infinity "%string)
  else if obj =? int_12 then NativeNumber NativeInteger
  else if obj =? float_3 then NativeNumber (NativeFloat true)
  else NoNumber.

(** ** Facts about the checks *)

Section Facts.

Context {host : Host}.

(** [resolve_types] is where the inf/nan policy is applied, on every
    host.  It takes the flags as they are and, for flags with [Float] set,
    turns the float verdict down exactly if [Infinity] is set and infinity
    is disallowed for the origin of the input, or [NaN] is set and NaN is
    disallowed for it.  For an input from text the two allowances for
    numbers are not consulted, and the other way round. *)
Lemma resolve_types_applies_policy (flags : NumberFlags)
  (options : UserOptions) :
  has flags Float = true ->
  (ok_float (resolve_types flags options) = false
   <-> (has flags Infinity = true /\ inf_disallowed flags options)
       \/ (has flags NaN = true /\ nan_disallowed flags options))
  /\ (forall options',
        has flags FromNum = false ->
        allow_inf_str options' = allow_inf_str options ->
        allow_nan_str options' = allow_nan_str options ->
        ok_float (resolve_types flags options')
        = ok_float (resolve_types flags options))
  /\ (forall options',
        has flags (Z.lor FromStr FromUni) = false ->
        allow_inf_num options' = allow_inf_num options ->
        allow_nan_num options' = allow_nan_num options ->
        ok_float (resolve_types flags options')
        = ok_float (resolve_types flags options)).
Proof.
  intros HF. unfold resolve_types, inf_disallowed, nan_disallowed.
  cbn [ok_float]. rewrite HF. split; [|split].
  - destruct (has flags (Z.lor FromStr FromUni)), (has flags FromNum),
      (has flags Infinity), (has flags NaN),
      (allow_inf_str options), (allow_nan_str options),
      (allow_inf_num options), (allow_nan_num options);
      cbn; intuition discriminate.
  - intros options' HN Hi Hn. rewrite HN, Hi, Hn. reflexivity.
  - intros options' HS Hi Hn. rewrite HS, Hi, Hn. reflexivity.
Qed.

(** C7: with [consider] restricted to numbers, text and single unicode
    characters are [INVALID]; with [consider] restricted to strings,
    everything that is not text is [INVALID].  Both tests come before any
    parser or evaluator is built, so the answer is the same whatever these
    would have found. *)
Theorem unsupported_type_is_invalid (obj : PyObject_ptr)
  (options : UserOptions) :
  NUMBER_ONLY <> STRING_ONLY ->
  (is_text obj || is_unicode_character obj = true ->
   collect_type obj options NUMBER_ONLY = INVALID)
  /\ (is_non_text obj = true ->
      collect_type obj options STRING_ONLY = INVALID).
Proof.
  intros Hsel. unfold collect_type. split.
  - intros H. rewrite Z.eqb_refl, H. reflexivity.
  - intros H. rewrite Z.eqb_refl, H.
    assert (Hne : (STRING_ONLY =? NUMBER_ONLY) = false)
      by (apply Z.eqb_neq; congruence).
    rewrite Hne. reflexivity.
Qed.

(** C9: the float check on an input that is an integer and no float.  For
    the target FLOAT it answers [true] exactly if the input came from a
    string, strict mode is off and the integer verdict holds; so for an
    integer from a number it answers [false] whatever [strict] is.  For the
    target REAL the integer verdict is enough, whatever the origin. *)
Theorem float_check_integers (input inf nan consider : PyObject_ptr)
  (allow_underscores strict : bool) :
  let options := float_check_options inf nan allow_underscores in
  let flags := collect_type input options consider in
  (has flags Float = false ->
   (float_check_impl input inf nan consider FLOAT allow_underscores strict
    = true
    <-> has flags (Z.lor FromStr FromUni) = true /\ strict = false
        /\ has flags Integer = true))
  /\ (has flags Float = false -> has flags (Z.lor FromStr FromUni) = false ->
      float_check_impl input inf nan consider FLOAT allow_underscores strict
      = false)
  /\ (has flags Integer = true ->
      float_check_impl input inf nan consider REAL allow_underscores strict
      = true).
Proof.
  cbv zeta. unfold float_check_impl, resolve_types.
  cbn [ok_float ok_int from_str UserType_eqb].
  set (options := float_check_options inf nan allow_underscores).
  set (flags := collect_type input options consider).
  split; [|split].
  - intros HF. rewrite HF. cbn [andb orb].
    destruct (has flags (Z.lor FromStr FromUni)), strict,
      (has flags Integer); cbn; intuition discriminate.
  - intros HF HS. rewrite HF, HS. reflexivity.
  - intros HI. rewrite HI. rewrite orb_true_r. reflexivity.
Qed.

(** C10: the type query reports the integer type whenever the integer
    verdict or, under coercion, the int-like verdict holds, also when the
    float verdict holds as well; the float type if only the float verdict
    holds; and the type of the input itself if none does.  With a
    collection of allowed types that does not contain the type found, it
    returns [None]. *)
Theorem type_query_prefers_integer (input allowed_types inf nan : PyObject_ptr)
  (allow_underscores coerce : bool) :
  let options := type_query_options inf nan allow_underscores coerce in
  let flags := collect_type input options nullptr in
  let r := resolve_types flags options in
  let answer :=
    type_query_impl input allowed_types inf nan allow_underscores coerce in
  (ok_int r = true \/ ok_intlike r = true -> found_type r input = PyLong_Type)
  /\ (has flags IntLike = true -> allow_coerce options = true ->
      found_type r input = PyLong_Type)
  /\ (ok_int r = false -> ok_intlike r = false -> ok_float r = true ->
      found_type r input = PyFloat_Type)
  /\ (ok_int r = false -> ok_intlike r = false -> ok_float r = false ->
      found_type r input = Py_TYPE input)
  /\ (allowed_types <> nullptr ->
      PySequence_Contains allowed_types (found_type r input) = 0 ->
      answer = Py_None)
  /\ (allowed_types = nullptr
      \/ PySequence_Contains allowed_types (found_type r input) <> 0 ->
      answer = found_type r input).
Proof.
  cbv zeta. unfold type_query_impl.
  set (options := type_query_options inf nan allow_underscores coerce).
  set (flags := collect_type input options nullptr).
  set (r := resolve_types flags options).
  repeat split.
  - unfold found_type. intros [-> | ->]; [|rewrite orb_true_r]; reflexivity.
  - intros HI HC. unfold found_type, r, resolve_types. cbn [ok_int ok_intlike].
    rewrite HI, HC, orb_true_r. reflexivity.
  - unfold found_type. intros -> -> ->. reflexivity.
  - unfold found_type. intros -> -> ->. reflexivity.
  - intros Hptr Hc. apply Z.eqb_neq in Hptr. rewrite Hptr, Hc. reflexivity.
  - intros [-> | Hc]; [reflexivity|].
    apply Z.eqb_neq in Hc. rewrite Hc, andb_false_r. reflexivity.
Qed.

(** *** More about the checks *)

Lemma has_no_bits (mask : NumberFlags) : has 0 mask = false.
Proof. unfold has. rewrite Z.land_0_l. reflexivity. Qed.

Lemma collect_type_restricted (obj : PyObject_ptr) (options : UserOptions) :
  NUMBER_ONLY <> STRING_ONLY ->
  (is_text obj || is_unicode_character obj = true ->
   collect_type obj options NUMBER_ONLY = INVALID)
  /\ (is_non_text obj = true ->
      collect_type obj options STRING_ONLY = INVALID).
Proof.
  intros Hsel. unfold collect_type. split.
  - intros H. rewrite Z.eqb_refl, H. reflexivity.
  - intros H. rewrite Z.eqb_refl, H.
    assert (Hne : (STRING_ONLY =? NUMBER_ONLY) = false)
      by (apply Z.eqb_neq; congruence).
    rewrite Hne. reflexivity.
Qed.

(** X10: with [consider] restricted to numbers, the float check and the
    int check answer [False] on every text and every single unicode
    character, whatever it holds and whatever the other arguments are; with
    [consider] restricted to strings, they answer [False] on everything
    that is not text.  ([INVALID] is the flag value with no bit set.) *)
Theorem restricted_checks_answer_false (input inf nan : PyObject_ptr)
  (ntype : UserType) (allow_underscores strict : bool) (base : Z) :
  INVALID = 0 -> NUMBER_ONLY <> STRING_ONLY ->
  (is_text input || is_unicode_character input = true ->
   float_check_impl input inf nan NUMBER_ONLY ntype allow_underscores strict
   = false
   /\ int_check_impl input NUMBER_ONLY ntype allow_underscores base = false)
  /\ (is_non_text input = true ->
      float_check_impl input inf nan STRING_ONLY ntype allow_underscores
        strict = false
      /\ int_check_impl input STRING_ONLY ntype allow_underscores base
         = false).
Proof.
  intros Hinv Hsel. unfold float_check_impl, int_check_impl.
  split; intros H.
  - rewrite !(proj1 (collect_type_restricted input _ Hsel) H), Hinv.
    unfold resolve_types. cbn [ok_float ok_int ok_intlike from_str].
    rewrite !has_no_bits, !andb_false_r.
    destruct (UserType_eqb ntype REAL); split; reflexivity.
  - rewrite !(proj2 (collect_type_restricted input _ Hsel) H), Hinv.
    unfold resolve_types. cbn [ok_float ok_int ok_intlike from_str].
    rewrite !has_no_bits, !andb_false_r.
    destruct (UserType_eqb ntype REAL); split; reflexivity.
Qed.

(** X11: the target REAL accepts whatever the target FLOAT accepts, with
    the same other arguments and whatever the two [strict] flags are; for
    REAL the [strict] flag changes nothing; and for FLOAT what is accepted
    in strict mode is accepted without it. *)
Theorem float_check_real_accepts_more (input inf nan consider : PyObject_ptr)
  (allow_underscores strict strict' : bool) :
  (float_check_impl input inf nan consider FLOAT allow_underscores strict
   = true ->
   float_check_impl input inf nan consider REAL allow_underscores strict'
   = true)
  /\ float_check_impl input inf nan consider REAL allow_underscores strict
     = float_check_impl input inf nan consider REAL allow_underscores strict'
  /\ (float_check_impl input inf nan consider FLOAT allow_underscores true
      = true ->
      float_check_impl input inf nan consider FLOAT allow_underscores false
      = true).
Proof.
  unfold float_check_impl. cbn [UserType_eqb].
  set (r := resolve_types _ _).
  destruct (ok_float r), (from_str r), (ok_int r), strict;
    cbn; repeat split; intros; solve [reflexivity | discriminate].
Qed.

(** X12: allowing more never rejects more.  If every allowance of one
    configuration is also given by another, a float verdict that holds
    under the first holds under the second.  The float verdict never holds
    without the [Float] flag, and for flags that record no origin the
    allowances are not consulted at all. *)
Theorem allowing_more_rejects_less (flags : NumberFlags)
  (options options' : UserOptions) :
  (allow_inf_str options = true -> allow_inf_str options' = true) ->
  (allow_nan_str options = true -> allow_nan_str options' = true) ->
  (allow_inf_num options = true -> allow_inf_num options' = true) ->
  (allow_nan_num options = true -> allow_nan_num options' = true) ->
  (ok_float (resolve_types flags options) = true ->
   ok_float (resolve_types flags options') = true)
  /\ (ok_float (resolve_types flags options) = true ->
      has flags Float = true)
  /\ (has flags (Z.lor FromStr FromUni) = false ->
      has flags FromNum = false ->
      ok_float (resolve_types flags options) = has flags Float).
Proof.
  intros H1 H2 H3 H4. unfold resolve_types. cbn [ok_float].
  destruct (has flags Float), (has flags (Z.lor FromStr FromUni)),
    (has flags FromNum), (has flags Infinity), (has flags NaN),
    (allow_inf_str options), (allow_nan_str options),
    (allow_inf_num options), (allow_nan_num options);
    cbn; repeat split; intros; try reflexivity; try discriminate;
    repeat match goal with
           | H : true = true -> _ |- _ => rewrite (H eq_refl); clear H
           end;
    cbn; try reflexivity;
    repeat match goal with
           | |- context [allow_inf_str options'] =>
               destruct (allow_inf_str options')
           | |- context [allow_nan_str options'] =>
               destruct (allow_nan_str options')
           | |- context [allow_inf_num options'] =>
               destruct (allow_inf_num options')
           | |- context [allow_nan_num options'] =>
               destruct (allow_nan_num options')
           end; reflexivity.
Qed.


(** X14: as the comment in [int_check_impl] says, [ok_intlike] is never
    true unless [set_coerce] was given true.  With options that give back
    the coercion they were set to, the int check for a target other than
    INTLIKE answers with the [Integer] flag alone, and the [IntLike] flag
    counts for nothing. *)
Theorem int_check_coerces_only_intlike (input consider : PyObject_ptr)
  (ntype : UserType) (allow_underscores : bool) (base : Z) :
  (forall c u o, allow_coerce (set_underscores_allowed u (set_coerce c o)) = c)
  -> ntype <> INTLIKE ->
  int_check_impl input consider ntype allow_underscores base
  = has (collect_type input
           (set_underscores_allowed allow_underscores
              (set_coerce false (set_base base default_options)))
           consider) Integer.
Proof.
  intros Hlaw Hntype. unfold int_check_impl.
  assert (Hno : UserType_eqb ntype INTLIKE = false)
    by (destruct ntype; try reflexivity; congruence).
  rewrite Hno. unfold resolve_types. cbn [ok_int ok_intlike].
  rewrite Hlaw. cbn [andb]. rewrite orb_false_r.
  destruct (has _ Integer); reflexivity.
Qed.

End Facts.

Example resolve_types_applies_policy_example :
  @ok_float (@resolve_types example_host (2 + 8 + 64)
               (mk_options 10 false false false true true true)) = false
  <-> (@has (2 + 8 + 64) 8 = true
       /\ @inf_disallowed example_host (2 + 8 + 64)
            (mk_options 10 false false false true true true))
      \/ (@has (2 + 8 + 64) 4 = true
          /\ @nan_disallowed example_host (2 + 8 + 64)
               (mk_options 10 false false false true true true)).
Proof.
  exact (proj1 (@resolve_types_applies_policy example_host (2 + 8 + 64)
                  (mk_options 10 false false false true true true)
                  eq_refl)).
Qed.

(** *** The Classifier in front of [resolve_types] *)

Section ClassifierFacts.

Variable scan_digits : plain_options -> list Parsing.char -> option digit_facts.
Variable value_is_integral : list Parsing.char -> bool.
Variable content : PyObject_ptr -> extracted.

Abbreviation classifier_host :=
  (spec_host scan_digits value_is_integral content).
Abbreviation classified :=
  (classify scan_digits value_is_integral).

Lemma descriptor_flags (r : ScanResult) integral configuration :
  has (descriptor_of_scan r integral configuration) flag_Infinity
  = match special r with Some InfinityToken => true | _ => false end
  /\ has (descriptor_of_scan r integral configuration) flag_NaN
     = match special r with Some NaNToken => true | _ => false end
  /\ has (descriptor_of_scan r integral configuration)
       (Z.lor flag_FromStr flag_FromUni) = true
  /\ has (descriptor_of_scan r integral configuration) flag_FromNum = false.
Proof.
  unfold descriptor_of_scan.
  destruct (special r) as [[|]|]; [repeat split; reflexivity ..|].
  destruct (decimal_point_present (digits r) || exponent_present (digits r)),
    (opt_base configuration =? 10), integral; repeat split; reflexivity.
Qed.

Lemma scan_special (text : list Parsing.char) configuration r :
  scan scan_digits text configuration = Some r ->
  special r = special_token_of text.
Proof.
  unfold scan. destruct (special_token_of text) as [token|].
  - intros H. inversion H. reflexivity.
  - destruct (scan_digits configuration _); intros H; inversion H.
    reflexivity.
Qed.

Lemma scan_finds_special (text : list Parsing.char) configuration token :
  special_token_of text = Some token ->
  exists r, scan scan_digits text configuration = Some r.
Proof. intros H. unfold scan. rewrite H. eexists. reflexivity. Qed.

(** The Classifier sets [Infinity] and [NaN] exactly when they are found,
    and records one origin. *)
Lemma classify_reports_what_is_found (input : extracted) configuration :
  has (classified input configuration) flag_Infinity = found_infinity input
  /\ has (classified input configuration) flag_NaN = found_nan input
  /\ (has (classified input configuration) (Z.lor flag_FromStr flag_FromUni)
      = true ->
      has (classified input configuration) flag_FromNum = false).
Proof.
  destruct input as [text|numeral|nature|]; cbn [classify found_infinity
    found_nan].
  - destruct (scan scan_digits text configuration) as [r|] eqn:Hscan.
    + destruct (descriptor_flags r (value_is_integral (Parsing.trim text))
                  configuration) as (Hinf & Hnan & _ & Hnum).
      rewrite Hinf, Hnan, (scan_special _ _ _ Hscan).
      repeat split. intros _. exact Hnum.
    + destruct (special_token_of text) as [token|] eqn:Htoken.
      * destruct (scan_finds_special text configuration token Htoken)
          as [r Hr].
        rewrite Hr in Hscan. discriminate Hscan.
      * repeat split.
  - destruct numeral; repeat split.
  - destruct nature as [|[|]| |]; repeat split; intros H; discriminate H.
  - repeat split.
Qed.

(** Unless [consider] shuts the input out, [collect_type] hands on the
    descriptor of the Classifier as it is. *)
Lemma collect_type_hands_on (obj consider : PyObject_ptr)
  (options : plain_options) :
  consider <> the_NUMBER_ONLY -> consider <> the_STRING_ONLY ->
  @collect_type classifier_host obj options consider
  = classified (content obj) options.
Proof.
  intros Hnum Hstr. unfold collect_type.
  cbn [NUMBER_ONLY STRING_ONLY is_text is_unicode_character is_non_text
       character_number_type unicode_number_type numeric_number_type
       spec_host].
  rewrite (proj2 (Z.eqb_neq _ _) Hnum), (proj2 (Z.eqb_neq _ _) Hstr).
  cbn [andb]. destruct (content obj); reflexivity.
Qed.

(** C3: for every input, the [Infinity] and [NaN] flags of the descriptor
    that [collect_type] returns are set exactly when infinity or NaN is
    found in the input, whatever the configuration is, and the descriptor
    records one origin.  The policy is applied behind it, by
    [resolve_types]: for a descriptor with [Float] set the float verdict
    is turned down exactly if infinity is found and disallowed for the
    origin of the input, or NaN is found and disallowed for it; for an
    input from text the allowances for numbers are not consulted, and the
    other way round.  The Classifier is the one of the specification. *)
Theorem inf_nan_policy_by_origin (obj consider : PyObject_ptr)
  (options : plain_options) (flags : NumberFlags) :
  consider <> the_NUMBER_ONLY -> consider <> the_STRING_ONLY ->
  flags = @collect_type classifier_host obj options consider ->
  (forall options' : plain_options,
      has (@collect_type classifier_host obj options' consider) flag_Infinity
      = found_infinity (content obj)
      /\ has (@collect_type classifier_host obj options' consider) flag_NaN
         = found_nan (content obj))
  /\ (has flags (Z.lor flag_FromStr flag_FromUni) = true ->
      has flags flag_FromNum = false)
  /\ (has flags flag_Float = true ->
      (ok_float (@resolve_types classifier_host flags options) = false
       <-> (found_infinity (content obj) = true
            /\ @inf_disallowed classifier_host flags options)
           \/ (found_nan (content obj) = true
               /\ @nan_disallowed classifier_host flags options)))
  /\ (forall options' : plain_options,
        has flags flag_FromNum = false ->
        opt_inf_str options' = opt_inf_str options ->
        opt_nan_str options' = opt_nan_str options ->
        ok_float (@resolve_types classifier_host flags options')
        = ok_float (@resolve_types classifier_host flags options))
  /\ (forall options' : plain_options,
        has flags (Z.lor flag_FromStr flag_FromUni) = false ->
        opt_inf_num options' = opt_inf_num options ->
        opt_nan_num options' = opt_nan_num options ->
        ok_float (@resolve_types classifier_host flags options')
        = ok_float (@resolve_types classifier_host flags options)).
Proof.
  intros Hnum Hstr Hflags.
  rewrite (collect_type_hands_on obj consider options Hnum Hstr) in Hflags.
  destruct (classify_reports_what_is_found (content obj) options)
    as (Hinf & Hnan & Horigin).
  rewrite <- Hflags in Hinf, Hnan, Horigin.
  split; [|split; [exact Horigin|split; [|split]]].
  - intros options'.
    rewrite (collect_type_hands_on obj consider options' Hnum Hstr).
    destruct (classify_reports_what_is_found (content obj) options')
      as (Hinf' & Hnan' & _).
    split; assumption.
  - intros HF. rewrite <- Hinf, <- Hnan.
    exact (proj1 (@resolve_types_applies_policy classifier_host flags options
                    HF)).
  - intros options' Hfrom Hi Hn.
    destruct (has flags flag_Float) eqn:HF.
    + exact (proj1 (proj2 (@resolve_types_applies_policy classifier_host
                             flags options HF)) options' Hfrom Hi Hn).
    + unfold resolve_types. cbn [ok_float Float spec_host]. rewrite HF.
      reflexivity.
  - intros options' Hfrom Hi Hn.
    destruct (has flags flag_Float) eqn:HF.
    + exact (proj2 (proj2 (@resolve_types_applies_policy classifier_host
                             flags options HF)) options' Hfrom Hi Hn).
    + unfold resolve_types. cbn [ok_float Float spec_host]. rewrite HF.
      reflexivity.
Qed.

End ClassifierFacts.

Lemma inf_nan_policy_by_origin_witness :
  has (@collect_type
         (spec_host example_digits (fun _ => false) example_content)
         str_inf (mk_options 10 false false true true true true) nullptr)
    flag_Infinity = true
  /\ has (@collect_type
            (spec_host example_digits (fun _ => false) example_content)
            str_inf (mk_options 10 false false false true true true) nullptr)
       flag_Infinity = true
  /\ has (@collect_type
            (spec_host example_digits (fun _ => false) example_content)
            str_12 (mk_options 10 false false false true true true) nullptr)
       flag_Infinity = false.
Proof.
  split; [|split].
  - exact (proj1 (proj1 (inf_nan_policy_by_origin example_digits
                           (fun _ => false) example_content str_inf nullptr
                           (mk_options 10 false false false true true true)
                           _ ltac:(discriminate) ltac:(discriminate) eq_refl)
                    (mk_options 10 false false true true true true))).
  - exact (proj1 (proj1 (inf_nan_policy_by_origin example_digits
                           (fun _ => false) example_content str_inf nullptr
                           (mk_options 10 false false false true true true)
                           _ ltac:(discriminate) ltac:(discriminate) eq_refl)
                    (mk_options 10 false false false true true true))).
  - exact (proj1 (proj1 (inf_nan_policy_by_origin example_digits
                           (fun _ => false) example_content str_12 nullptr
                           (mk_options 10 false false false true true true)
                           _ ltac:(discriminate) ltac:(discriminate) eq_refl)
                    (mk_options 10 false false false true true true))).
Defined.

Example found_but_disallowed :
  float_check_impl
    (host := spec_host example_digits (fun _ => false) example_content)
    str_inf DISALLOWED ALLOWED nullptr FLOAT false false = false
  /\ float_check_impl
       (host := spec_host example_digits (fun _ => false) example_content)
       str_inf ALLOWED ALLOWED nullptr FLOAT false false = true.
Proof. split; reflexivity. Qed.

Lemma unsupported_type_is_invalid_witness :
  @collect_type example_host str_12
    (mk_options 10 false false true true true true) the_NUMBER_ONLY = 0
  /\ @collect_type example_host int_12
       (mk_options 10 false false true true true true) the_STRING_ONLY = 0.
Proof.
  destruct (@unsupported_type_is_invalid example_host str_12
              (mk_options 10 false false true true true true)
              ltac:(discriminate)) as [Htext _].
  destruct (@unsupported_type_is_invalid example_host int_12
              (mk_options 10 false false true true true true)
              ltac:(discriminate)) as [_ Hnum].
  split; [exact (Htext eq_refl) | exact (Hnum eq_refl)].
Defined.

Lemma float_check_integers_witness :
  @float_check_impl example_host int_12 ALLOWED ALLOWED nullptr FLOAT
    false false = false
  /\ @float_check_impl example_host int_12 ALLOWED ALLOWED nullptr REAL
       false true = true
  /\ @float_check_impl example_host str_12 ALLOWED ALLOWED nullptr FLOAT
       false false = true.
Proof.
  split; [|split].
  - exact (proj1 (proj2 (@float_check_integers example_host int_12 ALLOWED
                           ALLOWED nullptr false false)) eq_refl eq_refl).
  - exact (proj2 (proj2 (@float_check_integers example_host int_12 ALLOWED
                           ALLOWED nullptr false true)) eq_refl).
  - apply (proj1 (@float_check_integers example_host str_12 ALLOWED
                    ALLOWED nullptr false false) eq_refl).
    repeat split.
Defined.

Lemma type_query_prefers_integer_witness :
  @type_query_impl example_host float_3 nullptr ALLOWED ALLOWED false true
  = long_type
  /\ @type_query_impl example_host float_3 only_int ALLOWED ALLOWED false false
     = none
  /\ @type_query_impl example_host a_list nullptr ALLOWED ALLOWED false true
     = list_type.
Proof.
  pose proof (@type_query_prefers_integer example_host float_3 nullptr
                ALLOWED ALLOWED false true) as H1.
  pose proof (@type_query_prefers_integer example_host float_3 only_int
                ALLOWED ALLOWED false false) as H2.
  pose proof (@type_query_prefers_integer example_host a_list nullptr
                ALLOWED ALLOWED false true) as H3.
  cbv zeta in H1, H2, H3.
  destruct H1 as (_ & F1 & _ & _ & _ & A1).
  destruct H2 as (_ & _ & _ & _ & N2 & _).
  destruct H3 as (_ & _ & _ & F3 & _ & A3).
  split; [|split].
  - rewrite (A1 (or_introl eq_refl)). exact (F1 eq_refl eq_refl).
  - exact (N2 ltac:(discriminate) eq_refl).
  - rewrite (A3 (or_introl eq_refl)). exact (F3 eq_refl eq_refl eq_refl).
Defined.

Example float_check_inf_disallowed :
  @float_check_impl example_host str_inf the_NUMBER_ONLY ALLOWED nullptr
    FLOAT false false = false.
Proof. reflexivity. Qed.
Example float_check_inf_allowed :
  @float_check_impl example_host str_inf the_STRING_ONLY ALLOWED nullptr
    FLOAT false false = true.
Proof. reflexivity. Qed.
Example type_query_float_without_coercion :
  @type_query_impl example_host float_3 nullptr ALLOWED ALLOWED false false
  = float_type.
Proof. reflexivity. Qed.

Lemma int_check_coerces_only_intlike_witness :
  @int_check_impl example_host float_3 nullptr INT false 10
  = has (@collect_type example_host float_3
           (mk_options 10 false false false false false false) nullptr) 1.
Proof.
  exact (@int_check_coerces_only_intlike example_host float_3 nullptr INT
           false 10 (fun c u o => eq_refl) ltac:(discriminate)).
Defined.

Lemma restricted_checks_answer_false_witness :
  @float_check_impl example_host str_12 ALLOWED ALLOWED the_NUMBER_ONLY REAL
    false false = false
  /\ @int_check_impl example_host int_12 the_STRING_ONLY INT false 10 = false.
Proof.
  split.
  - exact (proj1 (proj1 (@restricted_checks_answer_false example_host str_12
                           ALLOWED ALLOWED REAL false false 10 eq_refl
                           ltac:(discriminate)) eq_refl)).
  - exact (proj2 (proj2 (@restricted_checks_answer_false example_host int_12
                           ALLOWED ALLOWED INT false false 10 eq_refl
                           ltac:(discriminate)) eq_refl)).
Defined.

Lemma allowing_more_rejects_less_witness :
  @ok_float (@resolve_types example_host (2 + 8 + 64)
               (mk_options 10 false false true false false false)) = true
  /\ @ok_float (@resolve_types example_host (2 + 8 + 64)
                  (mk_options 10 false false true true true true)) = true.
Proof.
  split; [reflexivity|].
  exact (proj1 (@allowing_more_rejects_less example_host (2 + 8 + 64)
                  (mk_options 10 false false true false false false)
                  (mk_options 10 false false true true true true)
                  (fun _ => eq_refl) (fun _ => eq_refl)
                  (fun _ => eq_refl) (fun _ => eq_refl)) eq_refl).
Defined.

End Implementation.

(** ** iteration.hpp, and [iteration_impl] of implementation.cpp *)

Module Iteration.

Import Implementation.

(** A call returns, or it throws ([exception_is_set], or what [convert]
    throws). *)
Inductive outcome (A : Type) : Type :=
| Returned (a : A)
| Thrown.
Arguments Returned {A} a.
Arguments Thrown {A}.

Definition outcome_map {A B : Type} (f : A -> B) (m : outcome A) : outcome B :=
  match m with
  | Returned a => Returned (f a)
  | Thrown => Thrown
  end.

Definition and_then {A B : Type} (m : outcome A) (k : A -> outcome B)
  : outcome B :=
  match m with
  | Returned a => k a
  | Thrown => Thrown
  end.

(** *** Python.h

    A Python list is the list of its slots, a slot that is not filled yet
    holding [NULL].  The object handed to the iteration is a list or a
    tuple, some other sequence, some other iterable (with the items it
    will still yield and the length hint it gives), or no iterable at
    all. *)

Definition PyList := list PyObject_ptr.

Definition PyList_New (length : Z) : option PyList :=
  if length <? 0 then None else Some (repeat nullptr (Z.to_nat length)).

Definition PyList_GET_SIZE (l : PyList) : Z := Z.of_nat (List.length l).

Definition PyList_Append (l : PyList) (item : PyObject_ptr) : PyList :=
  l ++ [item].

Definition PyList_SET_ITEM (l : PyList) (index : Z) (item : PyObject_ptr)
  : PyList :=
  if (0 <=? index) && (index <? PyList_GET_SIZE l)
  then firstn (Z.to_nat index) l ++ item :: skipn (Datatypes.S (Z.to_nat index)) l
  else l.

(** [ListOrTuple] is a list or a tuple, [OtherSequence] a sequence of
    another type; the length of either is the number of its items, as
    that of a string or a range is.  A sequence whose
    [__len__] says something else is, for [iteration_impl], the
    [OtherIterable] with its items and that length for a hint. *)
Inductive iterable :=
| ListOrTuple (items : list PyObject_ptr)
| OtherSequence (items : list PyObject_ptr)
| OtherIterable (items : list PyObject_ptr) (length_hint : Z)
| NotIterable.

Definition PyList_Check_or_PyTuple_Check (o : iterable) : bool :=
  match o with ListOrTuple _ => true | _ => false end.

Definition PySequence_Check (o : iterable) : bool :=
  match o with ListOrTuple _ | OtherSequence _ => true | _ => false end.

Definition PySequence_Size (o : iterable) : Z :=
  match o with
  | ListOrTuple items | OtherSequence items => Z.of_nat (List.length items)
  | _ => -1
  end.

Definition PyObject_LengthHint (o : iterable) (defaultvalue : Z) : Z :=
  match o with
  | ListOrTuple items | OtherSequence items => Z.of_nat (List.length items)
  | OtherIterable _ length_hint => length_hint
  | NotIterable => defaultvalue
  end.

(** The state of the iterator [PyObject_GetIter] returns: the items it
    will still yield.  [None] is the [nullptr] of an object that cannot be
    iterated. *)
Definition PyObject_GetIter (o : iterable) : option (list PyObject_ptr) :=
  match o with
  | ListOrTuple items | OtherSequence items | OtherIterable items _ =>
      Some items
  | NotIterable => None
  end.

(** *** class ListBuilder *)

Module ListBuilder.

Record t := mk { m_list : PyList; m_index : Z }.

(** [ListBuilder(const Py_ssize_t length)] *)
Definition from_length (length : Z) : outcome t :=
  match PyList_New length with
  | None => Thrown
  | Some l => Returned (mk l 0)
  end.

Definition get_length_hint (length_hint_base : iterable) : outcome Z :=
  let length_hint := PyObject_LengthHint length_hint_base 0 in
  if length_hint <? 0 then Thrown else Returned length_hint.

(** [ListBuilder(PyObject* length_hint_base)] *)
Definition from_hint (length_hint_base : iterable) : outcome t :=
  and_then (get_length_hint length_hint_base) from_length.

Definition append (b : t) (item : PyObject_ptr) : outcome t :=
  if item =? nullptr then Thrown
  else
    let l := if PyList_GET_SIZE (m_list b) =? m_index b
             then PyList_Append (m_list b) item
             else PyList_SET_ITEM (m_list b) (m_index b) item in
    Returned (mk l (m_index b + 1)).

Definition get (b : t) : PyList := m_list b.

(** One [append] after the other, as long as none throws. *)
Fixpoint append_all (b : t) (items : list PyObject_ptr) : outcome t :=
  match items with
  | [] => Returned b
  | item :: items' => and_then (append b item) (fun b' => append_all b' items')
  end.

(** A builder that has taken [filled] and has [free] slots left of those
    it was made with. *)
Definition filled_to (filled : list PyObject_ptr) (free : nat) : t :=
  mk (filled ++ repeat nullptr free) (Z.of_nat (List.length filled)).

End ListBuilder.

(** *** class IterableManager *)

Inductive IterState := CONTINUE | STOP.

Definition IterState_eqb (a b : IterState) : bool :=
  match a, b with
  | CONTINUE, CONTINUE | STOP, STOP => true
  | _, _ => false
  end.

Module IterableManager.

Section WithPayload.

(** [PayloadType], with the value [PayloadType()] and its [==]. *)
Variable PayloadType : Type.
Variable default_payload : PayloadType.
Variable payload_eq_dec : forall a b : PayloadType, {a = b} + {a <> b}.

(** [m_iterator] is the state of the Python iterator, which for an
    iterable that is its own iterator is the state of [m_object] itself;
    [m_fast_sequence] is the list or tuple whose items are read by
    index. *)
Record t := mk
  { m_object : iterable;
    m_iterator : option (list PyObject_ptr);
    m_fast_sequence : option (list PyObject_ptr);
    m_index : Z;
    m_seq_size : Z }.

Variable m_convert : PyObject_ptr -> outcome PayloadType.

(** The items of a list or tuple, as [PySequence_Fast_GET_ITEM] and
    [PySequence_Fast_GET_SIZE] read them. *)
Definition fast_items (o : iterable) : list PyObject_ptr :=
  match o with ListOrTuple items => items | _ => [] end.

Definition PySequence_Fast_GET_SIZE (fast : list PyObject_ptr) : Z :=
  Z.of_nat (List.length fast).

(** The constructor. *)
Definition construct (potential_iterable : iterable) : outcome t :=
  if PyList_Check_or_PyTuple_Check potential_iterable then
    Returned (mk potential_iterable None
                (Some (fast_items potential_iterable)) 0
                (PySequence_Fast_GET_SIZE (fast_items potential_iterable)))
  else
    match PyObject_GetIter potential_iterable with
    | Some items => Returned (mk potential_iterable (Some items) None 0 0)
    | None => Thrown
    end.

(** [PySequence_InPlaceConcat(local_storage, m_object)]: the items
    [m_object] yields go behind those of [local_storage].  Written for an
    iterable that is its own iterator (a generator, a file), which yields
    what [m_iterator] has left; one that is not (a set, a dict) yields all
    its items, which is the same as long as nothing has been taken from
    [m_iterator]. *)
Definition PySequence_InPlaceConcat (local_storage : PyList) (m : t)
  : option PyList :=
  match m_object m with
  | NotIterable => None
  | ListOrTuple items | OtherSequence items => Some (local_storage ++ items)
  | OtherIterable _ _ =>
      Some (local_storage
            ++ match m_iterator m with Some remaining => remaining | None => [] end)
  end.

Definition require_fast_sequence (m : t) : outcome t :=
  if PySequence_Check (m_object m) then Returned m
  else
    match PyList_New 0 with
    | None => Thrown
    | Some local_storage =>
        match PySequence_InPlaceConcat local_storage m with
        | None => Thrown
        | Some fast =>
            Returned (mk (m_object m) None (Some fast) (m_index m)
                        (PyList_GET_SIZE fast))
        end
    end.

Definition get_size (m : t) : outcome (Z * t) :=
  match m_fast_sequence m with
  | Some _ => Returned (m_seq_size m, m)
  | None =>
      if PySequence_Check (m_object m)
      then Returned (PySequence_Size (m_object m), m)
      else and_then (require_fast_sequence m)
             (fun m' => Returned (m_seq_size m', m'))
  end.

(** [PySequence_Fast_GET_ITEM]; there is no item to read outside the
    sequence. *)
Definition PySequence_Fast_GET_ITEM (fast : option (list PyObject_ptr))
  (index : Z) : PyObject_ptr :=
  match fast with
  | Some items => nth (Z.to_nat index) items nullptr
  | None => nullptr
  end.

Definition next (m : t) : outcome (PayloadType * IterState * t) :=
  match m_iterator m with
  | None =>
      if m_index m =? m_seq_size m
      then Returned (default_payload, STOP, m)
      else
        let item := PySequence_Fast_GET_ITEM (m_fast_sequence m) (m_index m) in
        let m' := mk (m_object m) (m_iterator m) (m_fast_sequence m)
                    (m_index m + 1) (m_seq_size m) in
        and_then (m_convert item)
          (fun payload => Returned (payload, CONTINUE, m'))
  | Some [] => Returned (default_payload, STOP, m)
  | Some (item :: remaining) =>
      let m' := mk (m_object m) (Some remaining) (m_fast_sequence m)
                  (m_index m) (m_seq_size m) in
      and_then (m_convert item)
        (fun payload => Returned (payload, CONTINUE, m'))
  end.

(** [ItemIterator]; [has_parent] is [m_parent != nullptr]. *)
Record ItemIterator := mk_iterator
  { has_parent : bool; m_payload : PayloadType; m_state : IterState }.

Definition increment (m : t) (it : ItemIterator)
  : outcome (ItemIterator * t) :=
  if has_parent it
  then and_then (next m)
         (fun r => let '(payload, state, m') := r in
                   Returned (mk_iterator true payload state, m'))
  else Returned (it, m).

Definition iterator_eqb (a b : ItemIterator) : bool :=
  (if payload_eq_dec (m_payload a) (m_payload b) then true else false)
  && IterState_eqb (m_state a) (m_state b).

Definition begin_ (m : t) : outcome (ItemIterator * t) :=
  increment m (mk_iterator true default_payload STOP).

Definition end_ : ItemIterator := mk_iterator false default_payload STOP.

(** [for (auto& value : manager) body(value)], from the iterator [it] on,
    with [acc] what the body works on. *)
Fixpoint for_loop {Acc : Type} (fuel : nat)
  (body : PayloadType -> Acc -> outcome Acc) (m : t) (it : ItemIterator)
  (acc : Acc) : option (outcome (Acc * t)) :=
  match fuel with
  | O => None
  | Datatypes.S fuel' =>
      if negb (iterator_eqb it end_) then
        match body (m_payload it) acc with
        | Thrown => Some Thrown
        | Returned acc' =>
            match increment m it with
            | Thrown => Some Thrown
            | Returned (it', m') => for_loop fuel' body m' it' acc'
            end
        end
      else Some (Returned (acc, m))
  end.

Definition for_each {Acc : Type} (fuel : nat)
  (body : PayloadType -> Acc -> outcome Acc) (m : t) (acc : Acc)
  : option (outcome (Acc * t)) :=
  match begin_ m with
  | Thrown => Some Thrown
  | Returned (it, m') => for_loop fuel body m' it acc
  end.

(** The items the manager has not handed out yet. *)
Definition items_left (m : t) : list PyObject_ptr :=
  match m_iterator m with
  | Some remaining => remaining
  | None =>
      match m_fast_sequence m with
      | Some items => skipn (Z.to_nat (m_index m)) items
      | None => []
      end
  end.

(** What the constructor establishes and [next] keeps: without an
    iterator there is a fast sequence, [m_seq_size] is its size and
    [m_index] lies within it. *)
Definition consistent (m : t) : Prop :=
  m_iterator m = None ->
  exists items, m_fast_sequence m = Some items
    /\ m_seq_size m = Z.of_nat (List.length items)
    /\ 0 <= m_index m <= m_seq_size m.

(** What the loop does with the conversions of the items, in the order
    it makes them: each conversion comes before the body on its payload,
    and the first throw ends it all. *)
Fixpoint visit {Acc : Type} (body : PayloadType -> Acc -> outcome Acc)
  (conversions : list (outcome PayloadType)) (acc : Acc) : outcome Acc :=
  match conversions with
  | [] => Returned acc
  | Thrown :: _ => Thrown
  | Returned payload :: conversions' =>
      and_then (body payload acc) (visit body conversions')
  end.

End WithPayload.

End IterableManager.

(** *** iteration_impl *)

Definition items_of (o : iterable) : list PyObject_ptr :=
  match PyObject_GetIter o with Some items => items | None => [] end.

(** The loop makes one round per item, and one more to see the end. *)
Definition iteration_fuel (o : iterable) : nat :=
  Datatypes.S (List.length (items_of o)).

Definition iteration_impl (input : iterable)
  (convert : PyObject_ptr -> outcome PyObject_ptr) : option (outcome PyList) :=
  match ListBuilder.from_hint input with
  | Thrown => Some Thrown
  | Returned list_builder =>
      match IterableManager.construct input with
      | Thrown => Some Thrown
      | Returned iter_manager =>
          match IterableManager.for_each PyObject_ptr nullptr Z.eq_dec convert
                  (iteration_fuel input)
                  (fun value b => ListBuilder.append b value)
                  iter_manager list_builder with
          | None => None
          | Some Thrown => Some Thrown
          | Some (Returned (list_builder, _)) =>
              Some (Returned (ListBuilder.get list_builder))
          end
      end
  end.

(** *** An example

    Objects are numbered from 1.  [add_ten] converts every object,
    [fails_at bad] every object but [bad], and [take_one] gives the first
    object the payload [0], which is [PayloadType()]. *)

Definition conv_ten (x : PyObject_ptr) : PyObject_ptr := x + 10.

Definition add_ten (x : PyObject_ptr) : outcome PyObject_ptr :=
  Returned (conv_ten x).

Definition fails_at (bad x : PyObject_ptr) : outcome PyObject_ptr :=
  if x =? bad then Thrown else Returned (conv_ten x).

Definition take_one (x : PyObject_ptr) : outcome Z := Returned (x - 1).

Definition collect (payload : Z) (seen : list Z) : outcome (list Z) :=
  Returned (seen ++ [payload]).

Definition a_generator : iterable := OtherIterable [1; 2] 4.

(** *** Facts about the iteration *)

Section ManagerFacts.

Variable PayloadType : Type.
Variable default_payload : PayloadType.
Variable payload_eq_dec : forall a b : PayloadType, {a = b} + {a <> b}.
Variable m_convert : PyObject_ptr -> outcome PayloadType.

Abbreviation manager := (IterableManager.t).
Abbreviation next := (IterableManager.next PayloadType default_payload m_convert).
Abbreviation items_left := IterableManager.items_left.
Abbreviation consistent := IterableManager.consistent.
Abbreviation for_loop :=
  (IterableManager.for_loop PayloadType default_payload payload_eq_dec
     m_convert).
Abbreviation for_each :=
  (IterableManager.for_each PayloadType default_payload payload_eq_dec
     m_convert).
Abbreviation visit := (IterableManager.visit PayloadType).

Lemma skipn_cons_nth {A} (d : A) (n : nat) (l : list A) x rest :
  skipn n l = x :: rest -> nth n l d = x /\ skipn (Datatypes.S n) l = rest.
Proof.
  revert l. induction n as [|n IH]; intros [|y l] H; try discriminate.
  - inversion H. split; reflexivity.
  - apply IH. exact H.
Qed.

Lemma next_at_end (m : manager) :
  consistent m -> items_left m = [] ->
  next m = Returned (default_payload, STOP, m).
Proof.
  intros Hc Hleft. unfold IterableManager.next, IterableManager.items_left in *.
  destruct (IterableManager.m_iterator m) as [remaining|] eqn:Eit.
  - subst remaining. reflexivity.
  - destruct (Hc Eit) as (items & Hfast & Hsize & Hidx).
    rewrite Hfast in Hleft.
    assert (IterableManager.m_index m = IterableManager.m_seq_size m).
    { apply (f_equal (@List.length PyObject_ptr)) in Hleft.
      rewrite length_skipn in Hleft. simpl in Hleft. lia. }
    rewrite (proj2 (Z.eqb_eq _ _) H). reflexivity.
Qed.

Lemma next_item (m : manager) x rest :
  consistent m -> items_left m = x :: rest ->
  exists m',
    next m = and_then (m_convert x)
               (fun payload => Returned (payload, CONTINUE, m'))
    /\ consistent m' /\ items_left m' = rest.
Proof.
  intros Hc Hleft. unfold IterableManager.next, IterableManager.items_left in *.
  destruct (IterableManager.m_iterator m) as [remaining|] eqn:Eit.
  - subst remaining. eexists. split; [reflexivity|]. split.
    + intros H. discriminate H.
    + reflexivity.
  - destruct (Hc Eit) as (items & Hfast & Hsize & Hidx).
    rewrite Hfast in *.
    destruct (skipn_cons_nth nullptr _ _ _ _ Hleft) as [Hnth Hnext].
    assert (Hlt : IterableManager.m_index m < IterableManager.m_seq_size m).
    { apply (f_equal (@List.length PyObject_ptr)) in Hleft.
      rewrite length_skipn in Hleft. simpl in Hleft. lia. }
    assert (Hne : (IterableManager.m_index m =? IterableManager.m_seq_size m)
                  = false) by (apply Z.eqb_neq; lia).
    rewrite Hne. unfold IterableManager.PySequence_Fast_GET_ITEM.
    rewrite Hnth. eexists. split; [reflexivity|]. split.
    + intros _. exists items. cbn. repeat split; try assumption; lia.
    + cbn.
      replace (Z.to_nat (IterableManager.m_index m + 1))
        with (Datatypes.S (Z.to_nat (IterableManager.m_index m))) by lia.
      exact Hnext.
Qed.

Lemma at_end_iterator :
  IterableManager.iterator_eqb PayloadType payload_eq_dec
    (IterableManager.mk_iterator PayloadType true default_payload STOP)
    (IterableManager.end_ PayloadType default_payload) = true.
Proof.
  unfold IterableManager.iterator_eqb. cbn.
  destruct (payload_eq_dec default_payload default_payload); [reflexivity|].
  congruence.
Qed.

Lemma not_at_end_iterator payload :
  IterableManager.iterator_eqb PayloadType payload_eq_dec
    (IterableManager.mk_iterator PayloadType true payload CONTINUE)
    (IterableManager.end_ PayloadType default_payload) = false.
Proof. unfold IterableManager.iterator_eqb. cbn. apply andb_false_r. Qed.

Lemma for_loop_stop {Acc : Type}
  (body : PayloadType -> Acc -> outcome Acc) (m : manager) (acc : Acc)
  (fuel : nat) :
  for_loop (Datatypes.S fuel) body m
    (IterableManager.mk_iterator PayloadType true default_payload STOP) acc
  = Some (Returned (acc, m)).
Proof. cbn [IterableManager.for_loop]. rewrite at_end_iterator. reflexivity. Qed.

Lemma for_loop_continue {Acc : Type}
  (body : PayloadType -> Acc -> outcome Acc) (m : manager) (acc : Acc)
  (fuel : nat) payload :
  for_loop (Datatypes.S fuel) body m
    (IterableManager.mk_iterator PayloadType true payload CONTINUE) acc
  = match body payload acc with
    | Thrown => Some Thrown
    | Returned acc' =>
        match next m with
        | Thrown => Some Thrown
        | Returned (payload', state, m') =>
            for_loop fuel body m'
              (IterableManager.mk_iterator PayloadType true payload' state)
              acc'
        end
    end.
Proof.
  cbn [IterableManager.for_loop]. rewrite not_at_end_iterator. cbn [negb].
  cbn [IterableManager.m_payload].
  destruct (body payload acc) as [acc'|]; [|reflexivity].
  unfold IterableManager.increment. cbn [IterableManager.has_parent].
  destruct (next m) as [[[payload' state] m']|]; reflexivity.
Qed.

Lemma for_each_begin {Acc : Type}
  (body : PayloadType -> Acc -> outcome Acc) (m : manager) (acc : Acc)
  (fuel : nat) :
  for_each fuel body m acc
  = match next m with
    | Thrown => Some Thrown
    | Returned (payload, state, m') =>
        for_loop fuel body m'
          (IterableManager.mk_iterator PayloadType true payload state) acc
    end.
Proof.
  unfold IterableManager.for_each, IterableManager.begin_,
    IterableManager.increment. cbn [IterableManager.has_parent].
  destruct (next m) as [[[payload state] m']|]; reflexivity.
Qed.

Lemma for_loop_visits {Acc : Type}
  (body : PayloadType -> Acc -> outcome Acc) (xs : list PyObject_ptr) :
  forall (m : manager) (acc : Acc) (fuel : nat) payload,
    consistent m -> items_left m = xs ->
    (Datatypes.S (List.length xs) < fuel)%nat ->
    option_map (outcome_map fst)
      (for_loop fuel body m
         (IterableManager.mk_iterator PayloadType true payload CONTINUE) acc)
    = Some (and_then (body payload acc)
              (visit body (map m_convert xs))).
Proof.
  induction xs as [|x xs IH]; intros m acc fuel payload Hc Hleft Hf.
  - destruct fuel as [|[|fuel]]; try (simpl in Hf; lia).
    rewrite for_loop_continue.
    destruct (body payload acc) as [acc'|]; [|reflexivity].
    rewrite (next_at_end m Hc Hleft), for_loop_stop. reflexivity.
  - destruct fuel as [|fuel]; [lia|].
    rewrite for_loop_continue.
    destruct (body payload acc) as [acc'|]; [|reflexivity].
    destruct (next_item m x xs Hc Hleft) as (m' & Hnext & Hc' & Hleft').
    rewrite Hnext. cbn [map IterableManager.visit and_then].
    destruct (m_convert x) as [payload'|]; [|reflexivity].
    cbn [and_then]. apply IH; [assumption | assumption | simpl in Hf; lia].
Qed.

(** The loop over a manager, from any state the constructor and [next]
    leave it in. *)
Lemma for_each_visits {Acc : Type}
  (body : PayloadType -> Acc -> outcome Acc) (m : manager) (acc : Acc)
  (fuel : nat) :
  consistent m -> (List.length (items_left m) < fuel)%nat ->
  option_map (outcome_map fst) (for_each fuel body m acc)
  = Some (visit body (map m_convert (items_left m)) acc).
Proof.
  intros Hc Hf. rewrite for_each_begin.
  destruct (items_left m) as [|x xs] eqn:Hleft.
  - rewrite (next_at_end m Hc Hleft).
    destruct fuel; [simpl in Hf; lia|]. rewrite for_loop_stop. reflexivity.
  - destruct (next_item m x xs Hc Hleft) as (m' & Hnext & Hc' & Hleft').
    rewrite Hnext. cbn [map IterableManager.visit].
    destruct (m_convert x) as [payload|]; [|reflexivity].
    cbn [and_then].
    apply for_loop_visits; [assumption | assumption | simpl in Hf; lia].
Qed.

Lemma construct_consistent (input : iterable) (m : manager) :
  IterableManager.construct input = Returned m ->
  consistent m /\ items_left m = items_of input
  /\ IterableManager.m_object m = input /\ IterableManager.m_index m = 0.
Proof.
  unfold IterableManager.construct, items_of.
  destruct input as [items|items|items hint|]; cbn; intros H;
    inversion H; subst; cbn.
  - split; [|repeat split].
    intros _. exists items. cbn.
    unfold IterableManager.PySequence_Fast_GET_SIZE. repeat split; lia.
  - split; [|repeat split]. intros Hno. discriminate Hno.
  - split; [|repeat split]. intros Hno. discriminate Hno.
Qed.

(** X15: the loop over an [IterableManager] hands every item of a list, a
    tuple, a sequence or an iterable to [convert] and then to the body, in
    order and once each, and ends at the first throw of either.  A payload
    equal to [PayloadType()] does not end the loop: only the state STOP
    does. *)
Theorem loop_visits_every_item {Acc : Type}
  (body : PayloadType -> Acc -> outcome Acc) (input : iterable)
  (m : manager) (acc : Acc) (fuel : nat) :
  IterableManager.construct input = Returned m ->
  (List.length (items_of input) < fuel)%nat ->
  option_map (outcome_map fst) (for_each fuel body m acc)
  = Some (visit body (map m_convert (items_of input)) acc).
Proof.
  intros Hm Hf. destruct (construct_consistent input m Hm) as (Hc & Hleft & _).
  rewrite <- Hleft in *. apply for_each_visits; assumption.
Qed.

(** X16: [get_size] loses no item.  On a manager just constructed it
    returns the number of items of the input, also for an iterable that
    has to be copied into a list to be counted, and the loop that follows
    visits every item. *)
Theorem get_size_then_loop {Acc : Type}
  (body : PayloadType -> Acc -> outcome Acc) (input : iterable)
  (m : manager) (acc : Acc) (fuel : nat) :
  IterableManager.construct input = Returned m ->
  (List.length (items_of input) < fuel)%nat ->
  exists m',
    IterableManager.get_size m
    = Returned (Z.of_nat (List.length (items_of input)), m')
    /\ option_map (outcome_map fst) (for_each fuel body m' acc)
       = Some (visit body (map m_convert (items_of input)) acc).
Proof.
  intros Hm Hf.
  destruct (construct_consistent input m Hm) as (Hc & Hleft & Hobj & Hidx).
  assert (Hdone : forall m', consistent m' -> items_left m' = items_of input ->
            option_map (outcome_map fst) (for_each fuel body m' acc)
            = Some (visit body (map m_convert (items_of input)) acc)).
  { intros m' Hc' Hleft'. rewrite <- Hleft' in *.
    apply for_each_visits; assumption. }
  unfold IterableManager.construct in Hm.
  destruct input as [items|items|items hint|]; cbn in Hm; inversion Hm;
    subst m; cbn in *.
  - eexists. split; [reflexivity|]. apply Hdone; assumption.
  - eexists. split; [reflexivity|]. apply Hdone; assumption.
  - eexists. split; [reflexivity|]. apply Hdone.
    + intros _. exists items. cbn.
      unfold PyList_GET_SIZE. repeat split; lia.
    + reflexivity.
Qed.

End ManagerFacts.

Lemma append_filled_to (filled : list PyObject_ptr) (free : nat) item :
  item <> nullptr ->
  ListBuilder.append (ListBuilder.filled_to filled free) item
  = Returned (ListBuilder.filled_to (filled ++ [item]) (Nat.pred free)).
Proof.
  intros Hitem. unfold ListBuilder.append, ListBuilder.filled_to.
  cbn [ListBuilder.m_list ListBuilder.m_index].
  rewrite (proj2 (Z.eqb_neq item nullptr) Hitem).
  unfold PyList_GET_SIZE, PyList_Append, PyList_SET_ITEM, PyList_GET_SIZE.
  rewrite length_app, repeat_length, length_app. cbn [List.length].
  f_equal. f_equal; [|lia].
  destruct free as [|free].
  - rewrite Nat.add_0_r, Z.eqb_refl. cbn [repeat Nat.pred].
    rewrite !app_nil_r. reflexivity.
  - assert (Hne : (Z.of_nat (List.length filled + Datatypes.S free)
                   =? Z.of_nat (List.length filled)) = false)
      by (apply Z.eqb_neq; lia).
    rewrite Hne.
    assert (Hin : ((0 <=? Z.of_nat (List.length filled))
                   && (Z.of_nat (List.length filled)
                       <? Z.of_nat (List.length filled + Datatypes.S free)))
                  = true).
    { apply andb_true_iff. split; [apply Z.leb_le | apply Z.ltb_lt]; lia. }
    rewrite Hin, Nat2Z.id. cbn [Nat.pred].
    rewrite Parsing.firstn_length_app.
    change (Datatypes.S (List.length filled))
      with (1 + List.length filled)%nat.
    rewrite <- skipn_skipn, Parsing.skipn_length_app. cbn [repeat skipn].
    rewrite <- app_assoc. reflexivity.
Qed.

Lemma append_all_filled_to (items : list PyObject_ptr) :
  forall (filled : list PyObject_ptr) (free : nat),
    Forall (fun item => item <> nullptr) items ->
    ListBuilder.append_all (ListBuilder.filled_to filled free) items
    = Returned (ListBuilder.filled_to (filled ++ items)
                  (free - List.length items)).
Proof.
  induction items as [|item items IH]; intros filled free Hall.
  - cbn. rewrite app_nil_r, Nat.sub_0_r. reflexivity.
  - inversion Hall as [|? ? Hitem Hrest]; subst.
    cbn [ListBuilder.append_all]. rewrite (append_filled_to _ _ _ Hitem).
    cbn [and_then]. rewrite (IH _ _ Hrest), <- app_assoc. cbn [app List.length].
    do 2 f_equal. lia.
Qed.

Lemma from_length_filled_to (length : Z) :
  0 <= length ->
  ListBuilder.from_length length
  = Returned (ListBuilder.filled_to [] (Z.to_nat length)).
Proof.
  intros Hlen. unfold ListBuilder.from_length, PyList_New.
  assert (Hge : (length <? 0) = false) by (apply Z.ltb_ge; lia).
  rewrite Hge. reflexivity.
Qed.

(** X17: a [ListBuilder] made with [length] slots and given items that
    are not [NULL] holds them in the order they came, behind them the
    slots that are still free: it first fills the slots and then grows,
    and it counts every item. *)
Theorem list_builder_fills_then_grows (length : Z)
  (items : list PyObject_ptr) :
  0 <= length ->
  Forall (fun item => item <> nullptr) items ->
  and_then (ListBuilder.from_length length)
    (fun b => ListBuilder.append_all b items)
  = Returned (ListBuilder.mk
                (items ++ repeat nullptr (Z.to_nat length - List.length items))
                (Z.of_nat (List.length items))).
Proof.
  intros Hlen Hall. rewrite (from_length_filled_to _ Hlen). cbn [and_then].
  rewrite (append_all_filled_to _ _ _ Hall). reflexivity.
Qed.

Lemma visit_append_all (convert : PyObject_ptr -> outcome PyObject_ptr)
  (conv : PyObject_ptr -> PyObject_ptr) (xs : list PyObject_ptr) :
  forall b,
    Forall (fun x => convert x = Returned (conv x)) xs ->
    IterableManager.visit PyObject_ptr
      (fun value b' => ListBuilder.append b' value) (map convert xs) b
    = ListBuilder.append_all b (map conv xs).
Proof.
  induction xs as [|x xs IH]; intros b Hall; [reflexivity|].
  inversion Hall as [|? ? Hx Hrest]; subst.
  cbn [map IterableManager.visit ListBuilder.append_all]. rewrite Hx.
  destruct (ListBuilder.append b (conv x)) as [b'|]; [|reflexivity].
  cbn [and_then]. apply IH. exact Hrest.
Qed.

Lemma visit_app {P Acc : Type} (body : P -> Acc -> outcome Acc)
  (before after : list (outcome P)) :
  forall acc,
    IterableManager.visit P body (before ++ after) acc
    = and_then (IterableManager.visit P body before acc)
        (IterableManager.visit P body after).
Proof.
  induction before as [|[payload|] before IH]; intros acc;
    cbn [app IterableManager.visit and_then]; try reflexivity.
  destruct (body payload acc) as [acc'|]; [|reflexivity].
  cbn [and_then]. apply IH.
Qed.

(** [iteration_impl] is the list of the builder after the loop. *)
Lemma iteration_impl_visit (input : iterable)
  (convert : PyObject_ptr -> outcome PyObject_ptr) list_builder iter_manager :
  ListBuilder.from_hint input = Returned list_builder ->
  IterableManager.construct input = Returned iter_manager ->
  iteration_impl input convert
  = Some (outcome_map ListBuilder.get
            (IterableManager.visit PyObject_ptr
               (fun value b => ListBuilder.append b value)
               (map convert (items_of input)) list_builder)).
Proof.
  intros Hb Hm. unfold iteration_impl. rewrite Hb, Hm.
  destruct (construct_consistent input iter_manager Hm) as (Hc & Hleft & _).
  pose proof (for_each_visits PyObject_ptr nullptr Z.eq_dec convert
                (fun value b => ListBuilder.append b value)
                iter_manager list_builder (iteration_fuel input) Hc) as Hloop.
  rewrite Hleft in Hloop. specialize (Hloop (Nat.lt_succ_diag_r _)).
  destruct (IterableManager.for_each PyObject_ptr nullptr Z.eq_dec convert
              (iteration_fuel input)
              (fun value b => ListBuilder.append b value)
              iter_manager list_builder) as [[[b m]|]|];
    cbn in Hloop; inversion Hloop as [Hvisit]; reflexivity.
Qed.

Lemma from_hint_filled_to (input : iterable) :
  0 <= PyObject_LengthHint input 0 ->
  ListBuilder.from_hint input
  = Returned (ListBuilder.filled_to []
                (Z.to_nat (PyObject_LengthHint input 0))).
Proof.
  intros Hhint. unfold ListBuilder.from_hint, ListBuilder.get_length_hint.
  assert (Hge : (PyObject_LengthHint input 0 <? 0) = false)
    by (apply Z.ltb_ge; lia).
  rewrite Hge. cbn [and_then]. apply from_length_filled_to. exact Hhint.
Qed.

Lemma construct_returns (input : iterable) :
  input <> NotIterable ->
  exists m : IterableManager.t, IterableManager.construct input = Returned m.
Proof.
  intros Hinput. destruct input; try (eexists; reflexivity). congruence.
Qed.

(** X18: [iteration_impl] returns the converted items in the order of the
    input, each once, when the input can be iterated, its length hint is
    not negative and [convert] returns an object for every item.  Behind
    them the list keeps a [NULL] slot for each item the length hint
    promised and the input did not yield: none when the hint does not
    exceed the number of items yielded, and otherwise the list is as long
    as the hint says and holds [NULL]. *)
Theorem iteration_impl_converts_every_item (input : iterable)
  (convert : PyObject_ptr -> outcome PyObject_ptr)
  (conv : PyObject_ptr -> PyObject_ptr) :
  input <> NotIterable ->
  0 <= PyObject_LengthHint input 0 ->
  Forall (fun x => convert x = Returned (conv x) /\ conv x <> nullptr)
    (items_of input) ->
  iteration_impl input convert
  = Some (Returned
            (map conv (items_of input)
             ++ repeat nullptr
                  (Z.to_nat (PyObject_LengthHint input 0)
                   - List.length (items_of input))))
  /\ (PyObject_LengthHint input 0 <= Z.of_nat (List.length (items_of input))
      -> iteration_impl input convert
         = Some (Returned (map conv (items_of input))))
  /\ (Z.of_nat (List.length (items_of input)) < PyObject_LengthHint input 0
      -> exists l,
           iteration_impl input convert = Some (Returned l)
           /\ In nullptr l
           /\ Z.of_nat (List.length l) = PyObject_LengthHint input 0).
Proof.
  intros Hinput Hhint Hall.
  destruct (construct_returns input Hinput) as [m Hm].
  assert (Hres : iteration_impl input convert
            = Some (Returned
                      (map conv (items_of input)
                       ++ repeat nullptr
                            (Z.to_nat (PyObject_LengthHint input 0)
                             - List.length (items_of input))))).
  { rewrite (iteration_impl_visit input convert _ m
               (from_hint_filled_to input Hhint) Hm).
    rewrite (visit_append_all convert conv).
    - rewrite append_all_filled_to.
      + cbn. rewrite length_map. reflexivity.
      + apply Forall_map. eapply Forall_impl; [|exact Hall].
        intros x [_ Hx]. exact Hx.
    - eapply Forall_impl; [|exact Hall]. intros x [Hx _]. exact Hx. }
  split; [exact Hres|]. split.
  - intros Hfew. rewrite Hres.
    replace (Z.to_nat (PyObject_LengthHint input 0)
             - List.length (items_of input))%nat with O by lia.
    cbn [repeat]. rewrite app_nil_r. reflexivity.
  - intros Hmany. eexists. split; [exact Hres|]. split.
    + apply in_or_app. right.
      destruct (Z.to_nat (PyObject_LengthHint input 0)
                - List.length (items_of input))%nat eqn:Hfree; [lia|].
      left. reflexivity.
    + rewrite length_app, length_map, repeat_length. lia.
Qed.

(** X19: [iteration_impl] throws, and returns no list, when [convert]
    throws or returns [NULL] for some item of the input, whatever it does
    for the other items and whatever the length hint is. *)
Theorem iteration_impl_throws_at_failing_item (input : iterable)
  (convert : PyObject_ptr -> outcome PyObject_ptr) (x : PyObject_ptr) :
  In x (items_of input) ->
  convert x = Thrown \/ convert x = Returned nullptr ->
  iteration_impl input convert = Some Thrown.
Proof.
  intros Hin Hx. destruct (in_split _ _ Hin) as (before & after & Hitems).
  destruct (ListBuilder.from_hint input) as [b|] eqn:Hb;
    [|unfold iteration_impl; rewrite Hb; reflexivity].
  destruct (IterableManager.construct input) as [m|] eqn:Hm;
    [|unfold iteration_impl; rewrite Hb, Hm; reflexivity].
  rewrite (iteration_impl_visit input convert b m Hb Hm), Hitems.
  rewrite map_app, visit_app.
  destruct (IterableManager.visit PyObject_ptr
              (fun value b' => ListBuilder.append b' value)
              (map convert before) b) as [b'|]; [|reflexivity].
  cbn [and_then map IterableManager.visit].
  destruct Hx as [Hx|Hx]; rewrite Hx; reflexivity.
Qed.

(** X20: [iteration_impl] throws, whatever [convert] does, when the input
    cannot be iterated or gives a negative length hint. *)
Theorem iteration_impl_throws_on_bad_input (input : iterable)
  (convert : PyObject_ptr -> outcome PyObject_ptr) :
  input = NotIterable \/ PyObject_LengthHint input 0 < 0 ->
  iteration_impl input convert = Some Thrown.
Proof.
  intros [Hinput|Hhint].
  - subst input. reflexivity.
  - unfold iteration_impl, ListBuilder.from_hint, ListBuilder.get_length_hint.
    rewrite (proj2 (Z.ltb_lt _ _) Hhint). reflexivity.
Qed.

Lemma loop_visits_every_item_witness :
  option_map (outcome_map fst)
    (IterableManager.for_each Z 0 Z.eq_dec take_one 3 collect
       (IterableManager.mk a_generator (Some [1; 2]) None 0 0) [])
  = Some (Returned [0; 1]).
Proof.
  exact (loop_visits_every_item Z 0 Z.eq_dec take_one collect a_generator
           _ [] 3 eq_refl (le_n 3)).
Defined.

Lemma get_size_then_loop_witness :
  exists m',
    IterableManager.get_size
      (IterableManager.mk a_generator (Some [1; 2]) None 0 0)
    = Returned (2, m')
    /\ option_map (outcome_map fst)
         (IterableManager.for_each Z 0 Z.eq_dec take_one 3 collect m' [])
       = Some (Returned [0; 1]).
Proof.
  exact (get_size_then_loop Z 0 Z.eq_dec take_one collect a_generator
           _ [] 3 eq_refl (le_n 3)).
Defined.

Lemma list_builder_fills_then_grows_witness :
  and_then (ListBuilder.from_length 3)
    (fun b => ListBuilder.append_all b [11; 12])
  = Returned (ListBuilder.mk [11; 12; nullptr] 2)
  /\ and_then (ListBuilder.from_length 1)
       (fun b => ListBuilder.append_all b [11; 12])
     = Returned (ListBuilder.mk [11; 12] 2).
Proof.
  split.
  - apply (list_builder_fills_then_grows 3 [11; 12]).
    + discriminate.
    + repeat (constructor; [unfold nullptr; discriminate|]). constructor.
  - apply (list_builder_fills_then_grows 1 [11; 12]).
    + discriminate.
    + repeat (constructor; [unfold nullptr; discriminate|]). constructor.
Defined.

Lemma iteration_impl_converts_every_item_witness :
  iteration_impl a_generator add_ten
  = Some (Returned [11; 12; nullptr; nullptr])
  /\ iteration_impl (ListOrTuple [1; 2]) add_ten = Some (Returned [11; 12]).
Proof.
  split.
  - apply (iteration_impl_converts_every_item a_generator add_ten conv_ten).
    + discriminate.
    + discriminate.
    + repeat (constructor;
              [split; [reflexivity | unfold nullptr; discriminate]|]).
      constructor.
  - apply (iteration_impl_converts_every_item (ListOrTuple [1; 2]) add_ten
             conv_ten).
    + discriminate.
    + discriminate.
    + repeat (constructor;
              [split; [reflexivity | unfold nullptr; discriminate]|]).
      constructor.
    + discriminate.
Defined.

Lemma iteration_impl_throws_at_failing_item_witness :
  iteration_impl (ListOrTuple [1; 2; 3]) (fails_at 2) = Some Thrown.
Proof.
  exact (iteration_impl_throws_at_failing_item (ListOrTuple [1; 2; 3])
           (fails_at 2) 2 (or_intror (or_introl eq_refl))
           (or_introl eq_refl)).
Defined.

Lemma iteration_impl_throws_on_bad_input_witness :
  iteration_impl (OtherIterable [1] (-1)) add_ten = Some Thrown.
Proof.
  exact (iteration_impl_throws_on_bad_input (OtherIterable [1] (-1)) add_ten
           (or_intror eq_refl)).
Defined.

End Iteration.
